(** * kip: package builder, image resolver and cloud-init rendering

    A shallow embedding of
    - [pkg/server/deploy_util.go] (package [server]): the tar.gz package
      builder, the configmap / secret projection, volume deployment and
      resolv.conf generation;
    - package [cloud]: boot image tags, filtering, sorting and selection;
    - package [cloudinitfile]: rendering of the cloud-init file.

    Go strings are byte sequences and are modelled by [string]; a [[]byte]
    is a [list byte]; [int32] / [int64] values that are only copied are
    integers of [Z]; a Go [map[string]T] is a [gmap string T]; a pointer
    that is only tested against [nil] and dereferenced is an [option]. *)

From Stdlib Require Import ZArith List Ascii String Strings.Byte Permutation Sorted Lia.
From stdpp Require Import base option list gmap strings fin_maps.

Local Open Scope string_scope.
Local Open Scope Z_scope.

(** ** Go values: errors and results *)

(** A Go [error].  [Errorf] is a message built by [fmt.Errorf];
    [StatusError] is an error handed back by an external collaborator (the
    resource manager, the cell agent client, a library), with the flag that
    [errors.IsNotFound] reads; [WrapError] is [util.WrapError]. *)
Inductive error : Type :=
| Errorf (msg : string)
| StatusError (notFound : bool) (msg : string)
| WrapError (cause : error) (msg : string).

(** A Go pair [(T, error)] in which exactly one side is meaningful. *)
Inductive result (A : Type) : Type :=
| Ok (a : A)
| Err (e : error).
Arguments Ok {A} a.
Arguments Err {A} e.

#[global] Instance result_ret : MRet result := fun A a => Ok a.
#[global] Instance result_bind : MBind result := fun A B k r =>
  match r with
  | Ok a => k a
  | Err e => Err e
  end.

(** ** Go strings *)

Module strings.

(** The line feed, written ["\n"] in Go. *)
Definition nl : string := String (ascii_of_nat 10) "".

(** The double quote that [%q] puts around a string. *)
Definition dquote : string := String (ascii_of_nat 34) "".

(** [[]byte(s)] *)
Definition bytes (s : string) : list byte := list_byte_of_string s.

(** [strings.Join(elems, sep)] *)
Fixpoint Join (elems : list string) (sep : string) : string :=
  match elems with
  | [] => ""
  | [e] => e
  | e :: rest => e +:+ sep +:+ Join rest sep
  end.

(** [strings.Split(s, sep)] for a separator of one byte: the fields of
    [s] between the occurrences of [sep]; always at least one field. *)
Fixpoint Split (s : string) (sep : ascii) : list string :=
  match s with
  | "" => [""]
  | String a s' =>
      if Ascii.eqb a sep then "" :: Split s' sep
      else match Split s' sep with
           | [] => [String a ""]
           | w :: ws => String a w :: ws
           end
  end.

(** [strings.Contains(s, string(c))] *)
Fixpoint contains (c : ascii) (s : string) : bool :=
  match s with
  | "" => false
  | String a s' => Ascii.eqb a c || contains c s'
  end.

End strings.

(** ** Package [api]: the volume sources *)

Module api.

(** Maps a string key to a path within a volume. *)
Record KeyToPath : Type := {
  Key : string;
  Path : string;
  Mode : option Z;
}.

Record ConfigMapVolumeSource : Type := {
  cmv_Name : string;            (* LocalObjectReference.Name *)
  cmv_Items : list KeyToPath;
  cmv_DefaultMode : option Z;
  cmv_Optional : option bool;
}.

Record SecretVolumeSource : Type := {
  sv_SecretName : string;
  sv_Items : list KeyToPath;
  sv_DefaultMode : option Z;
  sv_Optional : option bool;
}.

(** [Volume] with its inlined [VolumeSource]; only the two sources that
    [deployPodVolumes] looks at are kept, the others are passed as they
    are to the cell agent. *)
Record Volume : Type := {
  vol_Name : string;
  vol_ConfigMap : option ConfigMapVolumeSource;
  vol_Secret : option SecretVolumeSource;
}.

(** [Pod]: the fields of [ObjectMeta] and [PodSpec] the deployment reads. *)
Record Pod : Type := {
  pod_Name : string;
  pod_Namespace : string;
  pod_Volumes : list Volume;
}.

End api.

(** ** Package [v1] (Kubernetes core objects) *)

Module v1.

Record ConfigMap : Type := {
  cm_Namespace : string;
  cm_Name : string;
  cm_Data : gmap string string;
  cm_BinaryData : gmap string (list byte);
}.

Record Secret : Type := {
  sec_Namespace : string;
  sec_Name : string;
  sec_Data : gmap string (list byte);
}.

End v1.

(** ** The Go libraries the package builder calls

    [path/filepath], [archive/tar], [compress/gzip] and [bytes] belong to
    the Go distribution, not to this repository.  They are modelled by what
    their documentation fixes: [filepath] by its lexical rules on path
    elements, a tar stream by the sequence of its records (header and
    body) and its writer with the checks it makes on a header before
    writing it, a gzip stream by the payload it decompresses to. *)

Module filepath.
Import strings.

Definition Separator : ascii := "/"%char.

(** The element loop of [Clean].  [out] holds the elements kept so far,
    last one first.  An empty element and ["."] are dropped; [".."] removes
    the last kept element when there is one that is not itself [".."],
    is kept on a path that is not rooted, and is dropped at the root. *)
Fixpoint cleanElems (rooted : bool) (elems out : list string) : list string :=
  match elems with
  | [] => out
  | e :: elems' =>
      if String.eqb e "" then cleanElems rooted elems' out
      else if String.eqb e "." then cleanElems rooted elems' out
      else if String.eqb e ".." then
        match out with
        | top :: out' =>
            if negb (String.eqb top "..") then cleanElems rooted elems' out'
            else if negb rooted then cleanElems rooted elems' (".." :: out)
            else cleanElems rooted elems' out
        | [] =>
            if negb rooted then cleanElems rooted elems' [".."]
            else cleanElems rooted elems' out
        end
      else cleanElems rooted elems' (e :: out)
  end.

(** [filepath.Clean(path)]: the shortest path name equivalent to [path] by
    purely lexical processing; the empty result is ["."]. *)
Definition Clean (path : string) : string :=
  match path with
  | "" => "."
  | String c _ =>
      let rooted := Ascii.eqb c Separator in
      let out := Join (rev (cleanElems rooted (Split path Separator) [])) "/" in
      if rooted then "/" +:+ out
      else if String.eqb out "" then "." else out
  end.

(** [filepath.Join(elem...)]: leading empty elements are ignored, the rest
    is joined with the separator and the result is Cleaned; no non-empty
    element gives the empty string. *)
Fixpoint Join (elem : list string) : string :=
  match elem with
  | [] => ""
  | e :: elem' =>
      if String.eqb e "" then Join elem'
      else Clean (strings.Join elem "/")
  end.

End filepath.

Module tar.
Import strings.

(** [tar.TypeReg = '0'] *)
Definition TypeReg : ascii := "0"%char.

(** The fields of [tar.Header] that [makeDeployPackage] sets; the others
    keep their zero value. *)
Record Header : Type := {
  Name : string;
  Mode : Z;
  Size : Z;
  Typeflag : ascii;
  Uid : Z;
  Gid : Z;
}.

(** A record of a tar stream: a header and the body that follows it. *)
Definition entry : Type := (Header * list byte)%type.

(** [tar.Writer]: the records completed so far and the record being
    written, whose body must reach the size its header announces. *)
Record Writer : Type := {
  entries : list entry;
  curr : option entry;
}.

Definition NewWriter : Writer := {| entries := []; curr := None |}.

Definition ErrWriteTooLong : error := Errorf "archive/tar: write too long".

Definition Z_length (b : list byte) : Z := Z.of_nat (List.length b).

(** *** Encoding a header

    [WriteHeader] writes a header in the first of the formats USTAR, PAX
    and GNU that can hold all its fields, and fails when none can. *)

Definition nameSize : Z := 100.
Definition prefixSize : Z := 155.

(** [maxSpecialFileSize = 1 << 20]: the largest block of PAX records that
    [writePAXHeader] writes (releases of Go before 1.19.2 have no limit). *)
Definition maxSpecialFileSize : Z := 2 ^ 20.

Definition ErrHeader : error := Errorf "archive/tar: invalid tar header".
Definition ErrFieldTooLong : error :=
  Errorf "archive/tar: header field too long".

(** [headerError]: the message starts with the text below; the reasons
    that follow it when no format fits (one per format, each quoting the
    offending field) are left out. *)
Definition headerError (why : string) : error :=
  if String.eqb why "" then Errorf "archive/tar: cannot encode header"
  else Errorf ("archive/tar: cannot encode header: " +:+ why).

(** [len(s)] *)
Definition len (s : string) : Z := Z.of_nat (String.length s).

(** The NUL byte. *)
Definition NUL : ascii := ascii_of_nat 0.

(** [hasNUL(s)] *)
Definition hasNUL (s : string) : bool := contains NUL s.

(** [isASCII(s)]: every byte is in the range 0x01 .. 0x7f. *)
Fixpoint isASCII (s : string) : bool :=
  match s with
  | "" => true
  | String c s' =>
      (0 <? Z.of_nat (nat_of_ascii c)) && (Z.of_nat (nat_of_ascii c) <? 128)
      && isASCII s'
  end.

(** [strings.HasSuffix(s, string(c))] *)
Fixpoint hasSuffix (c : ascii) (s : string) : bool :=
  match s with
  | "" => false
  | String a "" => Ascii.eqb a c
  | String _ s' => hasSuffix c s'
  end.

(** [strings.LastIndex(s, string(c))], counting from [i]; [last] is the
    answer when [c] does not occur. *)
Fixpoint lastIndexFrom (c : ascii) (s : string) (i last : Z) : Z :=
  match s with
  | "" => last
  | String a s' => lastIndexFrom c s' (i + 1) (if Ascii.eqb a c then i else last)
  end.

Definition LastIndex (s : string) (c : ascii) : Z := lastIndexFrom c s 0 (-1).

(** [splitUSTARPath(name)], by its third result: whether [name] splits at
    a slash into a prefix of at most 155 bytes and a name of at most 100. *)
Definition splitUSTARPath (name : string) : bool :=
  let length := len name in
  if (length <=? nameSize) || negb (isASCII name) then false
  else
    let length :=
      if prefixSize + 1 <? length then prefixSize + 1
      else if hasSuffix "/" name then length - 1
      else length in
    let i := LastIndex (String.substring 0 (Z.to_nat length) name) "/" in
    let nlen := len name - i - 1 in
    let plen := i in
    negb ((i <=? 0) || (nameSize <? nlen) || (nlen =? 0) || (prefixSize <? plen)).

(** [fitsInBase256(n, x)]: [x] fits a binary field of [n] bytes. *)
Definition fitsInBase256 (n x : Z) : bool :=
  (9 <=? n) || ((- 2 ^ ((n - 1) * 8) <=? x) && (x <? 2 ^ ((n - 1) * 8))).

(** [fitsInOctal(n, x)]: [x] fits an octal field of [n] bytes. *)
Definition fitsInOctal (n x : Z) : bool :=
  (0 <=? x) && ((22 <=? n) || (x <? 2 ^ ((n - 1) * 3))).

(** The decimal digits of a number that is not negative, lowest last;
    [fuel] bounds their number. *)
Fixpoint digits (fuel : nat) (n : Z) : string :=
  match fuel with
  | O => ""
  | S fuel' =>
      let d := String (ascii_of_nat (48 + Z.to_nat (n mod 10))) "" in
      if n <? 10 then d else digits fuel' (n / 10) +:+ d
  end.

(** [strconv.Itoa(n)], [strconv.FormatInt(n, 10)] for a 64-bit [n]. *)
Definition Itoa (n : Z) : string :=
  if n <? 0 then "-" +:+ digits 20 (- n) else digits 20 n.

(** [validPAXRecord(k, v)] *)
Definition validPAXRecord (k v : string) : bool :=
  if String.eqb k "" || contains "=" k then false
  else if String.eqb k "path" || String.eqb k "linkpath"
          || String.eqb k "uname" || String.eqb k "gname"
  then negb (hasNUL v)
  else negb (hasNUL k).

(** [formatPAXRecord(k, v)]: the record ["%d %s=%s\n"], whose first field
    is the length of the whole record. *)
Definition formatPAXRecord (k v : string) : result string :=
  if negb (validPAXRecord k v) then Err ErrHeader
  else
    let padding := 3 in
    let size := len k + len v + padding in
    let size := size + len (Itoa size) in
    let record := Itoa size +:+ " " +:+ k +:+ "=" +:+ v +:+ nl in
    if negb (len record =? size)
    then Ok (Itoa (len record) +:+ " " +:+ k +:+ "=" +:+ v +:+ nl)
    else Ok record.

(** The set of formats a header may be written in. *)
Record Format : Type := {
  FormatUSTAR : bool;
  FormatPAX : bool;
  FormatGNU : bool;
}.

(** The PAX record of a number that no octal field holds. *)
Definition paxNumeric (size : Z) (key : string) (n : Z) : list (string * string) :=
  if fitsInOctal size n then [] else [(key, Itoa n)].

(** [Header.allowedFormats]: the formats that can encode [h], and the PAX
    records that the PAX format needs for it, in the order of their keys
    (the order [writePAXHeader] writes them in).  The fields that
    [makeDeployPackage] leaves at their zero value fit every format and
    add no record.  Headers of the global type ['g'], which carry records
    only, are not modelled and are refused; the legacy flag of a regular
    file is not promoted. *)
Definition allowedFormats (h : Header) : result (Format * list (string * string)) :=
  (* verifyString(h.Name, 100, "Name", paxPath) *)
  let tooLong := nameSize <? len (Name h) in
  let nameGNU := negb (hasNUL (Name h)) in
  let namePAX := negb (isASCII (Name h)) || tooLong in
  let nameUSTAR := negb namePAX || splitUSTARPath (Name h) in
  (* verifyNumeric on Mode (no PAX key), Uid, Gid and Size *)
  let numGNU := fitsInBase256 8 (Mode h) && fitsInBase256 8 (Uid h)
                && fitsInBase256 8 (Gid h) && fitsInBase256 12 (Size h) in
  let numUSTAR := fitsInOctal 8 (Mode h) && fitsInOctal 8 (Uid h)
                  && fitsInOctal 8 (Gid h) && fitsInOctal 12 (Size h) in
  let numPAX := fitsInOctal 8 (Mode h) in
  let paxHdrs :=
    (paxNumeric 8 "gid" (Gid h)
     ++ (if namePAX then [("path", Name h)] else [])
     ++ paxNumeric 12 "size" (Size h)
     ++ paxNumeric 8 "uid" (Uid h))%list in
  let t := Typeflag h in
  if (Ascii.eqb t TypeReg || Ascii.eqb t "3" || Ascii.eqb t "4"
      || Ascii.eqb t "6" || Ascii.eqb t "S") && hasSuffix "/" (Name h)
  then Err (headerError "filename may not have trailing slash")
  else if Ascii.eqb t "x" || Ascii.eqb t "L" || Ascii.eqb t "K"
  then Err (headerError "cannot manually encode TypeXHeader, TypeGNULongName, or TypeGNULongLink headers")
  else if Ascii.eqb t "g"
  then Err (headerError "only PAXRecords should be set for TypeXGlobalHeader")
  else if Size h <? 0
  then Err (headerError "negative size on header-only type")
  else
    let validPAX := forallb (fun kv => validPAXRecord kv.1 kv.2) paxHdrs in
    let format := {| FormatUSTAR := nameUSTAR && numUSTAR;
                     FormatPAX := numPAX && validPAX;
                     FormatGNU := nameGNU && numGNU |} in
    if negb (FormatUSTAR format || FormatPAX format || FormatGNU format)
    then Err (headerError "")
    else Ok (format, paxHdrs).

(** The block of PAX records that [writePAXHeader] writes before the
    header. *)
Fixpoint paxData (paxHdrs : list (string * string)) : result string :=
  match paxHdrs with
  | [] => Ok ""
  | (k, v) :: rest =>
      rec ← formatPAXRecord k v;
      data ← paxData rest;
      Ok (rec +:+ data)
  end.

(** [writePAXHeader], by its error: the block of records may not exceed
    [maxSpecialFileSize]. *)
Definition writePAXHeader (paxHdrs : list (string * string)) : result unit :=
  if 0 <? Z.of_nat (List.length paxHdrs) then
    data ← paxData paxHdrs;
    if maxSpecialFileSize <? len data then Err ErrFieldTooLong else Ok tt
  else Ok tt.

(** The part of [WriteHeader] that looks at the header: USTAR is taken
    when allowed, then PAX, then GNU; the USTAR and GNU writers do not
    fail. *)
Definition encodeHeader (hdr : Header) : result unit :=
  match allowedFormats hdr with
  | Err e => Err e
  | Ok (format, paxHdrs) =>
      if FormatUSTAR format then Ok tt
      else if FormatPAX format then writePAXHeader paxHdrs
      else Ok tt
  end.

(** [Flush] finishes the current record; it fails when bytes are missing. *)
Definition Flush (tw : Writer) : result Writer :=
  match curr tw with
  | None => Ok tw
  | Some (hdr, body) =>
      if 0 <? Size hdr - Z_length body
      then Err (Errorf "archive/tar: missed writing bytes")
      else Ok {| entries := (entries tw ++ [(hdr, body)])%list; curr := None |}
  end.

(** [WriteHeader] flushes the current record, encodes the header and
    starts the next record; it fails on a header that no format can
    encode, as one whose name holds a NUL byte. *)
Definition WriteHeader (hdr : Header) (tw : Writer) : result Writer :=
  tw' ← Flush tw;
  _ ← encodeHeader hdr;
  Ok {| entries := entries tw'; curr := Some (hdr, []) |}.

(** [Write] appends to the body of the current record, and fails when the
    body would grow beyond the announced size. *)
Definition Write (b : list byte) (tw : Writer) : result Writer :=
  match curr tw with
  | None =>
      if 0 <? Z_length b then Err ErrWriteTooLong else Ok tw
  | Some (hdr, body) =>
      if Size hdr - Z_length body <? Z_length b then Err ErrWriteTooLong
      else Ok {| entries := entries tw; curr := Some (hdr, (body ++ b)%list) |}
  end.

(** [Close] flushes; the stream then holds the completed records. *)
Definition Close (tw : Writer) : result (list entry) :=
  tw' ← Flush tw;
  Ok (entries tw').

End tar.

Module gzip.

(** A gzip stream, by the payload that [gzip.Writer] compressed into it. *)
Inductive stream (A : Type) : Type :=
| Compressed (payload : A).
Arguments Compressed {A} payload.

Definition payload {A : Type} (z : stream A) : A :=
  match z with Compressed p => p end.

End gzip.

(** ** Package [server]: [deploy_util.go] *)

Module server.
Import strings api v1.

(** Go writes file modes in octal: [0644] is [6 * 64 + 4 * 8 + 4]. *)
Definition octal (u g o : Z) : Z := u * 64 + g * 8 + o.

(** [defaultVolumeFileMode = int32(0644)] *)
Definition defaultVolumeFileMode : Z := octal 6 4 4.

Record packageFile : Type := {
  data : list byte;
  mode : Z;
}.

(** The error of [getConfigMapFiles] and [getSecretFiles] for an item whose
    key the source object does not have:
    ["volume %s items %s/%s references non-existent config key: %s"].
    The first argument is the name that the volume source holds,
    [cmVol.Name] or [secVol.SecretName], which is the name of the object
    the source refers to: the name of the volume itself does not reach
    these functions. *)
Definition missingKeyError (ref namespace name key : string) : error :=
  Errorf ("volume " +:+ ref +:+ " items " +:+ namespace +:+ "/" +:+ name
          +:+ " references non-existent config key: " +:+ key).

(** The end of the loop body shared by both projections: the mode and the
    archive path of an item, and the store into [packageItems]. *)
Definition itemMode (defaultMode : Z) (item : KeyToPath) : Z :=
  match Mode item with
  | Some m => m
  | None => defaultMode
  end.

Definition archivePath (item : KeyToPath) : string :=
  if String.eqb (Path item) "" then Key item else Path item.

Definition putItem (defaultMode : Z) (item : KeyToPath) (d : list byte)
    (packageItems : gmap string packageFile) : gmap string packageFile :=
  <[archivePath item := {| data := d; mode := itemMode defaultMode item |}]>
    packageItems.

(** The loop [for _, item := range items] of [getConfigMapFiles]. *)
Fixpoint configMapItems (cmVol : ConfigMapVolumeSource) (cm : ConfigMap)
    (defaultMode : Z) (optional : bool) (items : list KeyToPath)
    (packageItems : gmap string packageFile)
    : result (gmap string packageFile) :=
  match items with
  | [] => Ok packageItems
  | item :: items' =>
      match cm_Data cm !! Key item with
      | Some stringData =>
          configMapItems cmVol cm defaultMode optional items'
            (putItem defaultMode item (bytes stringData) packageItems)
      | None =>
          match cm_BinaryData cm !! Key item with
          | Some binaryData =>
              configMapItems cmVol cm defaultMode optional items'
                (putItem defaultMode item binaryData packageItems)
          | None =>
              if optional
              then configMapItems cmVol cm defaultMode optional items'
                     packageItems
              else Err (missingKeyError (cmv_Name cmVol) (cm_Namespace cm)
                          (cm_Name cm) (Key item))
          end
      end
  end.

(** The loop [for _, item := range items] of [getSecretFiles]. *)
Fixpoint secretItems (secVol : SecretVolumeSource) (sec : Secret)
    (defaultMode : Z) (optional : bool) (items : list KeyToPath)
    (packageItems : gmap string packageFile)
    : result (gmap string packageFile) :=
  match items with
  | [] => Ok packageItems
  | item :: items' =>
      match sec_Data sec !! Key item with
      | Some binaryData =>
          secretItems secVol sec defaultMode optional items'
            (putItem defaultMode item binaryData packageItems)
      | None =>
          if optional
          then secretItems secVol sec defaultMode optional items' packageItems
          else Err (missingKeyError (sv_SecretName secVol) (sec_Namespace sec)
                      (sec_Name sec) (Key item))
      end
  end.

(** [api.KeyToPath{Key: k}] *)
Definition keyItem (k : string) : KeyToPath :=
  {| Key := k; Path := ""; Mode := None |}.

(** The buffer [makeDeployPackage] returns: a gzip stream of a tar stream. *)
Definition Buffer : Type := gzip.stream (list tar.entry).

(** The header built for one package file. *)
Definition fileHeader (path : string) (file : packageFile) : tar.Header :=
  let tarFilepath := filepath.Join ["."; "ROOTFS"; path] in
  {| tar.Name := tarFilepath;
     tar.Mode := mode file;
     tar.Size := tar.Z_length (data file);
     tar.Typeflag := tar.TypeReg;
     tar.Uid := 0;
     tar.Gid := 0 |}.

(** The loop [for path, file := range contents] of [makeDeployPackage]. *)
Fixpoint writeFiles (contents : list (string * packageFile))
    (tw : tar.Writer) : result tar.Writer :=
  match contents with
  | [] => Ok tw
  | (path, file) :: contents' =>
      tw1 ← tar.WriteHeader (fileHeader path file) tw;
      tw2 ← tar.Write (data file) tw1;
      writeFiles contents' tw2
  end.

(** [manager.ResourceManager], by its two lookups (name, then namespace). *)
Record ResourceManager : Type := {
  GetConfigMap : string -> string -> result ConfigMap;
  GetSecret : string -> string -> result Secret;
}.

(** [errors.IsNotFound] *)
Definition IsNotFound (err : error) : bool :=
  match err with
  | StatusError notFound _ => notFound
  | _ => false
  end.

(** A call [client.Deploy(pod, name, data)] made to the cell agent. *)
Record deployCall : Type := {
  dc_pod : string;
  dc_volume : string;
  dc_payload : Buffer;
}.

(** The cell agent client: the error, if any, that a [Deploy] call yields. *)
Record ItzoClient : Type := {
  Deploy : string -> string -> Buffer -> option error;
}.

(** [runtimeapi.DNSConfig] *)
Record DNSConfig : Type := {
  Servers : list string;
  Searches : list string;
  Options : list string;
}.

(** Modelled from the spec: the constant [resolvconfVolumeName] is declared
    outside the files at hand; the spec reserves the volume name
    [resolvconf] for the generated resolv.conf. *)
Definition resolvconfVolumeName : string := "resolvconf".

(** [buf.WriteString(s)] on a [bytes.Buffer]: the bytes of [s] are appended;
    the error is always [nil]. *)
Definition WriteString (buf : list byte) (s : string) : result (list byte) :=
  Ok (buf ++ bytes s)%list.

(** The message of the errors of [createResolvconf],
    [util.WrapError(err, "creating DNS config for pod %q", podName)] (the
    escapes [%q] applies inside the name are left out). *)
Definition dnsConfigMessage (podName : string) : string :=
  "creating DNS config for pod " +:+ dquote +:+ podName +:+ dquote.

(** The loop over [dnsconf.Servers] of [createResolvconf]. *)
Fixpoint writeServers (podName : string) (servers : list string)
    (buf : list byte) : result (list byte) :=
  match servers with
  | [] => Ok buf
  | srv :: servers' =>
      match WriteString buf ("nameserver " +:+ srv +:+ nl) with
      | Err err =>
          Err (WrapError err (dnsConfigMessage podName))
      | Ok buf' => writeServers podName servers' buf'
      end
  end.

Definition createResolvconf (podName : string) (dnsconf : DNSConfig)
    : result (list byte) :=
  match writeServers podName (Servers dnsconf) [] with
  | Err err => Err err
  | Ok buf =>
      let search := Join (Searches dnsconf) " " in
      let afterSearch :=
        if Nat.ltb 0 (List.length (Searches dnsconf))
        then match WriteString buf ("search " +:+ search +:+ nl) with
             | Err err =>
                 Err (WrapError err (dnsConfigMessage podName))
             | Ok buf' => Ok buf'
             end
        else Ok buf in
      match afterSearch with
      | Err err => Err err
      | Ok buf1 =>
          let options := Join (Options dnsconf) " " in
          if Nat.ltb 0 (List.length (Options dnsconf))
          then match WriteString buf1 ("options " +:+ options +:+ nl) with
               | Err err =>
                   Err (WrapError err (dnsConfigMessage podName))
               | Ok buf2 => Ok buf2
               end
          else Ok buf1
      end
  end.

Section Deploy.

(** Go leaves the order in which [range] visits a map unspecified: [range]
    is any enumeration of the entries of its argument. *)
Context (range : forall V : Type, gmap string V -> list (string * V)).
Context (range_perm :
  forall (V : Type) (m : gmap string V), range V m ≡ₚ map_to_list m).

Definition getConfigMapFiles (cmVol : ConfigMapVolumeSource) (cm : ConfigMap)
    : result (gmap string packageFile) :=
  let defaultMode :=
    match cmv_DefaultMode cmVol with
    | Some m => m
    | None => defaultVolumeFileMode
    end in
  let optional :=
    match cmv_Optional cmVol with
    | Some b => b
    | None => false
    end in
  let items :=
    if Nat.eqb (List.length (cmv_Items cmVol)) 0
    then (map (fun kv => keyItem kv.1) (range _ (cm_Data cm))
          ++ map (fun kv => keyItem kv.1) (range _ (cm_BinaryData cm)))%list
    else cmv_Items cmVol in
  configMapItems cmVol cm defaultMode optional items ∅.

Definition getSecretFiles (secVol : SecretVolumeSource) (sec : Secret)
    : result (gmap string packageFile) :=
  let defaultMode :=
    match sv_DefaultMode secVol with
    | Some m => m
    | None => defaultVolumeFileMode
    end in
  let optional :=
    match sv_Optional secVol with
    | Some b => b
    | None => false
    end in
  let items :=
    if Nat.eqb (List.length (sv_Items secVol)) 0
    then map (fun kv => keyItem kv.1) (range _ (sec_Data sec))
    else sv_Items secVol in
  secretItems secVol sec defaultMode optional items ∅.

(** Creates a tar.gz buffer filled with the package files. *)
Definition makeDeployPackage (contents : gmap string packageFile)
    : result Buffer :=
  tw ← writeFiles (range _ contents) tar.NewWriter;
  archive ← tar.Close tw;
  Ok (gzip.Compressed archive).

(** The outcome of a deployment: the error returned, if any, and the
    [Deploy] calls made to the cell agent, in order. *)
Definition outcome : Type := (option error * list deployCall)%type.

(** [payload, err := makeDeployPackage(packageFiles)] followed by
    [client.Deploy(pod.Name, vol.Name, payload)], as both branches of
    [deployPodVolumes] end. *)
Definition deployFiles (client : ItzoClient) (pod : Pod) (volName : string)
    (packageFiles : gmap string packageFile) (calls : list deployCall)
    : outcome :=
  match makeDeployPackage packageFiles with
  | Err err =>
      (Some (WrapError err ("error creating tar.gz package " +:+ volName
                            +:+ " for " +:+ pod_Name pod)), calls)
  | Ok payload =>
      let calls' :=
        (calls ++ [{| dc_pod := pod_Name pod; dc_volume := volName;
                      dc_payload := payload |}])%list in
      match Deploy client (pod_Name pod) volName payload with
      | Some err =>
          (Some (WrapError err ("error deploying package " +:+ volName
                                +:+ " to " +:+ pod_Name pod)), calls')
      | None => (None, calls')
      end
  end.

(** The body of the loop of [deployPodVolumes] for one volume. *)
Definition deployVolume (pod : Pod) (rm : ResourceManager)
    (client : ItzoClient) (vol : Volume) (calls : list deployCall)
    : outcome :=
  match vol_ConfigMap vol with
  | Some cmVol =>
      let optional :=
        match cmv_Optional cmVol with Some b => b | None => false end in
      let fetched :=
        match GetConfigMap rm (cmv_Name cmVol) (pod_Namespace pod) with
        | Err err =>
            if negb (IsNotFound err && optional)
            then Err (WrapError err ("Couldn't get configMap "
                        +:+ pod_Namespace pod +:+ "/" +:+ cmv_Name cmVol))
            else Ok {| cm_Namespace := pod_Namespace pod;
                       cm_Name := cmv_Name cmVol;
                       cm_Data := ∅; cm_BinaryData := ∅ |}
        | Ok configMap => Ok configMap
        end in
      match fetched with
      | Err err => (Some err, calls)
      | Ok configMap =>
          match getConfigMapFiles cmVol configMap with
          | Err err =>
              (Some (WrapError err ("couldn't get configMap payload "
                       +:+ pod_Namespace pod +:+ "/" +:+ cmv_Name cmVol)),
               calls)
          | Ok packageFiles =>
              deployFiles client pod (vol_Name vol) packageFiles calls
          end
      end
  | None =>
      match vol_Secret vol with
      | Some secVol =>
          let optional :=
            match sv_Optional secVol with Some b => b | None => false end in
          let fetched :=
            match GetSecret rm (sv_SecretName secVol) (pod_Namespace pod) with
            | Err err =>
                if negb (IsNotFound err && optional)
                then Err (WrapError err ("Couldn't get secret "
                       +:+ pod_Namespace pod +:+ "/" +:+ sv_SecretName secVol))
                else Ok {| sec_Namespace := pod_Namespace pod;
                           sec_Name := sv_SecretName secVol;
                           sec_Data := ∅ |}
            | Ok secret => Ok secret
            end in
          match fetched with
          | Err err => (Some err, calls)
          | Ok secret =>
              match getSecretFiles secVol secret with
              | Err err =>
                  (Some (WrapError err ("couldn't get secret payload "
                     +:+ pod_Namespace pod +:+ "/" +:+ sv_SecretName secVol)),
                   calls)
              | Ok packageFiles =>
                  deployFiles client pod (vol_Name vol) packageFiles calls
              end
          end
      | None => (None, calls)
      end
  end.

(** The loop [for _, vol := range pod.Spec.Volumes]: the first error ends
    the function. *)
Fixpoint deployVolumes (pod : Pod) (rm : ResourceManager)
    (client : ItzoClient) (vols : list Volume) (calls : list deployCall)
    : outcome :=
  match vols with
  | [] => (None, calls)
  | vol :: vols' =>
      match deployVolume pod rm client vol calls with
      | (Some err, calls') => (Some err, calls')
      | (None, calls') => deployVolumes pod rm client vols' calls'
      end
  end.

Definition deployPodVolumes (pod : Pod) (rm : ResourceManager)
    (client : ItzoClient) : outcome :=
  deployVolumes pod rm client (pod_Volumes pod) [].

(** [clientcmdapi.Config] and its serialization [clientcmd.Write] belong to
    the Kubernetes client library. *)
Context {Config : Type}.
Context (clientcmd_Write : Config -> result (list byte)).

Definition deployNetworkAgentToken (cfg : option Config) (pod : Pod)
    (client : ItzoClient) : outcome :=
  match cfg with
  | None => (None, [])
  | Some cfg =>
      match clientcmd_Write cfg with
      | Err err =>
          (Some (WrapError err
                   ("error serializing network agent kubeconfig for "
                    +:+ pod_Name pod)), [])
      | Ok d =>
          let packageFiles : gmap string packageFile :=
            {[ "kubeconfig/kubeconfig" :=
                 {| data := d; mode := octal 6 0 0 |} ]} in
          match makeDeployPackage packageFiles with
          | Err err =>
              (Some (WrapError err ("error creating kubeconfig package for "
                                    +:+ pod_Name pod)), [])
          | Ok payload =>
              let calls :=
                [{| dc_pod := pod_Name pod; dc_volume := "kubeconfig";
                    dc_payload := payload |}] in
              match Deploy client (pod_Name pod) "kubeconfig" payload with
              | Some err =>
                  (Some (WrapError err
                           ("error deploying kubeconfig package for "
                            +:+ pod_Name pod)), calls)
              | None => (None, calls)
              end
          end
      end
  end.

(** [milpaToK8sPod] and [dns.Configurer.GetPodDNS] live outside the files
    at hand: the conversion and the configurer are taken as they come. *)
Context {K8sPod : Type}.
Context (milpaToK8sPod : Pod -> result K8sPod).

Definition deployResolvconf (pod : Pod)
    (dnsConfigurer : option (K8sPod -> result DNSConfig))
    (client : ItzoClient) : outcome :=
  match dnsConfigurer with
  | None => (Some (Errorf "no DNS configurer"), [])
  | Some GetPodDNS =>
      match milpaToK8sPod pod with
      | Err err =>
          (Some (WrapError err "converting pod to generate DNS config"), [])
      | Ok k8spod =>
          match GetPodDNS k8spod with
          | Err err => (Some (WrapError err "creating pod DNS config"), [])
          | Ok dnsconf =>
              match createResolvconf (pod_Name pod) dnsconf with
              | Err err =>
                  (Some (WrapError err "creating pod resolv.conf"), [])
              | Ok d =>
                  match makeDeployPackage
                          {[ "/etc/resolv.conf" :=
                               {| data := d; mode := octal 6 4 4 |} ]} with
                  | Err err =>
                      (Some (WrapError err "creating pod resolv.conf package"),
                       [])
                  | Ok payload =>
                      let calls :=
                        [{| dc_pod := pod_Name pod;
                            dc_volume := resolvconfVolumeName;
                            dc_payload := payload |}] in
                      match Deploy client (pod_Name pod) resolvconfVolumeName
                              payload with
                      | Some err =>
                          (Some (WrapError err
                                   ("error deploying resolv.conf package to "
                                    +:+ pod_Name pod)), calls)
                      | None => (None, calls)
                      end
                  end
              end
          end
      end
  end.

End Deploy.

End server.

(** ** [strconv] and [time] of the Go distribution *)

Module strconv.

(** The value of a decimal digit, or [None] for any other byte. *)
Definition digit (c : ascii) : option Z :=
  let n := Z.of_nat (nat_of_ascii c) in
  if (48 <=? n) && (n <=? 57) then Some (n - 48) else None.

Definition ErrSyntax : error := Errorf "invalid syntax".
Definition ErrRange : error := Errorf "value out of range".

(** [maxVal] for [bitSize = 32] and the cutoff of base 10,
    [maxUint64/10 + 1]. *)
Definition maxVal : Z := 2 ^ 32 - 1.
Definition cutoff : Z := (2 ^ 64 - 1) / 10 + 1.

(** The loop of [ParseUint(s, 10, 32)] over the bytes of [s]; [n] is a
    [uint64].  A byte that is no decimal digit is a syntax error with
    value 0; a value beyond 32 bits is a range error with value [maxVal]. *)
Fixpoint parseLoop (s : string) (n : Z) : Z * option error :=
  match s with
  | "" => (n, None)
  | String c s' =>
      match digit c with
      | None => (0, Some ErrSyntax)
      | Some d =>
          if cutoff <=? n then (maxVal, Some ErrRange)
          else
            let n := (n * 10) mod 2 ^ 64 in
            let n1 := (n + d) mod 2 ^ 64 in
            if (n1 <? n) || (maxVal <? n1) then (maxVal, Some ErrRange)
            else parseLoop s' n1
      end
  end.

(** [strconv.ParseUint(s, 10, 32)]: the value and the error. *)
Definition ParseUint (s : string) : Z * option error :=
  if String.eqb s "" then (0, Some ErrSyntax) else parseLoop s 0.

End strconv.

Module time.

(** A [time.Time], by the nanoseconds elapsed since the Unix epoch. *)
Definition Time : Type := Z.

(** [time.Unix(sec, nsec)] *)
Definition Unix (sec nsec : Z) : Time := sec * 1000000000 + nsec.

(** [t.Before(u)] *)
Definition Before (t u : Time) : bool := t <? u.

End time.

(** ** Package [cloud]: boot images *)

Module cloud.
Import strings.

Record Image : Type := {
  Id : string;
  Name : string;
}.

Record BootImageTags : Type := {
  Company : string;
  Product : string;
  Version : string;
  Date : string;
  Time : string;
}.

(** [BootImageTags{}] *)
Definition noTags : BootImageTags :=
  {| Company := ""; Product := ""; Version := ""; Date := ""; Time := "" |}.

(** [bit.String()] *)
Definition String_ (bit : BootImageTags) : string :=
  Company bit +:+ "-" +:+ Product bit +:+ "-" +:+ Version bit +:+ "-"
  +:+ Date bit +:+ "-" +:+ Time bit.

(** The verb [%+v] on a [BootImageTags]. *)
Definition plusV (bit : BootImageTags) : string :=
  "{Company:" +:+ Company bit +:+ " Product:" +:+ Product bit
  +:+ " Version:" +:+ Version bit +:+ " Date:" +:+ Date bit
  +:+ " Time:" +:+ Time bit +:+ "}".

(** [tags[i]], read only under the guard [len(tags) > i]. *)
Definition index (tags : list string) (i : nat) : string := nth i tags "".

(** [bit.Set(s)]: the receiver with the fields that [s] provides. *)
Definition Set_ (bit : BootImageTags) (s : string) : BootImageTags :=
  let tags := Split s "-"%char in
  let bit :=
    if Nat.ltb 0 (List.length tags)
    then {| Company := index tags 0; Product := Product bit;
            Version := Version bit; Date := Date bit; Time := Time bit |}
    else bit in
  let bit :=
    if Nat.ltb 1 (List.length tags)
    then {| Company := Company bit; Product := index tags 1;
            Version := Version bit; Date := Date bit; Time := Time bit |}
    else bit in
  let bit :=
    if Nat.ltb 2 (List.length tags)
    then {| Company := Company bit; Product := Product bit;
            Version := index tags 2; Date := Date bit; Time := Time bit |}
    else bit in
  let bit :=
    if Nat.ltb 3 (List.length tags)
    then {| Company := Company bit; Product := Product bit;
            Version := Version bit; Date := index tags 3; Time := Time bit |}
    else bit in
  if Nat.ltb 4 (List.length tags)
  then {| Company := Company bit; Product := Product bit;
          Version := Version bit; Date := Date bit; Time := index tags 4 |}
  else bit.

(** [bit.Matches(input)] *)
Definition Matches (bit input : BootImageTags) : bool :=
  if negb (String.eqb (Company input) "")
     && negb (String.eqb (Company bit) (Company input)) then false
  else if negb (String.eqb (Product input) "")
          && negb (String.eqb (Product bit) (Product input)) then false
  else if negb (String.eqb (Version input) "")
          && negb (String.eqb (Version bit) (Version input)) then false
  else if negb (String.eqb (Date input) "")
          && negb (String.eqb (Date bit) (Date input)) then false
  else if negb (String.eqb (Time input) "")
          && negb (String.eqb (Time bit) (Time input)) then false
  else true.

(** [FilterImages]: the images whose name, parsed into fresh tags, matches. *)
Fixpoint FilterImages (images : list Image) (tags : BootImageTags)
    : list Image :=
  match images with
  | [] => []
  | img :: images' =>
      let t := Set_ noTags (Name img) in
      if Matches t tags then img :: FilterImages images' tags
      else FilterImages images' tags
  end.

Section Images.

(** [time.Parse(layout, value)] of the Go distribution. *)
Context (time_Parse : string -> string -> result time.Time).

(** [sort.Slice] of the Go distribution, on the elements of the slice and
    their comparison. *)
Context (sort_Slice : forall A : Type, (A -> A -> bool) -> list A -> list A).

(** [bit.Timestamp()] *)
Definition Timestamp (bit : BootImageTags) : result time.Time :=
  let s := Date bit +:+ " " +:+ Time bit in
  time_Parse "20060102 150405" s.

(** The version and the date that the comparison of [SortImages] computes
    for one image: the value [ParseUint] returns, whose error is only
    logged, and the timestamp, or epoch zero when it does not parse. *)
Definition sortKey (img : Image) : Z * time.Time :=
  let bitI := Set_ noTags (Name img) in
  let '(versionI, _) := strconv.ParseUint (Version bitI) in
  let dateI :=
    match Timestamp bitI with
    | Ok t => t
    | Err _ => time.Unix 0 0
    end in
  (versionI, dateI).

(** The [less] function handed to [sort.Slice]. *)
Definition imageLess (imgI imgJ : Image) : bool :=
  let '(versionI, dateI) := sortKey imgI in
  let '(versionJ, dateJ) := sortKey imgJ in
  if negb (versionI =? versionJ) then versionI <? versionJ
  else time.Before dateI dateJ.

Definition SortImages (images : list Image) : list Image :=
  sort_Slice Image imageLess images.

Definition GetBestImage (images : list Image) (tags : BootImageTags)
    : result string :=
  let images := FilterImages images tags in
  let images := SortImages images in
  if Nat.eqb (List.length images) 0
  then Err (Errorf ("No image matching tags " +:+ plusV tags +:+ " found"))
  else Ok (Id (nth (List.length images - 1) images {| Id := ""; Name := "" |})).

End Images.

End cloud.

(** ** Package [cloudinitfile] *)

Module cloudinitfile.
Import strings.

(** [cc.File] of the cloud-init library, by the fields [AddKipFile] sets. *)
Record ccFile : Type := {
  Content : string;
  Path : string;
  Owner : string;
  RawFilePermissions : string;
}.

Section CloudInit.

(** [cc.CloudConfig] of the cloud-init library: its [WriteFiles] and all
    its other fields, which [Contents] copies as they are. *)
Context {OtherFields : Type}.

Record CloudConfig : Type := {
  WriteFiles : list ccFile;
  others : OtherFields;
}.

Record File : Type := {
  userData : CloudConfig;
  kipFiles : gmap string ccFile;
}.

(** [yaml.Marshal] of the YAML library, on a [cc.CloudConfig]. *)
Context (yaml_Marshal : CloudConfig -> result (list byte)).

(** The order in which [range] visits a map. *)
Context (range : forall V : Type, gmap string V -> list (string * V)).

Definition cloudInitHeader : list byte :=
  bytes ("#cloud-config" +:+ nl).

Definition maxCloudInitSize : Z := 16000.

(** [f.AddKipFile(content, path, permissions)] *)
Definition AddKipFile (f : File) (content path permissions : string) : File :=
  {| userData := userData f;
     kipFiles :=
       <[path := {| Content := content; Path := path; Owner := "root";
                    RawFilePermissions := permissions |}]> (kipFiles f) |}.

(** [f.ResetInstanceData()] *)
Definition ResetInstanceData (f : File) : File :=
  {| userData := userData f; kipFiles := ∅ |}.

Definition itzoDir : string := "/tmp/itzo".
Definition ItzoVersionPath : string := itzoDir +:+ "/itzo_version".
Definition ItzoURLPath : string := itzoDir +:+ "/itzo_url".
Definition CellConfigPath : string := itzoDir +:+ "/cell_config.yaml".

(** [semverRegex.MatchString] of the compiled regular expression, and
    [yaml.Marshal] on a [map[string]string]. *)
Context (semverRegex_MatchString : string -> bool).
Context (yaml_MarshalMap : gmap string string -> result (list byte)).

(** [version[0] != 'v'], on a version that is not empty. *)
Definition noLeadingV (version : string) : bool :=
  match version with
  | String c _ => negb (Ascii.eqb c "v"%char)
  | "" => true
  end.

(** The version [AddItzoVersion] stores: a semantic version without the
    leading [v] gets it. *)
Definition itzoVersion (version : string) : string :=
  if negb (String.eqb version "latest") && noLeadingV version
     && semverRegex_MatchString version
  then "v" +:+ version
  else version.

(** [f.AddItzoVersion(version)] *)
Definition AddItzoVersion (f : File) (version : string) : File :=
  if String.eqb version "" then f
  else AddKipFile f (itzoVersion version) ItzoVersionPath "0444".

(** [f.AddItzoURL(url)] *)
Definition AddItzoURL (f : File) (url : string) : File :=
  if String.eqb url "" then f
  else AddKipFile f url ItzoURLPath "0444".

(** [f.AddCellConfig(cfg)]: an error of [yaml.Marshal] is dropped. *)
Definition AddCellConfig (f : File) (cfg : gmap string string) : File :=
  if Nat.eqb (size cfg) 0 then f
  else match yaml_MarshalMap cfg with
       | Err _ => f
       | Ok buf => AddKipFile f (string_of_list_byte buf) CellConfigPath "0444"
       end.

(** The configuration [Contents] marshals: the user's, with the user's
    files followed by the kip files. *)
Definition mergedConfig (f : File) : CloudConfig :=
  let mergedFiles :=
    (WriteFiles (userData f) ++ map snd (range _ (kipFiles f)))%list in
  {| WriteFiles := mergedFiles; others := others (userData f) |}.

(** [f.Contents()] *)
Definition Contents (f : File) : result (list byte) :=
  match yaml_Marshal (mergedConfig f) with
  | Err err => Err err
  | Ok mergedContent =>
      let cloudInitContent := (cloudInitHeader ++ mergedContent)%list in
      if maxCloudInitSize <? Z.of_nat (List.length cloudInitContent)
      then Err (Errorf "Cloud init data length is over 16K")
      else Ok cloudInitContent
  end.

End CloudInit.

End cloudinitfile.

(** ** Vocabulary of the statements *)

Module specdeploy.
Import strings api v1 server.

(** The enumeration of a map that the examples run with. *)
Definition rangeList (V : Type) (m : gmap string V) : list (string * V) :=
  map_to_list m.

(** The resolv.conf text in the words of the specification: one
    [nameserver] line per server, then the [search] line when there are
    searches, then the [options] line when there are options. *)
Definition resolvconfText (dnsconf : DNSConfig) : string :=
  fold_right (fun ip rest => "nameserver " +:+ ip +:+ nl +:+ rest) ""
             (Servers dnsconf)
  +:+ (match Searches dnsconf with
       | [] => ""
       | _ => "search " +:+ Join (Searches dnsconf) " " +:+ nl
       end)
  +:+ (match Options dnsconf with
       | [] => ""
       | _ => "options " +:+ Join (Options dnsconf) " " +:+ nl
       end).

(** A source marked optional: [Optional] is not nil and true. *)
Definition isOptional (o : option bool) : bool :=
  match o with
  | Some b => b
  | None => false
  end.

(** The default mode of a volume source: [DefaultMode] when it is not nil,
    0644 otherwise. *)
Definition modeOrDefault (o : option Z) : Z :=
  match o with
  | Some m => m
  | None => octal 6 4 4
  end.

(** The bytes a configmap holds for a key: the entry of [Data] when there
    is one, the entry of [BinaryData] otherwise. *)
Definition configMapValue (cm : ConfigMap) (k : string) : option (list byte) :=
  match cm_Data cm !! k with
  | Some s => Some (bytes s)
  | None => cm_BinaryData cm !! k
  end.

(** The bytes a secret holds for a key. *)
Definition secretValue (sec : Secret) (k : string) : option (list byte) :=
  sec_Data sec !! k.

(** The files the items give when the items without a value are skipped:
    each item with a value is stored at its archive path, in order. *)
Definition project (lookup : string -> option (list byte)) (defaultMode : Z)
    (items : list KeyToPath) (packageItems : gmap string packageFile)
    : gmap string packageFile :=
  fold_left (fun acc item =>
               match lookup (Key item) with
               | Some d => putItem defaultMode item d acc
               | None => acc
               end) items packageItems.

(** The first item without a value. *)
Definition firstMissing (lookup : string -> option (list byte))
    (items : list KeyToPath) : option KeyToPath :=
  List.find (fun item => match lookup (Key item) with
                         | Some _ => false
                         | None => true
                         end) items.

(** A path element that [Clean] keeps as it is: not empty, not [.] and
    not [..]. *)
Definition plainElem (e : string) : bool :=
  negb (String.eqb e "") && negb (String.eqb e ".")
  && negb (String.eqb e "..").

(** A relative path made of plain elements separated by single slashes. *)
Definition plainPath (path : string) : Prop :=
  Forall (fun e => plainElem e = true) (Split path "/"%char).

(** The tar record that stands for one package file. *)
Definition packEntry (pf : string * packageFile) : tar.entry :=
  (fileHeader pf.1 pf.2, data pf.2).

(** The records a writer holds once its current record is flushed. *)
Definition flushed (tw : tar.Writer) : list tar.entry :=
  (tar.entries tw ++ match tar.curr tw with
                     | Some e => [e]
                     | None => []
                     end)%list.

(** The current record of a writer has the size its header announces. *)
Definition complete (tw : tar.Writer) : Prop :=
  match tar.curr tw with
  | Some (hdr, body) => tar.Size hdr = tar.Z_length body
  | None => True
  end.

(** A header that [tar.WriteHeader] accepts. *)
Definition encodable (hdr : tar.Header) : Prop :=
  tar.encodeHeader hdr = Ok tt.

(** A map all of whose files have a header that [tar.WriteHeader]
    accepts. *)
Definition packable (contents : gmap string packageFile) : Prop :=
  forall path file,
    contents !! path = Some file -> encodable (fileHeader path file).

(** A value of Go's [int32], the type of a file mode. *)
Definition int32 (n : Z) : Prop := - 2 ^ 31 <= n < 2 ^ 31.

(** The bytes of the elements of a path, each counted with a separator. *)
Definition pathWeight (elems : list string) : Z :=
  fold_right (fun e acc => tar.len e + 1 + acc) 0 elems.

(** A bound on the length of the block of PAX records. *)
Definition paxWeight (paxHdrs : list (string * string)) : Z :=
  fold_right (fun kv acc => tar.len kv.1 + tar.len kv.2 + 24 + acc) 0 paxHdrs.

End specdeploy.

Module speccloud.
Import strings cloud.

(** The five fields of a tuple, in the order [String] prints them. *)
Definition fields (bit : BootImageTags) : list string :=
  [Company bit; Product bit; Version bit; Date bit; Time bit].

(** All five fields are set. *)
Definition allSet (bit : BootImageTags) : Prop :=
  Forall (fun f => f <> "") (fields bit).

(** No field holds the separator [-]. *)
Definition hyphenFree (bit : BootImageTags) : Prop :=
  Forall (fun f => contains "-"%char f = false) (fields bit).

(** Every non-empty field of the request equals the field of the image. *)
Definition fieldsMatch (bit input : BootImageTags) : Prop :=
  (Company input <> "" -> Company bit = Company input)
  /\ (Product input <> "" -> Product bit = Product input)
  /\ (Version input <> "" -> Version bit = Version input)
  /\ (Date input <> "" -> Date bit = Date input)
  /\ (Time input <> "" -> Time bit = Time input).

(** The order of the sort: version first, then timestamp. *)
Definition keyLe (k1 k2 : Z * time.Time) : Prop :=
  k1.1 < k2.1 \/ (k1.1 = k2.1 /\ k1.2 <= k2.2).

(** The leading decimal digits of a string. *)
Fixpoint digitPrefix (s : string) : string :=
  match s with
  | "" => ""
  | String c s' =>
      match strconv.digit c with
      | Some _ => String c (digitPrefix s')
      | None => ""
      end
  end.

(** The number that decimal digits spell after the number [n]. *)
Fixpoint decimalFrom (n : Z) (s : string) : Z :=
  match s with
  | "" => n
  | String c s' =>
      match strconv.digit c with
      | Some d => decimalFrom (n * 10 + d) s'
      | None => n
      end
  end.

(** The version of a version field, in words: [2^32 - 1] when its leading
    digits spell a number beyond 32 bits; else the number it spells when it
    is a non-empty string of digits; else 0. *)
Definition versionValue (s : string) : Z :=
  let pre := digitPrefix s in
  if strconv.maxVal <? decimalFrom 0 pre then strconv.maxVal
  else if String.eqb pre s && negb (String.eqb s "") then decimalFrom 0 pre
  else 0.

(** A comparison that [sort.Slice] sorts by: a strict weak order. *)
Definition strictWeakOrder {A : Type} (less : A -> A -> bool) : Prop :=
  (forall x, less x x = false)
  /\ (forall x y z, less x y = true -> less y z = true -> less x z = true)
  /\ (forall x y z, less x y = false -> less y z = false -> less x z = false).

(** A slice sorted by [less]: no element is less than an earlier one. *)
Definition sortedBy {A : Type} (less : A -> A -> bool) (l : list A) : Prop :=
  StronglySorted (fun x y => less y x = false) l.

(** An instance of [sort.Slice] for the examples: insertion sort. *)
Fixpoint insertBy {A : Type} (less : A -> A -> bool) (x : A) (l : list A)
    : list A :=
  match l with
  | [] => [x]
  | y :: l' => if less x y then x :: l else y :: insertBy less x l'
  end.

Definition insertionSort (A : Type) (less : A -> A -> bool) (l : list A)
    : list A :=
  fold_right (insertBy less) [] l.

(** An instance of [time.Parse] for the examples: it reads the layout
    ["20060102 150405"] as eight digits, a space and six digits, checks the
    ranges of the calendar and of the clock, and gives the nanoseconds
    since the Unix epoch (UTC). *)
Definition digitsValue (s : string) : option Z :=
  if String.eqb (digitPrefix s) s && negb (String.eqb s "")
  then Some (decimalFrom 0 s) else None.

Definition isLeap (y : Z) : bool :=
  (y mod 4 =? 0) && (negb (y mod 100 =? 0) || (y mod 400 =? 0)).

Definition daysIn (m y : Z) : Z :=
  if m =? 2 then (if isLeap y then 29 else 28)
  else if (m =? 4) || (m =? 6) || (m =? 9) || (m =? 11) then 30
  else 31.

(** Days from 1970-01-01 to the given civil date. *)
Definition daysFromCivil (y m d : Z) : Z :=
  let y' := if m <=? 2 then y - 1 else y in
  let era := y' / 400 in
  let yoe := y' - era * 400 in
  let doy := (153 * (if 2 <? m then m - 3 else m + 9) + 2) / 5 + d - 1 in
  let doe := yoe * 365 + yoe / 4 - yoe / 100 + doy in
  era * 146097 + doe - 719468.

Definition parseTimestamp (layout value : string) : result time.Time :=
  let bad := Err (Errorf "parsing time: cannot parse") in
  if negb (String.eqb layout "20060102 150405") then bad
  else if negb (Nat.eqb (String.length value) 15) then bad
  else if negb (String.eqb (String.substring 8 1 value) " ") then bad
  else
    match digitsValue (String.substring 0 4 value),
          digitsValue (String.substring 4 2 value),
          digitsValue (String.substring 6 2 value),
          digitsValue (String.substring 9 2 value),
          digitsValue (String.substring 11 2 value),
          digitsValue (String.substring 13 2 value) with
    | Some y, Some m, Some d, Some hh, Some mm, Some ss =>
        if (1 <=? m) && (m <=? 12) && (1 <=? d) && (d <=? daysIn m y)
           && (hh <? 24) && (mm <? 60) && (ss <? 60)
        then Ok (time.Unix (daysFromCivil y m d * 86400 + hh * 3600
                            + mm * 60 + ss) 0)
        else bad
    | _, _, _, _, _, _ => bad
    end.

End speccloud.

Module examples.
Import strings cloudinitfile.

(** An instance of [yaml.Marshal] for the examples: the paths and the
    contents of the files to write, one per line. *)
Definition sampleMarshal (cfg : @CloudConfig unit) : result (list byte) :=
  Ok (bytes (fold_right (fun wf rest =>
                           "- " +:+ Path wf +:+ ": " +:+ Content wf
                           +:+ nl +:+ rest)
                        "" (WriteFiles cfg))).

(** A cloud-init file with one user file and the itzo version file. *)
Definition sampleFile : @File unit :=
  AddKipFile
    {| userData :=
         {| WriteFiles := [{| Content := "hello"; Path := "/etc/motd";
                              Owner := "root";
                              RawFilePermissions := "0644" |}];
            others := tt |};
       kipFiles := ∅ |}
    "v1.0.0" "/tmp/itzo/itzo_version" "0444".

End examples.

Module samples.
Import strings api v1 server specdeploy.

(** A path that holds a NUL byte: [a], the NUL byte, [b]. *)
Definition nulPath : string := String "a" (String tar.NUL "b").

(** The configmap of the first scenario of the specification. *)
Definition cm : ConfigMap :=
  {| cm_Namespace := "default"; cm_Name := "cm";
     cm_Data := {[ "a" := "A"; "b" := "B" ]};
     cm_BinaryData := {[ "c" := [x01; x02] ]} |}.

(** A configmap with a key in both maps. *)
Definition cmBoth : ConfigMap :=
  {| cm_Namespace := "default"; cm_Name := "both";
     cm_Data := {[ "a" := "A" ]};
     cm_BinaryData := {[ "a" := [x01; x02] ]} |}.

Definition sec : Secret :=
  {| sec_Namespace := "default"; sec_Name := "sec";
     sec_Data := {[ "token" := [x74; x6f; x6b] ]} |}.

(** A volume source that lists no items. *)
Definition allKeys : ConfigMapVolumeSource :=
  {| cmv_Name := "cm"; cmv_Items := []; cmv_DefaultMode := None;
     cmv_Optional := None |}.

(** The items of the second scenario: a remapped key and a missing key. *)
Definition remap : KeyToPath :=
  {| Key := "a"; Path := "x/y"; Mode := None |}.
Definition missing : KeyToPath :=
  {| Key := "missing"; Path := ""; Mode := None |}.

Definition selected (optional : bool) : ConfigMapVolumeSource :=
  {| cmv_Name := "cm"; cmv_Items := [remap; missing];
     cmv_DefaultMode := None; cmv_Optional := Some optional |}.

Definition selectedSecret (optional : bool) : SecretVolumeSource :=
  {| sv_SecretName := "sec";
     sv_Items := [{| Key := "token"; Path := ""; Mode := None |}; missing];
     sv_DefaultMode := None; sv_Optional := Some optional |}.

(** A pod with one optional configmap volume and one secret volume. *)
Definition volume (optional : bool) : Volume :=
  {| vol_Name := "config"; vol_ConfigMap := Some (selected optional);
     vol_Secret := None |}.

Definition secretVolume (optional : bool) : Volume :=
  {| vol_Name := "secret"; vol_ConfigMap := None;
     vol_Secret := Some (selectedSecret optional) |}.

Definition pod (optional : bool) : Pod :=
  {| pod_Name := "p"; pod_Namespace := "default";
     pod_Volumes := [volume optional] |}.

Definition secretPod (optional : bool) : Pod :=
  {| pod_Name := "p"; pod_Namespace := "default";
     pod_Volumes := [secretVolume optional] |}.

(** A resource manager that knows no object. *)
Definition notFound : error := StatusError true "not found".

Definition emptyManager : ResourceManager :=
  {| GetConfigMap := fun _ _ => Err notFound;
     GetSecret := fun _ _ => Err notFound |}.

(** A cell agent that accepts every package. *)
Definition agent : ItzoClient := {| Deploy := fun _ _ _ => None |}.

Definition dnsconf : DNSConfig :=
  {| Servers := ["1.1.1.1"; "8.8.8.8"];
     Searches := ["svc.cluster.local"];
     Options := ["ndots:5"] |}.

End samples.

Module specextra.
Import strings api v1 server.

(** [strings.HasPrefix(s, prefix)] *)
Fixpoint hasPrefix (s prefix : string) {struct prefix} : bool :=
  match prefix with
  | "" => true
  | String p prefix' =>
      match s with
      | "" => false
      | String c s' => Ascii.eqb c p && hasPrefix s' prefix'
      end
  end.

(** A path element that [Clean] does not drop: neither empty nor [.]. *)
Definition keptElem (e : string) : bool :=
  negb (String.eqb e "") && negb (String.eqb e ".").

(** An element that [Clean] may leave in a path: not empty, not [.], and
    without a separator. *)
Definition cleanElem (e : string) : bool :=
  keptElem e && negb (contains "/"%char e).

(** A volume that [deployPodVolumes] deploys: one with a configmap or a
    secret source. *)
Definition hasSource (vol : Volume) : bool :=
  match vol_ConfigMap vol, vol_Secret vol with
  | None, None => false
  | _, _ => true
  end.

(** The pod and the volume a [Deploy] call names. *)
Definition callTarget (c : deployCall) : string * string :=
  (dc_pod c, dc_volume c).

End specextra.

Module speccloudinit.
Import strings cloudinitfile.

(** Every kip file is stored under its own path and is owned by root. *)
Definition kipWellFormed {OtherFields : Type} (f : @File OtherFields) : Prop :=
  forall path wf,
    kipFiles f !! path = Some wf ->
    cloudinitfile.Path wf = path /\ Owner wf = "root".

End speccloudinit.

Module moresamples.
Import strings api v1 server specdeploy cloud.

(** A resource manager that knows the configmap and the secret of the
    samples. *)
Definition fullManager : ResourceManager :=
  {| GetConfigMap := fun _ _ => Ok samples.cm;
     GetSecret := fun _ _ => Ok samples.sec |}.

(** A pod with an emptyDir-like volume, an optional configmap volume and a
    secret volume that is not optional. *)
Definition plainVolume : Volume :=
  {| vol_Name := "scratch"; vol_ConfigMap := None; vol_Secret := None |}.

Definition mixedPod (secretOptional : bool) : Pod :=
  {| pod_Name := "p"; pod_Namespace := "default";
     pod_Volumes := [plainVolume; samples.volume true;
                     samples.secretVolume secretOptional] |}.

(** The candidate images of the fourth scenario of the specification. *)
Definition first : Image :=
  {| Id := "first"; Name := "kip-itzo-1-20240101-010000" |}.
Definition second : Image :=
  {| Id := "second"; Name := "kip-itzo-2-20230101-010000" |}.
Definition third : Image :=
  {| Id := "third"; Name := "kip-itzo-2-20240601-010000" |}.
Definition other : Image :=
  {| Id := "other"; Name := "kip-other-9-20250101-010000" |}.

Definition itzo : BootImageTags :=
  {| Company := ""; Product := "itzo"; Version := ""; Date := "";
     Time := "" |}.

End moresamples.

Module moreexamples.
Import strings cloudinitfile.

(** A stand-in for [semverRegex.MatchString] in the examples: it accepts
    the versions that start with a decimal digit. *)
Definition sampleSemver (version : string) : bool :=
  match version with
  | String c _ =>
      match strconv.digit c with
      | Some _ => true
      | None => false
      end
  | "" => false
  end.

(** A stand-in for [yaml.Marshal] on a map in the examples: one line per
    key, in the order of the keys. *)
Definition sampleMarshalMap (cfg : gmap string string) : result (list byte) :=
  Ok (bytes (fold_right (fun kv rest => kv.1 +:+ ": " +:+ kv.2 +:+ nl +:+ rest)
                        "" (map_to_list cfg))).

End moreexamples.

(** * Properties *)

(** ** Splitting and joining strings *)

Section SplitJoin.
Import strings.

Variable sep : ascii.

Lemma Split_not_nil (s : string) : Split s sep <> [].
Proof.
  induction s as [|a s IH]; simpl; [discriminate|].
  destruct (Ascii.eqb a sep); [discriminate|].
  destruct (Split s sep); discriminate.
Qed.

Lemma Split_no_sep (e : string) :
  contains sep e = false -> Split e sep = [e].
Proof.
  induction e as [|a e IH]; simpl; [reflexivity|].
  intros H. apply orb_false_iff in H as [Ha He].
  rewrite Ha, (IH He). reflexivity.
Qed.

Lemma Split_app_sep (e s : string) :
  contains sep e = false ->
  Split (e +:+ String sep s) sep = e :: Split s sep.
Proof.
  induction e as [|a e IH]; simpl; intros H.
  - rewrite Ascii.eqb_refl. reflexivity.
  - apply orb_false_iff in H as [Ha He].
    rewrite Ha, (IH He). reflexivity.
Qed.

Lemma Join_cons (e e' : string) (rest : list string) :
  Join (e :: e' :: rest) (String sep "")
  = e +:+ String sep (Join (e' :: rest) (String sep "")).
Proof. reflexivity. Qed.

(** Splitting what was joined gives the fields back, when no field holds
    the separator. *)
Lemma Split_Join (elems : list string) :
  elems <> [] ->
  Forall (fun e => contains sep e = false) elems ->
  Split (Join elems (String sep "")) sep = elems.
Proof.
  induction elems as [|e rest IH]; [congruence|].
  intros _ Hall. inversion Hall as [|? ? He Hrest]; subst.
  destruct rest as [|e' rest].
  - simpl. apply Split_no_sep, He.
  - rewrite Join_cons, Split_app_sep by exact He.
    f_equal. apply IH; [discriminate | exact Hrest].
Qed.

(** Joining the fields of a string gives the string back. *)
Lemma Join_Split (s : string) : Join (Split s sep) (String sep "") = s.
Proof.
  induction s as [|a s IH]; simpl; [reflexivity|].
  destruct (Ascii.eqb_spec a sep) as [->|Hne].
  - pose proof (Split_not_nil s) as Hnn.
    destruct (Split s sep) as [|w ws] eqn:E; [congruence|].
    simpl in *. rewrite IH. reflexivity.
  - destruct (Split s sep) as [|w ws] eqn:E.
    + exfalso. eapply Split_not_nil, E.
    + destruct ws as [|w' ws]; simpl in *; rewrite <- IH; reflexivity.
Qed.

(** No field of a split holds the separator. *)
Lemma Split_fields (s : string) :
  Forall (fun e => contains sep e = false) (Split s sep).
Proof.
  induction s as [|a s IH]; simpl.
  - constructor; [reflexivity | constructor].
  - destruct (Ascii.eqb a sep) eqn:Ea.
    + constructor; [reflexivity | exact IH].
    + destruct (Split s sep) as [|w ws]; inversion IH; subst;
        constructor; simpl; try rewrite Ea; auto.
Qed.

End SplitJoin.

(** ** Boot image tags *)

Section BootImageTags.
Import strings cloud speccloud.

Lemma String_Join (bit : BootImageTags) :
  String_ bit = Join (fields bit) "-".
Proof. reflexivity. Qed.

Lemma Set_five (bit0 : BootImageTags) (s c p v d t : string) :
  Split s "-"%char = [c; p; v; d; t] ->
  Set_ bit0 s
  = {| Company := c; Product := p; Version := v; Date := d; Time := t |}.
Proof. intros E. unfold Set_. rewrite E. reflexivity. Qed.

(** C6, as the claim states it, fails: a field that holds a hyphen is split
    in two by [Set], and every later field moves one place. *)
Lemma C6_counterexample :
  let bit := {| Company := "a-b"; Product := "itzo"; Version := "1";
                Date := "20240101"; Time := "010000" |} in
  allSet bit /\ Set_ noTags (String_ bit) <> bit.
Proof.
  split.
  - repeat constructor; discriminate.
  - vm_compute. discriminate.
Qed.

(** C6 (amended): for every tuple none of whose five fields holds a hyphen,
    [Set] on the string produced by [String] gives the tuple back, whatever
    the receiver held before. *)
Theorem C6_Set_String_roundtrip (bit0 bit : BootImageTags) :
  hyphenFree bit -> Set_ bit0 (String_ bit) = bit.
Proof.
  intros Hfree. destruct bit as [c p v d t].
  apply Set_five. rewrite String_Join.
  apply (Split_Join "-"%char); [discriminate | exact Hfree].
Qed.

Lemma C6_Set_String_roundtrip_witness :
  let bit := {| Company := "elotl"; Product := "itzo"; Version := "107";
                Date := "20240601"; Time := "010000" |} in
  hyphenFree bit /\ Set_ noTags (String_ bit) = bit.
Proof.
  split.
  - repeat constructor.
  - apply (C6_Set_String_roundtrip noTags
             {| Company := "elotl"; Product := "itzo"; Version := "107";
                Date := "20240601"; Time := "010000" |}).
    repeat constructor.
Defined.

End BootImageTags.

(** ** The tar writer *)

Section TarWriter.
Import strings api v1 server specdeploy.

Lemma bytes_app (a b : string) : bytes (a +:+ b) = (bytes a ++ bytes b)%list.
Proof.
  unfold bytes, list_byte_of_string.
  induction a as [|c a IH]; simpl; [reflexivity|].
  f_equal. exact IH.
Qed.

Lemma append_cons (x : ascii) (a b : string) :
  String x a +:+ b = String x (a +:+ b).
Proof. reflexivity. Qed.

Lemma append_assoc (a b c : string) : (a +:+ b) +:+ c = a +:+ (b +:+ c).
Proof.
  induction a as [|x a IH]; [reflexivity|].
  rewrite !append_cons. f_equal. exact IH.
Qed.

Lemma append_empty_r (a : string) : a +:+ "" = a.
Proof.
  induction a as [|x a IH]; [reflexivity|].
  rewrite append_cons. f_equal. exact IH.
Qed.

Lemma len_append (a b : string) : tar.len (a +:+ b) = tar.len a + tar.len b.
Proof.
  unfold tar.len. induction a as [|c a IH].
  - change ("" +:+ b) with b. cbn [String.length]. lia.
  - rewrite append_cons. cbn [String.length]. rewrite !Nat2Z.inj_succ. lia.
Qed.

Lemma len_nonneg (s : string) : 0 <= tar.len s.
Proof. unfold tar.len. lia. Qed.

Lemma digits_len (fuel : nat) :
  forall n : Z, tar.len (tar.digits fuel n) <= Z.of_nat fuel.
Proof.
  induction fuel as [|fuel IH]; intros n; cbn [tar.digits].
  - unfold tar.len. cbn [String.length]. lia.
  - cbv zeta. destruct (n <? 10).
    + unfold tar.len. cbn [String.length]. lia.
    + rewrite len_append. specialize (IH (n / 10)).
      unfold tar.len at 2. cbn [String.length]. lia.
Qed.

Lemma Itoa_len (n : Z) : tar.len (tar.Itoa n) <= 21.
Proof.
  unfold tar.Itoa. destruct (n <? 0).
  - rewrite len_append. pose proof (digits_len 20 (- n)).
    unfold tar.len at 1. cbn [String.length]. lia.
  - pose proof (digits_len 20 n). lia.
Qed.

Lemma formatPAXRecord_len (k v : string) :
  tar.validPAXRecord k v = true ->
  exists rec, tar.formatPAXRecord k v = Ok rec
              /\ tar.len rec <= tar.len k + tar.len v + 24.
Proof.
  intros Hvalid. unfold tar.formatPAXRecord. rewrite Hvalid.
  cbn [negb]. cbv zeta.
  assert (Hrec : forall n,
             tar.len (tar.Itoa n +:+ " " +:+ k +:+ "=" +:+ v +:+ nl)
             <= tar.len k + tar.len v + 24).
  { intros n. rewrite !len_append. pose proof (Itoa_len n).
    change (tar.len " ") with 1. change (tar.len "=") with 1.
    change (tar.len nl) with 1. lia. }
  destruct (negb _); eexists; (split; [reflexivity | apply Hrec]).
Qed.

Lemma paxData_len (paxHdrs : list (string * string)) :
  forallb (fun kv => tar.validPAXRecord kv.1 kv.2) paxHdrs = true ->
  exists data, tar.paxData paxHdrs = Ok data
               /\ tar.len data <= paxWeight paxHdrs.
Proof.
  induction paxHdrs as [|[k v] rest IH]; cbn [forallb tar.paxData]; intros H.
  - exists "". split; [reflexivity|]. unfold paxWeight, tar.len. simpl. lia.
  - apply andb_true_iff in H as [Hkv Hrest].
    destruct (formatPAXRecord_len k v Hkv) as (rec & -> & Hrec).
    destruct (IH Hrest) as (data & -> & Hdata).
    exists (rec +:+ data). split; [reflexivity|].
    rewrite len_append. unfold paxWeight in *. cbn [fold_right fst snd]. lia.
Qed.

Lemma paxWeight_app (l1 l2 : list (string * string)) :
  paxWeight (l1 ++ l2)%list = paxWeight l1 + paxWeight l2.
Proof.
  unfold paxWeight. induction l1 as [|kv l1 IH]; cbn [app fold_right]; lia.
Qed.

Lemma paxNumeric_weight (size : Z) (key : string) (n : Z) :
  tar.len key <= 4 -> 0 <= paxWeight (tar.paxNumeric size key n) <= 49.
Proof.
  intros Hkey. unfold tar.paxNumeric.
  destruct (tar.fitsInOctal size n).
  - unfold paxWeight. simpl. lia.
  - unfold paxWeight. cbn [fold_right fst snd].
    pose proof (Itoa_len n). pose proof (len_nonneg key).
    pose proof (len_nonneg (tar.Itoa n)). lia.
Qed.

Lemma hasNUL_isASCII (s : string) :
  tar.hasNUL s = true -> tar.isASCII s = false.
Proof.
  unfold tar.hasNUL. induction s as [|c s IH]; cbn [contains tar.isASCII].
  - discriminate.
  - intros H. apply orb_true_iff in H as [Hc|Hs].
    + apply Ascii.eqb_eq in Hc. subst c. reflexivity.
    + rewrite (IH Hs). apply andb_false_r.
Qed.

(** A header of a regular file with a name free of NUL bytes that is not
    too long, a mode of 57 bits and no owner is accepted: the GNU format
    holds it, and the PAX format, when it is the one chosen, needs a small
    block of records. *)
Lemma encodeHeader_ok (hdr : tar.Header) :
  tar.hasNUL (tar.Name hdr) = false ->
  tar.hasSuffix "/" (tar.Name hdr) = false ->
  tar.len (tar.Name hdr) <= 1000100 ->
  - 2 ^ 56 <= tar.Mode hdr < 2 ^ 56 ->
  0 <= tar.Size hdr ->
  tar.Typeflag hdr = tar.TypeReg ->
  tar.Uid hdr = 0 ->
  tar.Gid hdr = 0 ->
  tar.encodeHeader hdr = Ok tt.
Proof.
  destruct hdr as [name mode size t uid gid].
  cbn [tar.Name tar.Mode tar.Size tar.Typeflag tar.Uid tar.Gid].
  intros Hnul Hsuf Hlen Hmode Hsize -> -> ->.
  unfold tar.encodeHeader, tar.allowedFormats.
  cbn [tar.Name tar.Mode tar.Size tar.Typeflag tar.Uid tar.Gid].
  rewrite Hnul, Hsuf, andb_false_r.
  change (Ascii.eqb tar.TypeReg "x" || Ascii.eqb tar.TypeReg "L"
          || Ascii.eqb tar.TypeReg "K") with false.
  change (Ascii.eqb tar.TypeReg "g") with false.
  destruct (Z.ltb_spec size 0) as [?|_]; [lia|].
  assert (Hgnu : tar.fitsInBase256 8 mode = true).
  { unfold tar.fitsInBase256. change ((8 - 1) * 8) with 56.
    apply orb_true_iff. right. apply andb_true_iff.
    split; [apply Z.leb_le | apply Z.ltb_lt]; lia. }
  rewrite Hgnu.
  change (tar.fitsInBase256 8 0) with true.
  change (tar.fitsInBase256 12 size) with true.
  change (tar.paxNumeric 8 "gid" 0) with (@nil (string * string)).
  change (tar.paxNumeric 8 "uid" 0) with (@nil (string * string)).
  cbn [negb andb app tar.FormatUSTAR tar.FormatPAX tar.FormatGNU].
  rewrite !orb_true_r. cbn [negb].
  destruct (_ && _); [reflexivity|].
  destruct (tar.fitsInOctal 8 mode && _) eqn:Hpax; [|reflexivity].
  apply andb_true_iff in Hpax as [_ Hvalid].
  unfold tar.writePAXHeader. destruct (0 <? _); [|reflexivity].
  destruct (paxData_len _ Hvalid) as (data & -> & Hdata).
  cbn [mbind result_bind].
  rewrite app_nil_r, paxWeight_app in Hdata.
  pose proof (paxNumeric_weight 12 "size" size) as Hs.
  assert (Hp : paxWeight (if negb (tar.isASCII name) || (tar.nameSize <? tar.len name)
                          then [("path", name)] else []) <= tar.len name + 28).
  { destruct (_ || _); unfold paxWeight; cbn [fold_right fst snd].
    - change (tar.len "path") with 4. lia.
    - pose proof (len_nonneg name). lia. }
  destruct (Z.ltb_spec tar.maxSpecialFileSize (tar.len data)) as [Hbig|_];
    [|reflexivity].
  change tar.maxSpecialFileSize with 1048576 in Hbig.
  change (tar.len "size") with 4 in Hs. lia.
Qed.

(** A header whose name holds a NUL byte is refused: no format encodes
    it. *)
Lemma encodeHeader_NUL (hdr : tar.Header) :
  tar.hasNUL (tar.Name hdr) = true ->
  exists e, tar.encodeHeader hdr = Err e.
Proof.
  intros Hnul. unfold tar.encodeHeader, tar.allowedFormats.
  destruct (_ && tar.hasSuffix "/" (tar.Name hdr)); [eexists; reflexivity|].
  destruct (_ || _ || _); [eexists; reflexivity|].
  destruct (Ascii.eqb (tar.Typeflag hdr) "g"); [eexists; reflexivity|].
  destruct (tar.Size hdr <? 0); [eexists; reflexivity|].
  cbv zeta. cbn [tar.FormatUSTAR tar.FormatPAX tar.FormatGNU].
  rewrite Hnul, (hasNUL_isASCII _ Hnul). cbn [negb orb andb].
  unfold tar.splitUSTARPath at 1.
  rewrite (hasNUL_isASCII _ Hnul). cbn [negb]. rewrite orb_true_r.
  rewrite !forallb_app. cbn [forallb fst snd].
  replace (tar.validPAXRecord "path" (tar.Name hdr)) with false
    by (unfold tar.validPAXRecord; cbn; rewrite Hnul; reflexivity).
  cbn [andb]. rewrite !andb_false_r. cbn [negb orb].
  eexists. reflexivity.
Qed.

Lemma Flush_complete (tw : tar.Writer) :
  complete tw ->
  tar.Flush tw = Ok {| tar.entries := flushed tw; tar.curr := None |}.
Proof.
  unfold complete, flushed, tar.Flush. destruct tw as [es [[hdr body]|]]; simpl.
  - intros ->. rewrite Z.sub_diag. reflexivity.
  - intros _. rewrite app_nil_r. reflexivity.
Qed.

(** One turn of the loop of [makeDeployPackage]: the header and the bytes
    of one file. *)
Lemma writeFile_complete (path : string) (file : packageFile)
    (tw : tar.Writer) :
  complete tw ->
  (tw1 ← tar.WriteHeader (fileHeader path file) tw; tar.Write (data file) tw1)
  = match tar.encodeHeader (fileHeader path file) with
    | Ok _ => Ok {| tar.entries := flushed tw;
                    tar.curr := Some (fileHeader path file, data file) |}
    | Err e => Err e
    end.
Proof.
  intros Hc. unfold tar.WriteHeader. rewrite (Flush_complete tw Hc).
  cbn [mbind result_bind].
  destruct (tar.encodeHeader (fileHeader path file)) as [u|e]; [|reflexivity].
  cbn [mbind result_bind]. unfold tar.Write. simpl.
  rewrite Z.sub_0_r, Z.ltb_irrefl. reflexivity.
Qed.

(** Writing package files whose headers are accepted does not fail, and
    adds one record per file. *)
Lemma writeFiles_complete (contents : list (string * packageFile)) :
  Forall (fun pf => encodable (fileHeader pf.1 pf.2)) contents ->
  forall tw : tar.Writer,
    complete tw ->
    exists tw', writeFiles contents tw = Ok tw'
                /\ complete tw'
                /\ flushed tw' = (flushed tw ++ map packEntry contents)%list.
Proof.
  induction 1 as [|[path file] contents Henc _ IH]; intros tw Hc.
  - exists tw. simpl. rewrite app_nil_r. auto.
  - cbn [writeFiles].
    change (writeFiles contents) with (fun tw2 => writeFiles contents tw2).
    pose proof (writeFile_complete path file tw Hc) as Hstep.
    unfold encodable in Henc. cbn [fst snd] in Henc. rewrite Henc in Hstep.
    set (tw2 := {| tar.entries := flushed tw;
                   tar.curr := Some (fileHeader path file, data file) |}) in *.
    destruct (IH tw2) as (tw' & Hw & Hc' & Hf); [reflexivity|].
    exists tw'. split.
    { revert Hstep. unfold tar.WriteHeader.
      destruct (tar.Flush tw) as [tw0|e]; cbn [mbind result_bind];
        [|discriminate].
      destruct (tar.encodeHeader (fileHeader path file)) as [u|e];
        cbn [mbind result_bind]; [|discriminate].
      intros ->. exact Hw. }
    split; [exact Hc'|].
    rewrite Hf. unfold tw2, flushed at 1. simpl.
    rewrite <- app_assoc. reflexivity.
Qed.

(** Writing stops with an error at the first file whose header is
    refused. *)
Lemma writeFiles_fails (contents : list (string * packageFile)) :
  Exists (fun pf => ~ encodable (fileHeader pf.1 pf.2)) contents ->
  forall tw : tar.Writer,
    complete tw ->
    exists e, writeFiles contents tw = Err e.
Proof.
  induction contents as [|[path file] contents IH]; intros Hex tw Hc.
  - inversion Hex.
  - cbn [writeFiles]. unfold tar.WriteHeader.
    rewrite (Flush_complete tw Hc). cbn [mbind result_bind].
    destruct (tar.encodeHeader (fileHeader path file)) as [[]|e] eqn:Henc;
      cbn [mbind result_bind]; [|eexists; reflexivity].
    unfold tar.Write. simpl. rewrite Z.sub_0_r, Z.ltb_irrefl.
    cbn [mbind result_bind].
    apply IH; [|reflexivity].
    inversion Hex as [? ? Hhd|? ? Htl]; subst; [|exact Htl].
    exfalso. apply Hhd. exact Henc.
Qed.

End TarWriter.

Section Package.
Import strings api v1 server specdeploy.

Context (range : forall V : Type, gmap string V -> list (string * V)).
Context (range_perm :
  forall (V : Type) (m : gmap string V), range V m ≡ₚ map_to_list m).

(** When the header of every file is accepted, [makeDeployPackage]
    succeeds: the stream holds the records of the files in the order
    [range] gave them. *)
Lemma makeDeployPackage_records (contents : gmap string packageFile) :
  Forall (fun pf => encodable (fileHeader pf.1 pf.2)) (range _ contents) ->
  makeDeployPackage range contents
  = Ok (gzip.Compressed (map packEntry (range _ contents))).
Proof.
  intros Henc. unfold makeDeployPackage.
  destruct (writeFiles_complete (range _ contents) Henc tar.NewWriter)
    as (tw & Hw & Hc & Hf); [exact I|].
  rewrite Hw. simpl. unfold tar.Close. rewrite (Flush_complete tw Hc). simpl.
  rewrite Hf. reflexivity.
Qed.

(** When the header of some file is refused, [makeDeployPackage] fails. *)
Lemma makeDeployPackage_fails (contents : gmap string packageFile) :
  Exists (fun pf => ~ encodable (fileHeader pf.1 pf.2)) (range _ contents) ->
  exists e, makeDeployPackage range contents = Err e.
Proof.
  intros Hex. unfold makeDeployPackage.
  destruct (writeFiles_fails (range _ contents) Hex tar.NewWriter)
    as (e & ->); [exact I|].
  exists e. reflexivity.
Qed.

Lemma range_singleton (V : Type) (k : string) (v : V) :
  range V {[ k := v ]} = [(k, v)].
Proof.
  apply Permutation_length_1_inv. symmetry.
  rewrite <- (map_to_list_singleton (M := gmap string) k v).
  apply range_perm.
Qed.

(** The package of a single file whose header is accepted. *)
Lemma makeDeployPackage_singleton (path : string) (file : packageFile) :
  encodable (fileHeader path file) ->
  makeDeployPackage range {[ path := file ]}
  = Ok (gzip.Compressed [(fileHeader path file, data file)]).
Proof.
  intros Henc.
  rewrite makeDeployPackage_records; rewrite (range_singleton packageFile).
  - reflexivity.
  - constructor; [exact Henc | constructor].
Qed.

(** The header of a file stored at [kubeconfig/kubeconfig] with mode 0600
    is accepted, whatever the bytes. *)
Lemma kubeconfig_encodable (d : list byte) :
  encodable (fileHeader "kubeconfig/kubeconfig"
               {| data := d; mode := octal 6 0 0 |}).
Proof.
  apply encodeHeader_ok; try reflexivity.
  - vm_compute. discriminate.
  - vm_compute. split; [discriminate | reflexivity].
  - cbn [fileHeader tar.Size data]. unfold tar.Z_length. lia.
Qed.

(** The header of a file stored at [/etc/resolv.conf] with mode 0644 is
    accepted, whatever the bytes. *)
Lemma resolvconf_encodable (text : list byte) :
  encodable (fileHeader "/etc/resolv.conf"
               {| data := text; mode := octal 6 4 4 |}).
Proof.
  apply encodeHeader_ok; try reflexivity.
  - vm_compute. discriminate.
  - vm_compute. split; [discriminate | reflexivity].
  - cbn [fileHeader tar.Size data]. unfold tar.Z_length. lia.
Qed.

End Package.

(** ** resolv.conf *)

Section Resolvconf.
Import strings api v1 server specdeploy.

Lemma writeServers_lines (podName : string) (servers : list string) :
  forall buf : list byte,
    writeServers podName servers buf
    = Ok (buf ++ bytes (fold_right
                          (fun ip rest => "nameserver " +:+ ip +:+ nl +:+ rest)
                          "" servers))%list.
Proof.
  induction servers as [|srv servers IH]; intros buf; simpl.
  - rewrite app_nil_r. reflexivity.
  - rewrite IH, <- app_assoc, <- bytes_app, !append_assoc. reflexivity.
Qed.

(** [createResolvconf] never fails and returns the text of the
    specification. *)
Lemma createResolvconf_text (podName : string) (dnsconf : DNSConfig) :
  createResolvconf podName dnsconf = Ok (bytes (resolvconfText dnsconf)).
Proof.
  unfold createResolvconf, resolvconfText. rewrite writeServers_lines.
  simpl app. rewrite !bytes_app.
  destruct (Searches dnsconf) as [|s ss], (Options dnsconf) as [|o os];
    cbn [List.length Nat.ltb Nat.leb WriteString];
    rewrite ?app_nil_r, ?bytes_app, <- ?app_assoc; reflexivity.
Qed.

(** C5: for every DNS config [createResolvconf] returns the bytes of one
    [nameserver] line per server in order, then the [search] line iff there
    are searches, then the [options] line iff there are options; the literal
    scenario of the specification gives the literal text; and
    [deployResolvconf] packs the one file [/etc/resolv.conf] with that
    content and mode 0644, and hands the cell agent, under the volume name
    [resolvconf], that package: a single tar entry, the regular file
    [ROOTFS/etc/resolv.conf] with mode 0644, owner 0, the length of the text
    as size and the text as body. *)
Theorem C5_createResolvconf
    (range : forall V : Type, gmap string V -> list (string * V))
    (range_perm :
      forall (V : Type) (m : gmap string V), range V m ≡ₚ map_to_list m)
    (K8sPod : Type) (milpaToK8sPod : Pod -> result K8sPod) :
  (forall (podName : string) (dnsconf : DNSConfig),
      createResolvconf podName dnsconf = Ok (bytes (resolvconfText dnsconf)))
  /\ (forall podName : string,
        createResolvconf podName
          {| Servers := ["1.1.1.1"; "8.8.8.8"];
             Searches := ["svc.cluster.local"];
             Options := ["ndots:5"] |}
        = Ok (bytes ("nameserver 1.1.1.1" +:+ nl +:+ "nameserver 8.8.8.8"
                     +:+ nl +:+ "search svc.cluster.local" +:+ nl
                     +:+ "options ndots:5" +:+ nl)))
  /\ (forall (pod : Pod) (GetPodDNS : K8sPod -> result DNSConfig)
             (client : ItzoClient) (k8spod : K8sPod) (dnsconf : DNSConfig),
        milpaToK8sPod pod = Ok k8spod ->
        GetPodDNS k8spod = Ok dnsconf ->
        let text := bytes (resolvconfText dnsconf) in
        let payload : Buffer :=
          gzip.Compressed
            [({| tar.Name := "ROOTFS/etc/resolv.conf";
                 tar.Mode := octal 6 4 4;
                 tar.Size := Z.of_nat (List.length text);
                 tar.Typeflag := tar.TypeReg;
                 tar.Uid := 0; tar.Gid := 0 |}, text)] in
        makeDeployPackage range
          {[ "/etc/resolv.conf" :=
               {| data := text; mode := octal 6 4 4 |} ]} = Ok payload
        /\ (deployResolvconf range milpaToK8sPod pod (Some GetPodDNS)
              client).2
           = [{| dc_pod := pod_Name pod; dc_volume := "resolvconf";
                 dc_payload := payload |}]).
Proof.
  split; [exact createResolvconf_text|].
  split; [intros podName; rewrite createResolvconf_text; reflexivity|].
  intros pod GetPodDNS client k8spod dnsconf Hpod Hdns text payload.
  assert (Hpack : makeDeployPackage range
                    {[ "/etc/resolv.conf" :=
                         {| data := text; mode := octal 6 4 4 |} ]}
                  = Ok payload).
  { apply (makeDeployPackage_singleton range range_perm),
      resolvconf_encodable. }
  split; [exact Hpack|].
  unfold deployResolvconf.
  rewrite Hpod, Hdns, createResolvconf_text. fold text. rewrite Hpack.
  destruct (Deploy client _ _ _); reflexivity.
Qed.

(** C9: for a DNS config with no nameservers, no searches and no options,
    [createResolvconf] succeeds and returns the empty content. *)
Theorem C9_createResolvconf_empty (podName : string) :
  createResolvconf podName {| Servers := []; Searches := []; Options := [] |}
  = Ok [].
Proof. reflexivity. Qed.

End Resolvconf.

(** ** Projection of configmaps and secrets *)

Section Project.
Import strings api v1 server specdeploy.

Context (lookup : string -> option (list byte)) (defaultMode : Z).

Lemma project_cons (item : KeyToPath) (items : list KeyToPath)
    (acc : gmap string packageFile) :
  project lookup defaultMode (item :: items) acc
  = project lookup defaultMode items
      match lookup (Key item) with
      | Some d => putItem defaultMode item d acc
      | None => acc
      end.
Proof. reflexivity. Qed.

Lemma firstMissing_cons (item : KeyToPath) (items : list KeyToPath) :
  firstMissing lookup (item :: items)
  = match lookup (Key item) with
    | Some _ => firstMissing lookup items
    | None => Some item
    end.
Proof.
  unfold firstMissing. simpl. destruct (lookup (Key item)); reflexivity.
Qed.

Lemma project_app (pre post : list KeyToPath)
    (acc : gmap string packageFile) :
  project lookup defaultMode (pre ++ post) acc
  = project lookup defaultMode post (project lookup defaultMode pre acc).
Proof. apply fold_left_app. Qed.

(** An item without a value leaves no trace. *)
Lemma project_skip (pre post : list KeyToPath) (item : KeyToPath)
    (acc : gmap string packageFile) :
  lookup (Key item) = None ->
  project lookup defaultMode (pre ++ item :: post) acc
  = project lookup defaultMode (pre ++ post) acc.
Proof.
  intros Hnone. rewrite !project_app, project_cons, Hnone. reflexivity.
Qed.

(** Items that store elsewhere leave a path as it was. *)
Lemma project_other (items : list KeyToPath) (path : string) :
  forall acc : gmap string packageFile,
    (forall it, In it items -> lookup (Key it) <> None ->
                archivePath it <> path) ->
    project lookup defaultMode items acc !! path = acc !! path.
Proof.
  induction items as [|it items IH]; intros acc Hother; [reflexivity|].
  rewrite project_cons.
  rewrite IH by (intros; apply Hother; [right|]; assumption).
  destruct (lookup (Key it)) as [d|] eqn:E; [|reflexivity].
  unfold putItem. apply lookup_insert_ne.
  apply Hother; [left; reflexivity | congruence].
Qed.

(** The last item that stores at a path decides the file there. *)
Lemma project_last (pre post : list KeyToPath) (item : KeyToPath)
    (d : list byte) (acc : gmap string packageFile) :
  lookup (Key item) = Some d ->
  (forall it, In it post -> lookup (Key it) <> None ->
              archivePath it <> archivePath item) ->
  project lookup defaultMode (pre ++ item :: post) acc !! archivePath item
  = Some {| data := d; mode := itemMode defaultMode item |}.
Proof.
  intros Hd Hpost. rewrite project_app, project_cons, Hd.
  rewrite project_other by exact Hpost.
  unfold putItem. apply lookup_insert_eq.
Qed.

(** A path that holds a file keeps holding one. *)
Lemma project_mono (items : list KeyToPath) (path : string) :
  forall acc : gmap string packageFile,
    is_Some (acc !! path) ->
    is_Some (project lookup defaultMode items acc !! path).
Proof.
  induction items as [|it items IH]; intros acc Hsome; [exact Hsome|].
  rewrite project_cons. apply IH.
  destruct (lookup (Key it)) as [d|]; [|exact Hsome].
  unfold putItem. apply lookup_insert_is_Some.
  destruct (decide (archivePath it = path)); auto.
Qed.

(** Every item with a value has a file at its path. *)
Lemma project_present (items : list KeyToPath) (item : KeyToPath) :
  forall acc : gmap string packageFile,
    In item items -> lookup (Key item) <> None ->
    is_Some (project lookup defaultMode items acc !! archivePath item).
Proof.
  induction items as [|it items IH]; intros acc Hin Hsome; [destruct Hin|].
  rewrite project_cons. destruct Hin as [->|Hin]; [|apply IH; assumption].
  apply project_mono.
  destruct (lookup (Key item)) as [d|]; [|congruence].
  unfold putItem. rewrite lookup_insert_eq. eauto.
Qed.

(** When all the items that store at a path store the same file there, the
    path holds that file as soon as one item stores at it. *)
Lemma project_agree (items : list KeyToPath) (path : string)
    (f : packageFile) :
  (forall it d, In it items -> lookup (Key it) = Some d ->
                archivePath it = path ->
                {| data := d; mode := itemMode defaultMode it |} = f) ->
  forall acc : gmap string packageFile,
    acc !! path = Some f
    \/ (exists it, In it items /\ lookup (Key it) <> None
                   /\ archivePath it = path) ->
    project lookup defaultMode items acc !! path = Some f.
Proof.
  induction items as [|it items IH]; intros Hagree acc Hw.
  - destruct Hw as [Hacc|(it & [] & _)]. exact Hacc.
  - rewrite project_cons. apply IH.
    { intros it' d Hin. apply Hagree. right. exact Hin. }
    destruct (lookup (Key it)) as [d|] eqn:E.
    + destruct (decide (archivePath it = path)) as [Hp|Hp].
      * left. unfold putItem. rewrite Hp, lookup_insert_eq. f_equal.
        apply (Hagree it d); [left; reflexivity | exact E | exact Hp].
      * destruct Hw as [Hacc|(w & [<-|Hin] & Hv & Hpw)].
        -- left. unfold putItem. rewrite lookup_insert_ne; assumption.
        -- contradiction.
        -- right. exists w. auto.
    + destruct Hw as [Hacc|(w & [<-|Hin] & Hv & Hpw)].
      * left. exact Hacc.
      * congruence.
      * right. exists w. auto.
Qed.

Lemma firstMissing_none (items : list KeyToPath) :
  (forall it, In it items -> lookup (Key it) <> None) ->
  firstMissing lookup items = None.
Proof.
  induction items as [|it items IH]; intros Hall; [reflexivity|].
  rewrite firstMissing_cons.
  destruct (lookup (Key it)) eqn:E.
  - apply IH. intros it' Hin. apply Hall. right. exact Hin.
  - exfalso. apply (Hall it); [left; reflexivity | exact E].
Qed.

Lemma firstMissing_some (items : list KeyToPath) (item : KeyToPath) :
  In item items -> lookup (Key item) = None ->
  exists item', firstMissing lookup items = Some item'
                /\ In item' items /\ lookup (Key item') = None.
Proof.
  induction items as [|it items IH]; intros Hin Hnone; [destruct Hin|].
  rewrite firstMissing_cons.
  destruct (lookup (Key it)) eqn:E.
  - destruct Hin as [->|Hin]; [congruence|].
    destruct (IH Hin Hnone) as (item' & Hf & Hin' & Hn').
    exists item'. split; [exact Hf|]. split; [right; exact Hin' | exact Hn'].
  - exists it. split; [reflexivity|]. split; [left; reflexivity | exact E].
Qed.

End Project.

Section Projection.
Import strings api v1 server specdeploy.

Lemma configMapItems_project (cmVol : ConfigMapVolumeSource) (cm : ConfigMap)
    (defaultMode : Z) (optional : bool) (items : list KeyToPath) :
  forall packageItems : gmap string packageFile,
    configMapItems cmVol cm defaultMode optional items packageItems
    = match (if optional then None
             else firstMissing (configMapValue cm) items) with
      | Some item =>
          Err (missingKeyError (cmv_Name cmVol) (cm_Namespace cm) (cm_Name cm)
                 (Key item))
      | None => Ok (project (configMapValue cm) defaultMode items packageItems)
      end.
Proof.
  induction items as [|item items IH]; intros acc.
  - destruct optional; reflexivity.
  - rewrite project_cons, firstMissing_cons. cbn [configMapItems].
    assert (Hv : configMapValue cm (Key item)
                 = match cm_Data cm !! Key item with
                   | Some s => Some (bytes s)
                   | None => cm_BinaryData cm !! Key item
                   end) by reflexivity.
    revert Hv.
    destruct (cm_Data cm !! Key item) as [s|].
    + intros ->. rewrite IH. destruct optional; reflexivity.
    + destruct (cm_BinaryData cm !! Key item) as [b|]; intros ->.
      * rewrite IH. destruct optional; reflexivity.
      * destruct optional; [rewrite IH|]; reflexivity.
Qed.

Lemma secretItems_project (secVol : SecretVolumeSource) (sec : Secret)
    (defaultMode : Z) (optional : bool) (items : list KeyToPath) :
  forall packageItems : gmap string packageFile,
    secretItems secVol sec defaultMode optional items packageItems
    = match (if optional then None
             else firstMissing (secretValue sec) items) with
      | Some item =>
          Err (missingKeyError (sv_SecretName secVol) (sec_Namespace sec)
                 (sec_Name sec) (Key item))
      | None => Ok (project (secretValue sec) defaultMode items packageItems)
      end.
Proof.
  induction items as [|item items IH]; intros acc.
  - destruct optional; reflexivity.
  - rewrite project_cons, firstMissing_cons. cbn [secretItems].
    assert (Hv : secretValue sec (Key item) = sec_Data sec !! Key item)
      by reflexivity.
    revert Hv.
    destruct (sec_Data sec !! Key item) as [b|]; intros ->.
    + rewrite IH. destruct optional; reflexivity.
    + destruct optional; [rewrite IH|]; reflexivity.
Qed.

End Projection.

Section AllKeys.
Import strings api v1 server specdeploy.

Context (range : forall V : Type, gmap string V -> list (string * V)).
Context (range_perm :
  forall (V : Type) (m : gmap string V), range V m ≡ₚ map_to_list m).

Lemma range_In (V : Type) (m : gmap string V) (k : string) (v : V) :
  In (k, v) (range V m) <-> m !! k = Some v.
Proof.
  rewrite <- elem_of_map_to_list, list_elem_of_In.
  split; apply Permutation_in; [|symmetry]; apply range_perm.
Qed.

Lemma keyItems_In (V : Type) (m : gmap string V) (it : KeyToPath) :
  In it (map (fun kv => keyItem kv.1) (range V m))
  <-> exists k, it = keyItem k /\ is_Some (m !! k).
Proof.
  rewrite in_map_iff. split.
  - intros ([k v] & <- & Hin). exists k. split; [reflexivity|].
    exists v. apply range_In, Hin.
  - intros (k & -> & v & Hv). exists (k, v). split; [reflexivity|].
    apply range_In, Hv.
Qed.

Lemma configMapValue_Some (cm : ConfigMap) (k : string) :
  configMapValue cm k <> None
  <-> is_Some (cm_Data cm !! k) \/ is_Some (cm_BinaryData cm !! k).
Proof.
  unfold configMapValue. destruct (cm_Data cm !! k) as [s|].
  - split; [eauto | discriminate].
  - split.
    + intros H. right. apply not_eq_None_Some, H.
    + intros [[x Hx]|H]; [discriminate Hx|].
      apply not_eq_None_Some, H.
Qed.

(** With no items listed, the files are the values of all the keys. *)
Lemma getConfigMapFiles_all (cmVol : ConfigMapVolumeSource) (cm : ConfigMap) :
  cmv_Items cmVol = [] ->
  exists files,
    getConfigMapFiles range cmVol cm = Ok files
    /\ forall k,
         files !! k
         = (fun d => {| data := d;
                        mode := modeOrDefault (cmv_DefaultMode cmVol) |})
             <$> configMapValue cm k.
Proof.
  intros HItems. unfold getConfigMapFiles. rewrite HItems.
  cbn [List.length Nat.eqb].
  change (match cmv_DefaultMode cmVol with
          | Some m => m
          | None => defaultVolumeFileMode
          end) with (modeOrDefault (cmv_DefaultMode cmVol)).
  set (items := (map (fun kv => keyItem kv.1) (range _ (cm_Data cm))
                 ++ map (fun kv => keyItem kv.1)
                        (range _ (cm_BinaryData cm)))%list).
  assert (Hitems : forall it, In it items <->
            exists k, it = keyItem k /\ configMapValue cm k <> None).
  { intros it. unfold items. rewrite in_app_iff, !keyItems_In.
    setoid_rewrite configMapValue_Some. split.
    - intros [(k & -> & H)|(k & -> & H)]; exists k; auto.
    - intros (k & -> & [H|H]); [left|right]; exists k; auto. }
  rewrite configMapItems_project.
  rewrite firstMissing_none.
  2:{ intros it Hin. apply Hitems in Hin as (k & -> & Hk). exact Hk. }
  eexists. split; [destruct (match cmv_Optional cmVol with
                             | Some b => b | None => false end);
                   reflexivity|].
  intros k. destruct (configMapValue cm k) as [d|] eqn:Ev; simpl.
  - apply project_agree.
    + intros it d' Hin Hd' Hp. apply Hitems in Hin as (k' & -> & _).
      cbn in Hp, Hd'. subst k'. rewrite Ev in Hd'. injection Hd' as <-.
      reflexivity.
    + right. exists (keyItem k). split; [|split; [|reflexivity]].
      * apply Hitems. exists k. split; [reflexivity | congruence].
      * cbn. congruence.
  - rewrite project_other; [apply lookup_empty|].
    intros it Hin Hv Hp. apply Hitems in Hin as (k' & -> & _).
    cbn in Hp, Hv. subst k'. contradiction.
Qed.

End AllKeys.

Section ProjectionClaims.
Import strings api v1 server specdeploy.

Context (range : forall V : Type, gmap string V -> list (string * V)).

Lemma getConfigMapFiles_items (cmVol : ConfigMapVolumeSource) (cm : ConfigMap)
    (item : KeyToPath) (pre post : list KeyToPath) :
  cmv_Items cmVol = (pre ++ item :: post)%list ->
  getConfigMapFiles range cmVol cm
  = configMapItems cmVol cm (modeOrDefault (cmv_DefaultMode cmVol))
      (isOptional (cmv_Optional cmVol)) (pre ++ item :: post) ∅.
Proof.
  intros HItems. unfold getConfigMapFiles. rewrite HItems.
  destruct pre; reflexivity.
Qed.

Lemma getSecretFiles_items (secVol : SecretVolumeSource) (sec : Secret)
    (item : KeyToPath) (pre post : list KeyToPath) :
  sv_Items secVol = (pre ++ item :: post)%list ->
  getSecretFiles range secVol sec
  = secretItems secVol sec (modeOrDefault (sv_DefaultMode secVol))
      (isOptional (sv_Optional secVol)) (pre ++ item :: post) ∅.
Proof.
  intros HItems. unfold getSecretFiles. rewrite HItems.
  destruct pre; reflexivity.
Qed.

(** C2: an item of a configmap or secret volume source whose key the source
    object does not have is skipped when the source is marked optional, the
    other items being projected as if it were not listed, without error;
    otherwise the projection fails with a missing-key error and gives no
    file map. *)
Theorem C2_missing_key :
  (forall (cmVol : ConfigMapVolumeSource) (cm : ConfigMap)
          (pre post : list KeyToPath) (item : KeyToPath),
      cmv_Items cmVol = (pre ++ item :: post)%list ->
      cm_Data cm !! Key item = None ->
      cm_BinaryData cm !! Key item = None ->
      if isOptional (cmv_Optional cmVol)
      then exists files,
             getConfigMapFiles range cmVol cm = Ok files
             /\ configMapItems cmVol cm
                  (modeOrDefault (cmv_DefaultMode cmVol)) true
                  (pre ++ post) ∅ = Ok files
             /\ forall it, In it (pre ++ post) ->
                           configMapValue cm (Key it) <> None ->
                           is_Some (files !! archivePath it)
      else exists item',
             In item' (cmv_Items cmVol)
             /\ configMapValue cm (Key item') = None
             /\ getConfigMapFiles range cmVol cm
                = Err (missingKeyError (cmv_Name cmVol) (cm_Namespace cm)
                         (cm_Name cm) (Key item')))
  /\ (forall (secVol : SecretVolumeSource) (sec : Secret)
             (pre post : list KeyToPath) (item : KeyToPath),
        sv_Items secVol = (pre ++ item :: post)%list ->
        sec_Data sec !! Key item = None ->
        if isOptional (sv_Optional secVol)
        then exists files,
               getSecretFiles range secVol sec = Ok files
               /\ secretItems secVol sec
                    (modeOrDefault (sv_DefaultMode secVol)) true
                    (pre ++ post) ∅ = Ok files
               /\ forall it, In it (pre ++ post) ->
                             secretValue sec (Key it) <> None ->
                             is_Some (files !! archivePath it)
        else exists item',
               In item' (sv_Items secVol)
               /\ secretValue sec (Key item') = None
               /\ getSecretFiles range secVol sec
                  = Err (missingKeyError (sv_SecretName secVol)
                           (sec_Namespace sec) (sec_Name sec) (Key item'))).
Proof.
  split.
  - intros cmVol cm pre post item HItems Hd Hb.
    assert (Hnone : configMapValue cm (Key item) = None)
      by (unfold configMapValue; rewrite Hd; exact Hb).
    rewrite (getConfigMapFiles_items _ _ _ _ _ HItems), HItems.
    rewrite !configMapItems_project.
    destruct (isOptional (cmv_Optional cmVol)).
    + eexists. split; [reflexivity|]. rewrite project_skip by exact Hnone.
      split; [reflexivity|]. intros it Hin Hv.
      apply project_present; assumption.
    + destruct (firstMissing_some (configMapValue cm)
                  (pre ++ item :: post) item) as (item' & -> & Hin & Hn);
        [apply in_elt | exact Hnone |].
      exists item'. auto.
  - intros secVol sec pre post item HItems Hd.
    assert (Hnone : secretValue sec (Key item) = None) by exact Hd.
    rewrite (getSecretFiles_items _ _ _ _ _ HItems), HItems.
    rewrite !secretItems_project.
    destruct (isOptional (sv_Optional secVol)).
    + eexists. split; [reflexivity|]. rewrite project_skip by exact Hnone.
      split; [reflexivity|]. intros it Hin Hv.
      apply project_present; assumption.
    + destruct (firstMissing_some (secretValue sec)
                  (pre ++ item :: post) item) as (item' & -> & Hin & Hn);
        [apply in_elt | exact Hnone |].
      exists item'. auto.
Qed.

Lemma configMapValue_insert_binary (cm : ConfigMap) (k : string)
    (b : list byte) (k' : string) :
  cm_Data cm !! k <> None ->
  configMapValue {| cm_Namespace := cm_Namespace cm; cm_Name := cm_Name cm;
                    cm_Data := cm_Data cm;
                    cm_BinaryData := <[k := b]> (cm_BinaryData cm) |} k'
  = configMapValue cm k'.
Proof.
  intros Hk. unfold configMapValue. simpl.
  destruct (cm_Data cm !! k') as [s|] eqn:E; [reflexivity|].
  apply lookup_insert_ne. congruence.
Qed.

Lemma project_ext (lookup lookup' : string -> option (list byte))
    (defaultMode : Z) (items : list KeyToPath) :
  (forall k, lookup k = lookup' k) ->
  forall acc : gmap string packageFile,
    project lookup defaultMode items acc
    = project lookup' defaultMode items acc.
Proof.
  intros Hext. induction items as [|it items IH]; intros acc; [reflexivity|].
  rewrite !project_cons, Hext. apply IH.
Qed.

Lemma firstMissing_ext (lookup lookup' : string -> option (list byte))
    (items : list KeyToPath) :
  (forall k, lookup k = lookup' k) ->
  firstMissing lookup items = firstMissing lookup' items.
Proof.
  intros Hext. induction items as [|it items IH]; [reflexivity|].
  rewrite !firstMissing_cons, Hext, IH. reflexivity.
Qed.

End ProjectionClaims.

Section ConfigMapClaims.
Import strings api v1 server specdeploy.

Context (range : forall V : Type, gmap string V -> list (string * V)).
Context (range_perm :
  forall (V : Type) (m : gmap string V), range V m ≡ₚ map_to_list m).

(** C1: for every configmap volume source with an empty [Items] list,
    [getConfigMapFiles] returns exactly one package file per key in the
    union of [Data] and [BinaryData]: the file is stored at the key, holds
    the value of the key, and has mode [DefaultMode] when that is not nil
    and 0644 otherwise. *)
Theorem C1_getConfigMapFiles_all_keys
    (cmVol : ConfigMapVolumeSource) (cm : ConfigMap) :
  cmv_Items cmVol = [] ->
  exists files,
    getConfigMapFiles range cmVol cm = Ok files
    /\ dom files = dom (cm_Data cm) ∪ dom (cm_BinaryData cm)
    /\ (forall k s,
          cm_Data cm !! k = Some s ->
          files !! k
          = Some {| data := bytes s;
                    mode := modeOrDefault (cmv_DefaultMode cmVol) |})
    /\ (forall k b,
          cm_Data cm !! k = None ->
          cm_BinaryData cm !! k = Some b ->
          files !! k
          = Some {| data := b;
                    mode := modeOrDefault (cmv_DefaultMode cmVol) |}).
Proof.
  intros HItems.
  destruct (getConfigMapFiles_all range range_perm cmVol cm HItems)
    as (files & Hget & Hfiles).
  exists files. split; [exact Hget|]. split; [|split].
  - apply set_eq. intros k.
    rewrite elem_of_union, !elem_of_dom, Hfiles, fmap_is_Some.
    rewrite <- not_eq_None_Some. apply configMapValue_Some.
  - intros k s Hs. rewrite Hfiles. unfold configMapValue. rewrite Hs.
    reflexivity.
  - intros k b Hd Hb. rewrite Hfiles. unfold configMapValue.
    rewrite Hd, Hb. reflexivity.
Qed.

(** C10: in [getConfigMapFiles], an item whose key is present in both
    [Data] and [BinaryData] gets the string value of [Data] as its
    contents, whether the items are listed or taken from the keys; and
    what [BinaryData] holds for a key of [Data] has no effect on the
    projection of any list of items. *)
Theorem C10_data_before_binary
    (cmVol : ConfigMapVolumeSource) (cm : ConfigMap) :
  (forall (pre post : list KeyToPath) (item : KeyToPath) (s : string)
          (b : list byte) (files : gmap string packageFile),
      cmv_Items cmVol = (pre ++ item :: post)%list ->
      cm_Data cm !! Key item = Some s ->
      cm_BinaryData cm !! Key item = Some b ->
      (forall it, In it post -> configMapValue cm (Key it) <> None ->
                  archivePath it <> archivePath item) ->
      getConfigMapFiles range cmVol cm = Ok files ->
      files !! archivePath item
      = Some {| data := bytes s;
                mode := itemMode (modeOrDefault (cmv_DefaultMode cmVol))
                          item |})
  /\ (forall (k s : string) (b : list byte),
        cmv_Items cmVol = [] ->
        cm_Data cm !! k = Some s ->
        cm_BinaryData cm !! k = Some b ->
        exists files,
          getConfigMapFiles range cmVol cm = Ok files
          /\ files !! k
             = Some {| data := bytes s;
                       mode := modeOrDefault (cmv_DefaultMode cmVol) |})
  /\ (forall (k s : string) (b' : list byte) (defaultMode : Z)
             (optional : bool) (items : list KeyToPath)
             (packageItems : gmap string packageFile),
        cm_Data cm !! k = Some s ->
        configMapItems cmVol
          {| cm_Namespace := cm_Namespace cm; cm_Name := cm_Name cm;
             cm_Data := cm_Data cm;
             cm_BinaryData := <[k := b']> (cm_BinaryData cm) |}
          defaultMode optional items packageItems
        = configMapItems cmVol cm defaultMode optional items packageItems).
Proof.
  split; [|split].
  - intros pre post item s b files HItems Hs _ Hpost Hget.
    rewrite (getConfigMapFiles_items _ _ _ _ _ _ HItems) in Hget.
    rewrite configMapItems_project in Hget.
    destruct (if isOptional (cmv_Optional cmVol) then None
              else firstMissing (configMapValue cm) (pre ++ item :: post))
      as [missing|]; [discriminate|].
    injection Hget as <-. apply project_last; [|exact Hpost].
    unfold configMapValue. rewrite Hs. reflexivity.
  - intros k s b HItems Hs _.
    destruct (getConfigMapFiles_all range range_perm cmVol cm HItems)
      as (files & Hget & Hfiles).
    exists files. split; [exact Hget|]. rewrite Hfiles.
    unfold configMapValue. rewrite Hs. reflexivity.
  - intros k s b' defaultMode optional items packageItems Hs.
    rewrite !configMapItems_project. cbn [cm_Namespace cm_Name].
    assert (Hext : forall k',
              configMapValue
                {| cm_Namespace := cm_Namespace cm; cm_Name := cm_Name cm;
                   cm_Data := cm_Data cm;
                   cm_BinaryData := <[k := b']> (cm_BinaryData cm) |} k'
              = configMapValue cm k').
    { intros k'. apply configMapValue_insert_binary. congruence. }
    rewrite (firstMissing_ext _ _ items Hext).
    rewrite (project_ext _ _ defaultMode items Hext). reflexivity.
Qed.

End ConfigMapClaims.

(** ** The deploy package *)

Section CleanPaths.
Import strings api v1 server specdeploy specextra.

Lemma cleanElems_plain (rooted : bool) (elems : list string) :
  Forall (fun e => plainElem e = true) elems ->
  forall out, filepath.cleanElems rooted elems out = (rev elems ++ out)%list.
Proof.
  induction 1 as [|e elems He _ IH]; intros out; [reflexivity|].
  unfold plainElem in He.
  apply andb_true_iff in He as [He Hdd].
  apply andb_true_iff in He as [Hempty Hdot].
  apply negb_true_iff in Hempty, Hdot, Hdd.
  cbn [filepath.cleanElems]. rewrite Hempty, Hdot, Hdd, IH.
  cbn [rev]. rewrite <- app_assoc. reflexivity.
Qed.

(** Under [./ROOTFS], a plain path keeps its spelling and loses the leading
    [./]. *)
Lemma Join_ROOTFS_plain (path : string) :
  plainPath path ->
  filepath.Join ["."; "ROOTFS"; path] = "ROOTFS/" +:+ path.
Proof.
  intros Hplain.
  change (filepath.Join ["."; "ROOTFS"; path])
    with (let out :=
            Join (rev (filepath.cleanElems false
                         (Split ("." +:+ String "/"
                                   ("ROOTFS" +:+ String "/" path)) "/"%char)
                         [])) "/" in
          if String.eqb out "" then "." else out).
  rewrite !Split_app_sep by reflexivity.
  change (filepath.cleanElems false ("." :: "ROOTFS" :: Split path "/") [])
    with (filepath.cleanElems false (Split path "/") ["ROOTFS"]).
  rewrite (cleanElems_plain false _ Hplain).
  rewrite rev_app_distr, rev_involutive. cbn [rev app].
  pose proof (Split_not_nil "/"%char path) as Hnn.
  pose proof (Join_Split "/"%char path) as HJ.
  destruct (Split path "/") as [|e es]; [congruence|].
  change (Join ("ROOTFS" :: e :: es) "/")
    with ("ROOTFS/" +:+ Join (e :: es) "/").
  rewrite HJ. reflexivity.
Qed.

Lemma cleanElems_kept (rooted : bool) (elems : list string) :
  Forall (fun e => e <> "..") elems ->
  forall out,
    filepath.cleanElems rooted elems out
    = (rev (List.filter keptElem elems) ++ out)%list.
Proof.
  induction 1 as [|e elems He _ IH]; intros out; [reflexivity|].
  cbn [filepath.cleanElems List.filter]. unfold keptElem at 1.
  destruct (String.eqb_spec e "") as [->|Hempty]; [apply IH|].
  destruct (String.eqb_spec e ".") as [->|Hdot]; [apply IH|].
  destruct (String.eqb_spec e "..") as [->|_]; [congruence|].
  rewrite IH. cbn [negb andb rev]. rewrite <- app_assoc. reflexivity.
Qed.

Lemma Join_ROOTFS_unfold (path : string) :
  filepath.Join ["."; "ROOTFS"; path]
  = (let out :=
       Join (rev (filepath.cleanElems false (Split path "/"%char) ["ROOTFS"]))
            "/" in
     if String.eqb out "" then "." else out).
Proof.
  change (filepath.Join ["."; "ROOTFS"; path])
    with (let out :=
            Join (rev (filepath.cleanElems false
                         (Split ("." +:+ String "/"
                                   ("ROOTFS" +:+ String "/" path)) "/"%char)
                         [])) "/" in
          if String.eqb out "" then "." else out).
  rewrite !Split_app_sep by reflexivity. reflexivity.
Qed.

Lemma cleanElem_inv (e : string) :
  cleanElem e = true ->
  exists c e', e = String c e' /\ c <> "/"%char
               /\ (c = "."%char ->
                   exists c2 e2, e' = String c2 e2 /\ c2 <> "/"%char).
Proof.
  unfold cleanElem, keptElem. intros H.
  apply andb_true_iff in H as [H Hslash].
  apply andb_true_iff in H as [Hempty Hdot].
  apply negb_true_iff in Hempty, Hdot, Hslash.
  destruct e as [|c e']; [discriminate|].
  exists c, e'. split; [reflexivity|].
  cbn [contains] in Hslash. apply orb_false_iff in Hslash as [Hc He'].
  split; [intros ->; discriminate|].
  intros ->. destruct e' as [|c2 e2]; [discriminate|].
  exists c2, e2. split; [reflexivity|].
  cbn [contains] in He'. apply orb_false_iff in He' as [Hc2 _].
  intros ->. discriminate.
Qed.

Lemma cleanElems_clean (rooted : bool) (elems : list string) :
  Forall (fun e => contains "/"%char e = false) elems ->
  forall out,
    Forall (fun e => cleanElem e = true) out ->
    Forall (fun e => cleanElem e = true)
           (filepath.cleanElems rooted elems out).
Proof.
  induction 1 as [|e elems He _ IH]; intros out Hout; [exact Hout|].
  cbn [filepath.cleanElems].
  destruct (String.eqb_spec e "") as [->|Hempty]; [apply IH, Hout|].
  destruct (String.eqb_spec e ".") as [->|Hdot]; [apply IH, Hout|].
  destruct (String.eqb_spec e "..") as [->|Hdd].
  - destruct out as [|top out'].
    + destruct rooted; cbn [negb]; apply IH; repeat constructor.
    + inversion Hout; subst.
      destruct (negb (String.eqb top "..")); [apply IH; assumption|].
      destruct rooted; cbn [negb]; apply IH;
        [exact Hout | constructor; [reflexivity | exact Hout]].
  - apply IH. constructor; [|exact Hout].
    unfold cleanElem, keptElem.
    apply String.eqb_neq in Hempty, Hdot. rewrite Hempty, Hdot, He.
    reflexivity.
Qed.

(** *** The name of an entry, from the bytes of its path *)

Lemma contains_append (c : ascii) (a b : string) :
  contains c (a +:+ b) = contains c a || contains c b.
Proof.
  induction a as [|x a IH]; [reflexivity|].
  rewrite append_cons. cbn [contains]. rewrite IH, orb_assoc. reflexivity.
Qed.

Lemma Split_contains (c sep : ascii) (s : string) :
  contains c s = false ->
  Forall (fun e => contains c e = false) (Split s sep).
Proof.
  induction s as [|a s IH]; cbn [contains Split]; intros H.
  - repeat constructor.
  - apply orb_false_iff in H as [Ha Hs]. specialize (IH Hs).
    destruct (Ascii.eqb a sep).
    + constructor; [reflexivity | exact IH].
    + destruct (Split s sep) as [|w ws]; [repeat constructor; cbn; rewrite Ha; reflexivity|].
      inversion IH; subst. constructor; [|assumption].
      cbn [contains]. rewrite Ha. assumption.
Qed.

Lemma Join_contains (c : ascii) (elems : list string) :
  c <> "/"%char ->
  Forall (fun e => contains c e = false) elems ->
  contains c (Join elems "/") = false.
Proof.
  intros Hc. induction 1 as [|e rest He Hrest IH]; [reflexivity|].
  destruct rest as [|e2 rest]; [exact He|].
  change (Join (e :: e2 :: rest) "/")
    with (e +:+ "/" +:+ Join (e2 :: rest) "/").
  rewrite !contains_append, He, IH. cbn [contains orb].
  apply Ascii.eqb_neq in Hc. rewrite Ascii.eqb_sym, Hc. reflexivity.
Qed.

Lemma cleanElems_Forall (P : string -> Prop) (rooted : bool)
    (elems : list string) :
  P ".." ->
  Forall P elems ->
  forall out, Forall P out -> Forall P (filepath.cleanElems rooted elems out).
Proof.
  intros Hdd. induction 1 as [|e elems He _ IH]; intros out Hout; [exact Hout|].
  cbn [filepath.cleanElems].
  destruct (String.eqb e ""); [apply IH, Hout|].
  destruct (String.eqb e "."); [apply IH, Hout|].
  destruct (String.eqb e "..").
  - destruct out as [|top out'].
    + destruct rooted; cbn [negb]; apply IH; repeat constructor; exact Hdd.
    + inversion Hout; subst.
      destruct (negb (String.eqb top "..")); [apply IH; assumption|].
      destruct rooted; cbn [negb]; apply IH;
        [exact Hout | constructor; [exact Hdd | exact Hout]].
  - apply IH. constructor; assumption.
Qed.

(** A path free of NUL bytes gives a name free of NUL bytes. *)
Lemma Join_ROOTFS_NUL (path : string) :
  tar.hasNUL path = false ->
  tar.hasNUL (filepath.Join ["."; "ROOTFS"; path]) = false.
Proof.
  intros Hnul. rewrite Join_ROOTFS_unfold. cbv zeta.
  assert (Hout : tar.hasNUL
                   (Join (rev (filepath.cleanElems false (Split path "/"%char)
                                 ["ROOTFS"])) "/") = false).
  { apply Join_contains; [discriminate|].
    apply Forall_rev, cleanElems_Forall.
    - reflexivity.
    - apply Split_contains, Hnul.
    - repeat constructor. }
  destruct (String.eqb _ ""); [reflexivity | exact Hout].
Qed.

Lemma pathWeight_app (l1 l2 : list string) :
  pathWeight (l1 ++ l2)%list = pathWeight l1 + pathWeight l2.
Proof.
  unfold pathWeight. induction l1 as [|e l1 IH]; cbn [app fold_right]; lia.
Qed.

Lemma pathWeight_rev (l : list string) : pathWeight (rev l) = pathWeight l.
Proof.
  induction l as [|e l IH]; [reflexivity|].
  cbn [rev]. rewrite pathWeight_app, IH. unfold pathWeight.
  cbn [fold_right]. lia.
Qed.

Lemma pathWeight_nonneg (l : list string) : 0 <= pathWeight l.
Proof.
  unfold pathWeight. induction l as [|e l IH]; cbn [fold_right]; [lia|].
  pose proof (len_nonneg e). lia.
Qed.

Lemma Split_weight (sep : ascii) (s : string) :
  pathWeight (Split s sep) = tar.len s + 1.
Proof.
  unfold pathWeight, tar.len. induction s as [|a s IH]; [reflexivity|].
  cbn [Split String.length]. rewrite Nat2Z.inj_succ.
  destruct (Ascii.eqb a sep).
  - cbn [fold_right String.length]. lia.
  - pose proof (Split_not_nil sep s) as Hnn.
    destruct (Split s sep) as [|w ws]; [congruence|].
    cbn [fold_right String.length] in *. rewrite Nat2Z.inj_succ. lia.
Qed.

Lemma cleanElems_weight (rooted : bool) (elems : list string) :
  forall out,
    pathWeight (filepath.cleanElems rooted elems out)
    <= pathWeight elems + pathWeight out.
Proof.
  induction elems as [|e elems IH]; intros out; [unfold pathWeight; simpl; lia|].
  cbn [filepath.cleanElems].
  assert (He : pathWeight (e :: elems) = tar.len e + 1 + pathWeight elems)
    by reflexivity.
  pose proof (len_nonneg e) as Hlen.
  destruct (String.eqb_spec e ""); [specialize (IH out); lia|].
  destruct (String.eqb_spec e "."); [specialize (IH out); lia|].
  destruct (String.eqb_spec e "..") as [->|_].
  - change (tar.len "..") with 2 in He.
    destruct out as [|top out'].
    + destruct rooted; cbn [negb];
        [specialize (IH []) | specialize (IH [".."])];
        unfold pathWeight in *; cbn [fold_right] in *;
        change (tar.len "..") with 2 in *; lia.
    + assert (Ht : pathWeight (top :: out')
                   = tar.len top + 1 + pathWeight out') by reflexivity.
      pose proof (len_nonneg top).
      destruct (negb (String.eqb top "..")); [specialize (IH out'); lia|].
      destruct rooted; cbn [negb];
        [specialize (IH (top :: out')); lia|].
      specialize (IH (".." :: top :: out')).
      assert (pathWeight (".." :: top :: out')
              = 3 + pathWeight (top :: out')) by reflexivity.
      lia.
  - specialize (IH (e :: out)).
    assert (pathWeight (e :: out) = tar.len e + 1 + pathWeight out)
      by reflexivity.
    lia.
Qed.

Lemma Join_len (elems : list string) :
  tar.len (Join elems "/") <= pathWeight elems.
Proof.
  induction elems as [|e rest IH]; [unfold pathWeight, tar.len; simpl; lia|].
  assert (He : pathWeight (e :: rest) = tar.len e + 1 + pathWeight rest)
    by reflexivity.
  destruct rest as [|e2 rest].
  - cbn [Join]. unfold pathWeight in *. cbn [fold_right] in *. lia.
  - change (Join (e :: e2 :: rest) "/")
      with (e +:+ "/" +:+ Join (e2 :: rest) "/").
    rewrite !len_append. change (tar.len "/") with 1. lia.
Qed.

(** The name is at most eight bytes longer than the path. *)
Lemma Join_ROOTFS_len (path : string) :
  tar.len (filepath.Join ["."; "ROOTFS"; path]) <= tar.len path + 8.
Proof.
  rewrite Join_ROOTFS_unfold. cbv zeta.
  pose proof (Join_len (rev (filepath.cleanElems false (Split path "/"%char)
                               ["ROOTFS"]))) as Hj.
  rewrite pathWeight_rev in Hj.
  pose proof (cleanElems_weight false (Split path "/"%char) ["ROOTFS"]) as Hc.
  rewrite Split_weight in Hc.
  change (pathWeight ["ROOTFS"]) with 7 in Hc.
  pose proof (len_nonneg path).
  destruct (String.eqb _ ""); [change (tar.len ".") with 1; lia | lia].
Qed.

Lemma hasSuffix_contains (c : ascii) (e : string) :
  contains c e = false -> tar.hasSuffix c e = false.
Proof.
  induction e as [|a e IH]; [reflexivity|].
  cbn [contains tar.hasSuffix]. intros H.
  apply orb_false_iff in H as [Ha He].
  destruct e; [exact Ha | exact (IH He)].
Qed.

Lemma hasSuffix_append (c : ascii) (a b : string) :
  b <> "" -> tar.hasSuffix c (a +:+ b) = tar.hasSuffix c b.
Proof.
  intros Hb. induction a as [|x a IH]; [reflexivity|].
  rewrite append_cons. cbn [tar.hasSuffix]. rewrite IH.
  destruct (a +:+ b) eqn:E; [|reflexivity].
  destruct a; [|discriminate]. exfalso. apply Hb. exact E.
Qed.

Lemma Join_clean_suffix (elems : list string) :
  Forall (fun e => cleanElem e = true) elems ->
  tar.hasSuffix "/" (Join elems "/") = false.
Proof.
  induction 1 as [|e rest He Hrest IH]; [reflexivity|].
  assert (Hslash : contains "/"%char e = false).
  { unfold cleanElem in He. apply andb_true_iff in He as [_ He].
    apply negb_true_iff in He. exact He. }
  destruct rest as [|e2 rest]; [apply hasSuffix_contains, Hslash|].
  change (Join (e :: e2 :: rest) "/")
    with (e +:+ "/" +:+ Join (e2 :: rest) "/").
  rewrite hasSuffix_append by discriminate.
  inversion Hrest as [|? ? He2 _]; subst.
  apply cleanElem_inv in He2 as (c & e' & -> & _).
  assert (Hhead : exists tail, Join (String c e' :: rest) "/" = String c tail).
  { destruct rest as [|e3 rest]; [exists e'; reflexivity|].
    exists (e' +:+ "/" +:+ Join (e3 :: rest) "/"). reflexivity. }
  destruct Hhead as (tail & Hhead). rewrite Hhead in *.
  rewrite append_cons. exact IH.
Qed.

(** The name does not end with a slash. *)
Lemma Join_ROOTFS_suffix (path : string) :
  tar.hasSuffix "/" (filepath.Join ["."; "ROOTFS"; path]) = false.
Proof.
  rewrite Join_ROOTFS_unfold. cbv zeta.
  assert (Hclean : Forall (fun e => cleanElem e = true)
                     (rev (filepath.cleanElems false (Split path "/"%char)
                             ["ROOTFS"]))).
  { apply Forall_rev, cleanElems_clean.
    - apply (Split_fields "/"%char).
    - repeat constructor. }
  destruct (String.eqb _ ""); [reflexivity | apply Join_clean_suffix, Hclean].
Qed.

(** The header of a file is accepted when its path is free of NUL bytes
    and at most a million bytes long, and its mode is an [int32]. *)
Lemma fileHeader_encodable (path : string) (file : packageFile) :
  tar.hasNUL path = false ->
  tar.len path <= 1000000 ->
  int32 (mode file) ->
  encodable (fileHeader path file).
Proof.
  intros Hnul Hlen Hmode. apply encodeHeader_ok; try reflexivity;
    cbn [fileHeader tar.Name tar.Mode tar.Size].
  - apply Join_ROOTFS_NUL, Hnul.
  - apply Join_ROOTFS_suffix.
  - pose proof (Join_ROOTFS_len path). lia.
  - unfold int32 in Hmode. lia.
  - unfold tar.Z_length. lia.
Qed.

(** The header of a file whose name holds a NUL byte is refused. *)
Lemma fileHeader_refused (path : string) (file : packageFile) :
  tar.hasNUL (tar.Name (fileHeader path file)) = true ->
  ~ encodable (fileHeader path file).
Proof.
  intros Hnul Henc. destruct (encodeHeader_NUL _ Hnul) as (e & He).
  unfold encodable in Henc. congruence.
Qed.

Lemma filter_contains (c : ascii) (elems : list string) :
  c <> "."%char ->
  Exists (fun e => contains c e = true) elems ->
  Exists (fun e => contains c e = true) (List.filter keptElem elems).
Proof.
  intros Hc. induction 1 as [e rest He|e rest _ IH]; cbn [List.filter].
  - assert (Hk : keptElem e = true).
    { unfold keptElem.
      destruct (String.eqb_spec e "") as [->|_]; [discriminate|].
      destruct (String.eqb_spec e ".") as [->|_]; [|reflexivity].
      cbn [contains] in He. apply Ascii.eqb_neq in Hc.
      rewrite Ascii.eqb_sym, Hc in He. discriminate. }
    rewrite Hk. left. exact He.
  - destruct (keptElem e); [right|]; exact IH.
Qed.

Lemma Split_contains_true (c sep : ascii) (s : string) :
  c <> sep ->
  contains c s = true ->
  Exists (fun e => contains c e = true) (Split s sep).
Proof.
  intros Hc. induction s as [|a s IH]; cbn [contains Split]; [discriminate|].
  intros H. destruct (Ascii.eqb_spec a sep) as [->|Hsep].
  - apply Ascii.eqb_neq in Hc. rewrite Ascii.eqb_sym, Hc in H. right.
    apply IH, H.
  - pose proof (Split_not_nil sep s) as Hnn.
    destruct (Split s sep) as [|w ws]; [congruence|].
    apply orb_true_iff in H as [Ha|Hs].
    + left. cbn [contains]. rewrite Ha. reflexivity.
    + specialize (IH Hs). inversion IH as [? ? Hw|? ? Hws]; subst.
      * left. cbn [contains]. rewrite Hw. apply orb_true_r.
      * right. exact Hws.
Qed.

Lemma Join_contains_true (c : ascii) (elems : list string) :
  Exists (fun e => contains c e = true) elems ->
  contains c (Join elems "/") = true.
Proof.
  induction 1 as [e rest He|e rest Hrest IH].
  - destruct rest as [|e2 rest]; [exact He|].
    change (Join (e :: e2 :: rest) "/")
      with (e +:+ "/" +:+ Join (e2 :: rest) "/").
    rewrite contains_append, He. reflexivity.
  - destruct rest as [|e2 rest]; [inversion Hrest|].
    change (Join (e :: e2 :: rest) "/")
      with (e +:+ "/" +:+ Join (e2 :: rest) "/").
    rewrite !contains_append, IH. rewrite !orb_true_r. reflexivity.
Qed.

(** A NUL byte of a path without a [..] element reaches the name. *)
Lemma Join_ROOTFS_keeps_NUL (path : string) :
  Forall (fun e => e <> "..") (Split path "/"%char) ->
  tar.hasNUL path = true ->
  tar.hasNUL (filepath.Join ["."; "ROOTFS"; path]) = true.
Proof.
  intros Hdd Hnul.
  rewrite Join_ROOTFS_unfold, (cleanElems_kept false _ Hdd).
  rewrite rev_app_distr, rev_involutive. cbn [rev app]. cbv zeta.
  assert (Hout : tar.hasNUL
                   (Join ("ROOTFS" :: List.filter keptElem (Split path "/"%char))
                         "/") = true).
  { apply Join_contains_true. right.
    apply filter_contains; [discriminate|].
    apply Split_contains_true; [discriminate | exact Hnul]. }
  destruct (String.eqb_spec
              (Join ("ROOTFS" :: List.filter keptElem (Split path "/"%char)) "/")
              "") as [E|_]; [|exact Hout].
  rewrite E in Hout. discriminate.
Qed.

End CleanPaths.

Section PackageClaims.
Import strings api v1 server specdeploy.

(** C3, as the claim states it, fails: [filepath.Join] cleans the joined
    path, so the name of an entry never keeps the leading [./]; the file
    stored at [a] is written under the name [ROOTFS/a]. *)
Lemma C3_counterexample :
  let file := {| data := bytes "A"; mode := octal 6 4 4 |} in
  exists hdr body,
    makeDeployPackage rangeList {[ "a" := file ]}
    = Ok (gzip.Compressed [(hdr, body)])
    /\ tar.Name hdr = "ROOTFS/a"
    /\ tar.Name hdr <> "./ROOTFS/" +:+ "a".
Proof.
  intros file. exists (fileHeader "a" file), (data file).
  split; [reflexivity|]. split; [reflexivity|].
  vm_compute. discriminate.
Qed.

Context (range : forall V : Type, gmap string V -> list (string * V)).
Context (range_perm :
  forall (V : Type) (m : gmap string V), range V m ≡ₚ map_to_list m).

Lemma packable_range (contents : gmap string packageFile) :
  packable contents ->
  Forall (fun pf => encodable (fileHeader pf.1 pf.2)) (range _ contents).
Proof.
  intros Hpack. apply List.Forall_forall. intros [path file] Hin.
  apply (range_In range range_perm) in Hin. exact (Hpack path file Hin).
Qed.

Lemma refused_range (contents : gmap string packageFile) (path : string)
    (file : packageFile) :
  contents !! path = Some file ->
  ~ encodable (fileHeader path file) ->
  Exists (fun pf => ~ encodable (fileHeader pf.1 pf.2)) (range _ contents).
Proof.
  intros Hlook Hbad. apply List.Exists_exists. exists (path, file).
  split; [apply (range_In range range_perm), Hlook | exact Hbad].
Qed.

(** C3 (amended): for every map from paths to package files whose headers
    the tar writer accepts, [makeDeployPackage] produces a gzip-compressed
    tar archive with one entry per map entry; an entry has uid and gid 0,
    the typeflag of a regular file, the mode of its file, the exact length
    of the bytes as size and the bytes as body, and its name is
    [filepath.Join(".", "ROOTFS", path)], the cleaned path, which is
    [ROOTFS/<path>] for a path of plain elements.  When the writer refuses
    the header of some entry, [makeDeployPackage] returns an error and no
    archive.  The writer accepts the header of every file whose path is
    free of NUL bytes and at most a million bytes long and whose mode is an
    [int32]; it refuses a header whose name holds a NUL byte, which is the
    case when the path holds one and has no [..] element. *)
Theorem C3_makeDeployPackage (contents : gmap string packageFile) :
  (packable contents ->
   exists archive : list tar.entry,
     makeDeployPackage range contents = Ok (gzip.Compressed archive)
     /\ archive ≡ₚ map packEntry (map_to_list contents)
     /\ List.length archive = size contents
     /\ (forall hdr body,
           In (hdr, body) archive <->
           exists path file,
             contents !! path = Some file
             /\ hdr = {| tar.Name := filepath.Join ["."; "ROOTFS"; path];
                         tar.Mode := mode file;
                         tar.Size := Z.of_nat (List.length (data file));
                         tar.Typeflag := tar.TypeReg;
                         tar.Uid := 0;
                         tar.Gid := 0 |}
             /\ body = data file))
  /\ (forall path file,
        contents !! path = Some file ->
        ~ encodable (fileHeader path file) ->
        exists e, makeDeployPackage range contents = Err e)
  /\ (forall path file,
        tar.hasNUL path = false ->
        tar.len path <= 1000000 ->
        int32 (mode file) ->
        encodable (fileHeader path file))
  /\ (forall path file,
        tar.hasNUL (filepath.Join ["."; "ROOTFS"; path]) = true ->
        ~ encodable (fileHeader path file))
  /\ (forall path,
        Forall (fun e => e <> "..") (Split path "/"%char) ->
        tar.hasNUL path = true ->
        tar.hasNUL (filepath.Join ["."; "ROOTFS"; path]) = true)
  /\ (forall path,
        plainPath path ->
        filepath.Join ["."; "ROOTFS"; path] = "ROOTFS/" +:+ path).
Proof.
  split; [|split; [|split; [|split; [|split]]]].
  - intros Hpack. exists (map packEntry (range _ contents)).
    split; [apply makeDeployPackage_records, packable_range, Hpack|].
    split; [apply Permutation_map, range_perm|].
    split.
    { rewrite length_map, (Permutation_length (range_perm _ contents)).
      apply length_map_to_list. }
    intros hdr body. rewrite in_map_iff. split.
    + intros ([path file] & Heq & Hin). exists path, file.
      apply (range_In range range_perm) in Hin.
      injection Heq as <- <-. auto.
    + intros (path & file & Hlook & -> & ->). exists (path, file).
      split; [reflexivity|]. apply (range_In range range_perm), Hlook.
  - intros path file Hlook Hbad.
    apply makeDeployPackage_fails, (refused_range contents path file);
      assumption.
  - exact fileHeader_encodable.
  - exact fileHeader_refused.
  - exact Join_ROOTFS_keeps_NUL.
  - exact Join_ROOTFS_plain.
Qed.

End PackageClaims.

(** ** Versions *)

Section Versions.
Import strings cloud speccloud.

Lemma digit_range (c : ascii) (d : Z) :
  strconv.digit c = Some d -> 0 <= d <= 9.
Proof.
  unfold strconv.digit.
  destruct (_ && _) eqn:E; [|discriminate].
  intros [= <-]. apply andb_true_iff in E as [H1 H2]. lia.
Qed.

Lemma decimalFrom_ge (s : string) :
  forall n, 0 <= n -> n <= decimalFrom n s.
Proof.
  induction s as [|c s IH]; intros n Hn; simpl; [lia|].
  destruct (strconv.digit c) as [d|] eqn:E; [|lia].
  apply digit_range in E. specialize (IH (n * 10 + d)). lia.
Qed.

Lemma decimalFrom_prefix (s : string) :
  forall n, decimalFrom n (digitPrefix s) = decimalFrom n s.
Proof.
  induction s as [|c s IH]; intros n; simpl; [reflexivity|].
  destruct (strconv.digit c) as [d|] eqn:E; simpl; [|reflexivity].
  rewrite E. apply IH.
Qed.

(** The loop of [ParseUint], from a value that fits 32 bits. *)
Lemma parseLoop_value (s : string) :
  forall n,
    0 <= n <= strconv.maxVal ->
    (strconv.parseLoop s n).1
    = if strconv.maxVal <? decimalFrom n (digitPrefix s) then strconv.maxVal
      else if String.eqb (digitPrefix s) s then decimalFrom n (digitPrefix s)
      else 0.
Proof.
  induction s as [|c s IH]; intros n Hn.
  - simpl. destruct (Z.ltb_spec strconv.maxVal n); [lia | reflexivity].
  - cbn [strconv.parseLoop digitPrefix].
    destruct (strconv.digit c) as [d|] eqn:E.
    + pose proof (digit_range c d E) as Hd.
      cbn [decimalFrom]. rewrite E.
      assert (Hcut : (strconv.cutoff <=? n) = false).
      { apply Z.leb_gt. unfold strconv.cutoff, strconv.maxVal in *.
        change ((2 ^ 64 - 1) / 10 + 1) with 1844674407370955162.
        change (2 ^ 32 - 1) with 4294967295 in Hn. lia. }
      rewrite Hcut.
      assert (Hm : (n * 10) mod 2 ^ 64 = n * 10).
      { apply Z.mod_small. unfold strconv.maxVal in Hn.
        change (2 ^ 32 - 1) with 4294967295 in Hn.
        change (2 ^ 64) with 18446744073709551616. lia. }
      cbv zeta. rewrite Hm.
      assert (Hm1 : (n * 10 + d) mod 2 ^ 64 = n * 10 + d).
      { apply Z.mod_small. unfold strconv.maxVal in Hn.
        change (2 ^ 32 - 1) with 4294967295 in Hn.
        change (2 ^ 64) with 18446744073709551616. lia. }
      rewrite Hm1.
      assert (Hlt : (n * 10 + d <? n * 10) = false) by (apply Z.ltb_ge; lia).
      rewrite Hlt. cbn [orb].
      assert (Heqb : String.eqb (String c (digitPrefix s)) (String c s)
                     = String.eqb (digitPrefix s) s).
      { cbn [String.eqb]. rewrite Ascii.eqb_refl. reflexivity. }
      rewrite Heqb.
      destruct (Z.ltb_spec strconv.maxVal (n * 10 + d)) as [Hover|Hfit].
      * cbn [fst].
        pose proof (decimalFrom_ge (digitPrefix s) (n * 10 + d)) as Hge.
        destruct (Z.ltb_spec strconv.maxVal
                    (decimalFrom (n * 10 + d) (digitPrefix s)));
          [reflexivity | lia].
      * apply IH. lia.
    + cbn [decimalFrom fst].
      destruct (Z.ltb_spec strconv.maxVal n); [lia | reflexivity].
Qed.

(** The value [ParseUint] returns is the version in words. *)
Lemma ParseUint_value (s : string) :
  (strconv.ParseUint s).1 = versionValue s.
Proof.
  unfold strconv.ParseUint, versionValue.
  destruct (String.eqb_spec s "") as [->|Hne]; [reflexivity|].
  rewrite parseLoop_value by (unfold strconv.maxVal; simpl; lia).
  rewrite andb_true_r. reflexivity.
Qed.

End Versions.

(** ** Sorting *)

Lemma StronglySorted_weaken {A : Type} (R R' : A -> A -> Prop)
    (l : list A) :
  (forall a b, R a b -> R' a b) -> StronglySorted R l -> StronglySorted R' l.
Proof.
  intros HR. induction 1 as [|a l Hl IH Ha]; constructor; [exact IH|].
  rewrite List.Forall_forall in *. intros b Hb. apply HR, Ha, Hb.
Qed.

Section Sorting.
Import speccloud.

Context {A : Type} (less : A -> A -> bool).

Lemma insertBy_perm (x : A) (l : list A) : insertBy less x l ≡ₚ x :: l.
Proof.
  induction l as [|y l IH]; simpl; [reflexivity|].
  destruct (less x y); [reflexivity|].
  rewrite IH. apply perm_swap.
Qed.

Lemma insertionSort_perm (l : list A) : insertionSort A less l ≡ₚ l.
Proof.
  induction l as [|x l IH]; simpl; [reflexivity|].
  rewrite insertBy_perm, IH. reflexivity.
Qed.

Lemma sortedBy_inv (x : A) (l : list A) :
  sortedBy less (x :: l) ->
  sortedBy less l /\ Forall (fun y => less y x = false) l.
Proof. intros H. inversion H; subst. auto. Qed.

Lemma insertBy_sorted (x : A) (l : list A) :
  strictWeakOrder less -> sortedBy less l -> sortedBy less (insertBy less x l).
Proof.
  intros (Hirr & Htrans & Hneg) Hs.
  induction l as [|y l IH]; simpl.
  - constructor; constructor.
  - apply sortedBy_inv in Hs as [Hl Hy].
    destruct (less x y) eqn:Exy.
    + constructor; [constructor; assumption|].
      assert (Hyx : less y x = false).
      { destruct (less y x) eqn:Eyx; [|reflexivity].
        rewrite <- (Hirr x). symmetry. eapply Htrans; eassumption. }
      constructor; [exact Hyx|].
      eapply Forall_impl; [exact Hy|].
      intros z Hz. simpl in Hz. eapply Hneg; eassumption.
    + constructor; [apply IH, Hl|].
      eapply Permutation_Forall; [symmetry; apply insertBy_perm|].
      constructor; assumption.
Qed.

Lemma insertionSort_sorted (l : list A) :
  strictWeakOrder less -> sortedBy less (insertionSort A less l).
Proof.
  intros Hswo. induction l as [|x l IH]; simpl.
  - constructor.
  - apply insertBy_sorted; assumption.
Qed.

(** The last element of a sorted slice is less than no element. *)
Lemma sortedBy_last (init : list A) (best : A) :
  strictWeakOrder less ->
  sortedBy less (init ++ [best]) ->
  forall x, In x (init ++ [best]) -> less best x = false.
Proof.
  intros (Hirr & _ & _). induction init as [|y init IH]; intros Hs x Hin.
  - destruct Hin as [<-|[]]. apply Hirr.
  - change ((y :: init) ++ [best])%list with (y :: (init ++ [best]))%list
      in Hs.
    apply sortedBy_inv in Hs as [Hl Hy].
    destruct Hin as [<-|Hin]; [|apply IH; assumption].
    rewrite List.Forall_forall in Hy. apply Hy, in_elt.
Qed.

Lemma nth_last_app (init : list A) (best d : A) :
  nth (List.length (init ++ [best]) - 1) (init ++ [best]) d = best.
Proof.
  rewrite length_app. simpl.
  replace (List.length init + 1 - 1)%nat with (List.length init) by lia.
  rewrite app_nth2 by lia. rewrite Nat.sub_diag. reflexivity.
Qed.

End Sorting.

(** ** Image selection *)

Section Matching.
Import strings cloud speccloud.

Lemma field_guard (a b : string) :
  negb (String.eqb b "") && negb (String.eqb a b) = false
  <-> (b <> "" -> a = b).
Proof.
  destruct (String.eqb_spec b "") as [->|Hb]; simpl.
  - split; [intros _ H; congruence | reflexivity].
  - destruct (String.eqb_spec a b) as [->|Hab]; simpl.
    + split; [reflexivity..].
    + split; [discriminate | intros H; elim Hab; auto].
Qed.

Lemma Matches_fieldsMatch (bit input : BootImageTags) :
  Matches bit input = true <-> fieldsMatch bit input.
Proof.
  unfold Matches, fieldsMatch. rewrite <- !field_guard.
  repeat match goal with
         | |- context [if ?g then false else _] => destruct g
         end; intuition congruence.
Qed.

Lemma FilterImages_In (images : list Image) (tags : BootImageTags)
    (img : Image) :
  In img (FilterImages images tags)
  <-> In img images /\ fieldsMatch (Set_ noTags (Name img)) tags.
Proof.
  rewrite <- Matches_fieldsMatch.
  induction images as [|i images IH]; simpl; [tauto|].
  destruct (Matches (Set_ noTags (Name i)) tags) eqn:E; simpl; rewrite IH.
  - split; [intros [<-|[H1 H2]]; auto | intros [[<-|H1] H2]; auto].
  - split; [intros [H1 H2]; auto | intros [[<-|H1] H2]; [congruence | auto]].
Qed.

End Matching.

Section Selection.
Import strings cloud speccloud.

Context (time_Parse : string -> string -> result time.Time).
Context (sort_Slice : forall A : Type, (A -> A -> bool) -> list A -> list A).

Local Abbreviation sortKey := (cloud.sortKey time_Parse).
Local Abbreviation imageLess := (cloud.imageLess time_Parse).

Lemma imageLess_true (a b : Image) :
  imageLess a b = true
  <-> (sortKey a).1 < (sortKey b).1
      \/ ((sortKey a).1 = (sortKey b).1 /\ (sortKey a).2 < (sortKey b).2).
Proof.
  unfold cloud.imageLess.
  destruct (sortKey a) as [va da], (sortKey b) as [vb db]. simpl.
  unfold time.Before.
  destruct (Z.eqb_spec va vb); simpl;
    [rewrite Z.ltb_lt | rewrite Z.ltb_lt]; lia.
Qed.

Lemma imageLess_false (a b : Image) :
  imageLess a b = false <-> keyLe (sortKey b) (sortKey a).
Proof.
  rewrite <- not_true_iff_false, imageLess_true. unfold keyLe. lia.
Qed.

Lemma imageLess_strictWeakOrder : strictWeakOrder imageLess.
Proof.
  split; [|split].
  - intros x. rewrite imageLess_false. unfold keyLe. lia.
  - intros x y z. rewrite !imageLess_true. lia.
  - intros x y z. rewrite !imageLess_false. unfold keyLe. lia.
Qed.

Lemma sortKey_words (img : Image) :
  sortKey img
  = (versionValue (Version (Set_ noTags (Name img))),
     match time_Parse "20060102 150405"
             (Date (Set_ noTags (Name img)) +:+ " "
              +:+ Time (Set_ noTags (Name img))) with
     | Ok t => t
     | Err _ => time.Unix 0 0
     end).
Proof.
  unfold cloud.sortKey, Timestamp. rewrite <- ParseUint_value.
  destruct (strconv.ParseUint _) as [v e]. reflexivity.
Qed.

Hypothesis sort_Slice_perm :
  forall (A : Type) (less : A -> A -> bool) (l : list A),
    sort_Slice A less l ≡ₚ l.
Hypothesis sort_Slice_sorted :
  forall (A : Type) (less : A -> A -> bool) (l : list A),
    strictWeakOrder less -> sortedBy less (sort_Slice A less l).

(** C4 (amended): image resolution keeps exactly the images each of whose
    parsed name fields equals every non-empty field of the request; sorts
    them by version ascending, then by timestamp ascending, where the
    version is the value [ParseUint] returns (the number a field of digits
    spells when it fits 32 bits, [2^32 - 1] when its leading digits
    overflow, 0 otherwise) and the timestamp is the parse of the date and
    the time under the layout [20060102 150405], epoch zero when that
    fails; returns the id of the last element of that order, which no
    kept image exceeds; and fails with the no-matching-image error when no
    image is kept. *)
Theorem C4_GetBestImage (images : list Image) (tags : BootImageTags) :
  let matching := FilterImages images tags in
  let sorted := SortImages time_Parse sort_Slice matching in
  (forall img,
      In img matching
      <-> In img images /\ fieldsMatch (Set_ noTags (Name img)) tags)
  /\ sorted ≡ₚ matching
  /\ StronglySorted (fun a b => keyLe (sortKey a) (sortKey b)) sorted
  /\ (forall img,
        sortKey img
        = (versionValue (Version (Set_ noTags (Name img))),
           match time_Parse "20060102 150405"
                   (Date (Set_ noTags (Name img)) +:+ " "
                    +:+ Time (Set_ noTags (Name img))) with
           | Ok t => t
           | Err _ => time.Unix 0 0
           end))
  /\ (matching = [] ->
      GetBestImage time_Parse sort_Slice images tags
      = Err (Errorf ("No image matching tags " +:+ plusV tags +:+ " found")))
  /\ (matching <> [] ->
      exists init best,
        sorted = (init ++ [best])%list
        /\ GetBestImage time_Parse sort_Slice images tags = Ok (Id best)
        /\ In best matching
        /\ forall img, In img matching -> keyLe (sortKey img) (sortKey best)).
Proof.
  intros matching sorted.
  assert (Hperm : sorted ≡ₚ matching) by apply sort_Slice_perm.
  assert (Hsorted : sortedBy imageLess sorted)
    by apply sort_Slice_sorted, imageLess_strictWeakOrder.
  split; [intros img; apply FilterImages_In|].
  split; [exact Hperm|].
  split.
  { eapply StronglySorted_weaken; [|exact Hsorted].
    intros a b. apply imageLess_false. }
  split; [exact sortKey_words|].
  split.
  - intros Hnil. unfold GetBestImage. fold matching. fold sorted.
    rewrite Hnil in Hperm. apply Permutation_nil_r in Hperm.
    rewrite Hperm. reflexivity.
  - intros Hne.
    destruct (exists_last (l := sorted)) as (init & best & Hlast).
    { intros Hnil. rewrite Hnil in Hperm. symmetry in Hperm.
      apply Permutation_nil_r in Hperm. contradiction. }
    exists init, best. split; [exact Hlast|].
    split; [|split].
    + unfold GetBestImage. fold matching. fold sorted. rewrite Hlast.
      rewrite nth_last_app.
      destruct init; reflexivity.
    + eapply Permutation_in; [exact Hperm|]. rewrite Hlast. apply in_elt.
    + intros img Hin. apply imageLess_false.
      rewrite Hlast in Hsorted.
      apply (sortedBy_last imageLess init best imageLess_strictWeakOrder
               Hsorted).
      rewrite <- Hlast. eapply Permutation_in; [symmetry; exact Hperm|].
      exact Hin.
Qed.

End Selection.

Section SelectionExamples.
Import strings cloud speccloud.

(** C4, as the claim states it, fails: a version field whose digits
    overflow 32 bits fails to parse, and yet counts as [2^32 - 1], not as
    0; the image that carries it is sorted last and is the one returned,
    before the image of version 7. *)
Lemma C4_counterexample :
  let old := {| Id := "ami-7"; Name := "kip-itzo-7-20240101-010000" |} in
  let big := {| Id := "ami-big";
                Name := "kip-itzo-4294967296-20240101-010000" |} in
  let tags := {| Company := ""; Product := "itzo"; Version := "";
                 Date := ""; Time := "" |} in
  (strconv.ParseUint (Version (Set_ noTags (Name big)))).2
  = Some strconv.ErrRange
  /\ (sortKey parseTimestamp big).1 = 4294967295
  /\ (sortKey parseTimestamp big).1 <> 0
  /\ (sortKey parseTimestamp old).1 = 7
  /\ GetBestImage parseTimestamp insertionSort [old; big] tags
     = Ok "ami-big"
  /\ GetBestImage parseTimestamp insertionSort [big; old] tags
     = Ok "ami-big".
Proof. vm_compute. repeat split; discriminate. Qed.

(** The literal scenario of the specification: among three images of the
    product [itzo], the one of version 2 with the newest timestamp wins. *)
Example GetBestImage_scenario :
  GetBestImage parseTimestamp insertionSort
    [{| Id := "first"; Name := "kip-itzo-1-20240101-010000" |};
     {| Id := "second"; Name := "kip-itzo-2-20230101-010000" |};
     {| Id := "third"; Name := "kip-itzo-2-20240601-010000" |}]
    {| Company := ""; Product := "itzo"; Version := ""; Date := "";
       Time := "" |}
  = Ok "third".
Proof. vm_compute. reflexivity. Qed.

Lemma C4_GetBestImage_witness :
  let images :=
    [{| Id := "first"; Name := "kip-itzo-1-20240101-010000" |};
     {| Id := "second"; Name := "kip-itzo-2-20230101-010000" |};
     {| Id := "third"; Name := "kip-itzo-2-20240601-010000" |}] in
  let tags := {| Company := ""; Product := "itzo"; Version := "";
                 Date := ""; Time := "" |} in
  FilterImages images tags <> []
  /\ exists init best,
       SortImages parseTimestamp insertionSort (FilterImages images tags)
       = (init ++ [best])%list
       /\ GetBestImage parseTimestamp insertionSort images tags = Ok (Id best)
       /\ In best (FilterImages images tags)
       /\ forall img, In img (FilterImages images tags) ->
                      keyLe (sortKey parseTimestamp img)
                            (sortKey parseTimestamp best).
Proof.
  intros images tags.
  assert (Hne : FilterImages images tags <> []) by (vm_compute; discriminate).
  split; [exact Hne|].
  apply (C4_GetBestImage parseTimestamp insertionSort
           (fun A less l => insertionSort_perm less l)
           (fun A less l => insertionSort_sorted less l) images tags).
  exact Hne.
Defined.

End SelectionExamples.

(** ** The cloud-init file *)

Section CloudInitClaims.
Import strings cloudinitfile specdeploy.

Context {OtherFields : Type}.
Context (yaml_Marshal : @CloudConfig OtherFields -> result (list byte)).
Context (range : forall V : Type, gmap string V -> list (string * V)).
Context (range_perm :
  forall (V : Type) (m : gmap string V), range V m ≡ₚ map_to_list m).

(** C7: for every cloud-init file, with the YAML of the merged
    configuration (the user's configuration, whose files are followed by
    the kip files) at hand, [Contents] returns the literal header
    [#cloud-config] and a line feed followed by that YAML, and returns an
    error, and no bytes, exactly when the length of the whole exceeds
    16000 bytes. *)
Theorem C7_Contents (f : File) (mergedContent : list byte) :
  yaml_Marshal (mergedConfig range f) = Ok mergedContent ->
  let total := 14 + Z.of_nat (List.length mergedContent) in
  (exists kip,
      kip ≡ₚ map snd (map_to_list (kipFiles f))
      /\ mergedConfig range f
         = {| WriteFiles := (WriteFiles (userData f) ++ kip)%list;
              others := others (userData f) |})
  /\ (total <= 16000 ->
      Contents yaml_Marshal range f
      = Ok (bytes ("#cloud-config" +:+ nl) ++ mergedContent)%list)
  /\ (16000 < total ->
      Contents yaml_Marshal range f
      = Err (Errorf "Cloud init data length is over 16K"))
  /\ ((exists err, Contents yaml_Marshal range f = Err err)
      <-> 16000 < total).
Proof.
  intros Hyaml total.
  assert (Hlen : Z.of_nat (List.length (cloudInitHeader ++ mergedContent))
                 = total).
  { rewrite length_app. unfold total. simpl List.length. lia. }
  assert (Hc : Contents yaml_Marshal range f
               = if 16000 <? total
                 then Err (Errorf "Cloud init data length is over 16K")
                 else Ok (bytes ("#cloud-config" +:+ nl) ++ mergedContent)%list).
  { unfold Contents. rewrite Hyaml, Hlen. reflexivity. }
  split.
  { exists (map snd (range _ (kipFiles f))).
    split; [apply Permutation_map, range_perm | reflexivity]. }
  rewrite Hc. destruct (Z.ltb_spec 16000 total) as [Hover|Hfit].
  - split; [lia|]. split; [reflexivity|]. split; [auto | eauto].
  - split; [reflexivity|]. split; [lia|].
    split; [intros [err [=]] | lia].
Qed.

End CloudInitClaims.

(** ** Deployment of the volumes of a pod *)

Section VolumeClaims.
Import strings api v1 server specdeploy.

Context (range : forall V : Type, gmap string V -> list (string * V)).
Context (range_perm :
  forall (V : Type) (m : gmap string V), range V m ≡ₚ map_to_list m).

Lemma range_empty (V : Type) : range V ∅ = [].
Proof.
  apply Permutation_nil. symmetry.
  rewrite <- (map_to_list_empty (M := gmap string) (A := V)).
  apply range_perm.
Qed.

Lemma project_none (lookup : string -> option (list byte)) (defaultMode : Z)
    (items : list KeyToPath) :
  (forall k, lookup k = None) ->
  forall acc : gmap string packageFile,
    project lookup defaultMode items acc = acc.
Proof.
  intros Hnone. induction items as [|it items IH]; intros acc; [reflexivity|].
  rewrite project_cons, Hnone. apply IH.
Qed.

(** An optional source projects the empty object to no file at all. *)
Lemma getConfigMapFiles_empty (cmVol : ConfigMapVolumeSource)
    (namespace name : string) :
  isOptional (cmv_Optional cmVol) = true ->
  getConfigMapFiles range cmVol
    {| cm_Namespace := namespace; cm_Name := name;
       cm_Data := ∅; cm_BinaryData := ∅ |} = Ok ∅.
Proof.
  intros Hopt. unfold getConfigMapFiles.
  rewrite configMapItems_project.
  change (match cmv_Optional cmVol with Some b => b | None => false end)
    with (isOptional (cmv_Optional cmVol)).
  rewrite Hopt. f_equal. apply project_none.
  intros k. unfold configMapValue. simpl. rewrite !lookup_empty. reflexivity.
Qed.

Lemma getSecretFiles_empty (secVol : SecretVolumeSource)
    (namespace name : string) :
  isOptional (sv_Optional secVol) = true ->
  getSecretFiles range secVol
    {| sec_Namespace := namespace; sec_Name := name; sec_Data := ∅ |} = Ok ∅.
Proof.
  intros Hopt. unfold getSecretFiles.
  rewrite secretItems_project.
  change (match sv_Optional secVol with Some b => b | None => false end)
    with (isOptional (sv_Optional secVol)).
  rewrite Hopt. f_equal. apply project_none.
  intros k. unfold secretValue. simpl. apply lookup_empty.
Qed.

Lemma makeDeployPackage_empty :
  makeDeployPackage range ∅ = Ok (gzip.Compressed []).
Proof.
  rewrite makeDeployPackage_records; rewrite range_empty;
    [reflexivity | constructor].
Qed.

(** The volumes after a prefix are deployed only when the prefix went
    through, and from the calls it made. *)
Lemma deployVolumes_app (pod : Pod) (rm : ResourceManager)
    (client : ItzoClient) (pre rest : list Volume) :
  forall calls,
    deployVolumes range pod rm client (pre ++ rest) calls
    = match deployVolumes range pod rm client pre calls with
      | (Some err, calls') => (Some err, calls')
      | (None, calls') => deployVolumes range pod rm client rest calls'
      end.
Proof.
  induction pre as [|vol pre IH]; intros calls; [reflexivity|].
  cbn [app deployVolumes].
  destruct (deployVolume range pod rm client vol calls) as [[err|] calls'];
    [reflexivity | apply IH].
Qed.

End VolumeClaims.

Section VolumeDeployment.
Import strings api v1 server specdeploy.

Context (range : forall V : Type, gmap string V -> list (string * V)).
Context (range_perm :
  forall (V : Type) (m : gmap string V), range V m ≡ₚ map_to_list m).

(** C8: [deployPodVolumes] fetches the object of each configmap or secret
    volume from the resource manager.  Let the volumes before [vol] be
    deployed, with the calls [calls], and the fetch for [vol] fail.  When
    the error is NotFound and the source is marked optional, the empty
    object of that name and namespace stands for it: it projects to no
    file, the empty package is deployed and the loop goes on with the next
    volumes.  In every other case the function returns the wrapped fetch
    error and no call is made beyond those of the earlier volumes. *)
Theorem C8_deployPodVolumes (pod : Pod) (rm : ResourceManager)
    (client : ItzoClient) (pre post : list Volume) (vol : Volume)
    (calls : list deployCall) :
  pod_Volumes pod = (pre ++ vol :: post)%list ->
  deployVolumes range pod rm client pre [] = (None, calls) ->
  let emptyCall := {| dc_pod := pod_Name pod; dc_volume := vol_Name vol;
                      dc_payload := gzip.Compressed [] |} in
  let goOn :=
    match Deploy client (pod_Name pod) (vol_Name vol) (gzip.Compressed []) with
    | Some e =>
        (Some (WrapError e ("error deploying package " +:+ vol_Name vol
                            +:+ " to " +:+ pod_Name pod)),
         (calls ++ [emptyCall])%list)
    | None =>
        deployVolumes range pod rm client post (calls ++ [emptyCall])%list
    end in
  (forall cmVol err,
      vol_ConfigMap vol = Some cmVol ->
      GetConfigMap rm (cmv_Name cmVol) (pod_Namespace pod) = Err err ->
      if IsNotFound err && isOptional (cmv_Optional cmVol)
      then getConfigMapFiles range cmVol
             {| cm_Namespace := pod_Namespace pod; cm_Name := cmv_Name cmVol;
                cm_Data := ∅; cm_BinaryData := ∅ |} = Ok ∅
           /\ deployPodVolumes range pod rm client = goOn
      else deployPodVolumes range pod rm client
           = (Some (WrapError err ("Couldn't get configMap "
                      +:+ pod_Namespace pod +:+ "/" +:+ cmv_Name cmVol)),
              calls))
  /\ (forall secVol err,
        vol_ConfigMap vol = None ->
        vol_Secret vol = Some secVol ->
        GetSecret rm (sv_SecretName secVol) (pod_Namespace pod) = Err err ->
        if IsNotFound err && isOptional (sv_Optional secVol)
        then getSecretFiles range secVol
               {| sec_Namespace := pod_Namespace pod;
                  sec_Name := sv_SecretName secVol; sec_Data := ∅ |} = Ok ∅
             /\ deployPodVolumes range pod rm client = goOn
        else deployPodVolumes range pod rm client
             = (Some (WrapError err ("Couldn't get secret "
                        +:+ pod_Namespace pod +:+ "/"
                        +:+ sv_SecretName secVol)),
                calls)).
Proof.
  intros Hvols Hpre emptyCall goOn.
  assert (Hrun : deployPodVolumes range pod rm client
                 = match deployVolume range pod rm client vol calls with
                   | (Some e, calls') => (Some e, calls')
                   | (None, calls') =>
                       deployVolumes range pod rm client post calls'
                   end).
  { unfold deployPodVolumes. rewrite Hvols, deployVolumes_app, Hpre.
    reflexivity. }
  rewrite Hrun. split.
  - intros cmVol err Hcm Hfetch. unfold deployVolume. rewrite Hcm, Hfetch.
    change (match cmv_Optional cmVol with Some b => b | None => false end)
      with (isOptional (cmv_Optional cmVol)).
    destruct (IsNotFound err && isOptional (cmv_Optional cmVol)) eqn:E;
      cbn [negb]; [|reflexivity].
    apply andb_true_iff in E as [_ Hopt].
    rewrite (getConfigMapFiles_empty range _ _ _ Hopt).
    split; [reflexivity|].
    unfold deployFiles. rewrite (makeDeployPackage_empty range range_perm).
    unfold goOn, emptyCall.
    destruct (Deploy client _ _ _); reflexivity.
  - intros secVol err Hcm Hsec Hfetch. unfold deployVolume.
    rewrite Hcm, Hsec, Hfetch.
    change (match sv_Optional secVol with Some b => b | None => false end)
      with (isOptional (sv_Optional secVol)).
    destruct (IsNotFound err && isOptional (sv_Optional secVol)) eqn:E;
      cbn [negb]; [|reflexivity].
    apply andb_true_iff in E as [_ Hopt].
    rewrite (getSecretFiles_empty range _ _ _ Hopt).
    split; [reflexivity|].
    unfold deployFiles. rewrite (makeDeployPackage_empty range range_perm).
    unfold goOn, emptyCall.
    destruct (Deploy client _ _ _); reflexivity.
Qed.

End VolumeDeployment.

(** ** The statements at the scenarios of the specification *)

Section Witnesses.
Import strings api v1 server specdeploy.

Lemma rangeList_perm (V : Type) (m : gmap string V) :
  rangeList V m ≡ₚ map_to_list m.
Proof. reflexivity. Qed.

Lemma C1_getConfigMapFiles_all_keys_witness :
  cmv_Items samples.allKeys = []
  /\ exists files,
       getConfigMapFiles rangeList samples.allKeys samples.cm = Ok files
       /\ dom files
          = dom (cm_Data samples.cm) ∪ dom (cm_BinaryData samples.cm)
       /\ (forall k s,
             cm_Data samples.cm !! k = Some s ->
             files !! k
             = Some {| data := bytes s;
                       mode := modeOrDefault
                                 (cmv_DefaultMode samples.allKeys) |})
       /\ (forall k b,
             cm_Data samples.cm !! k = None ->
             cm_BinaryData samples.cm !! k = Some b ->
             files !! k
             = Some {| data := b;
                       mode := modeOrDefault
                                 (cmv_DefaultMode samples.allKeys) |}).
Proof.
  split; [reflexivity|].
  apply (C1_getConfigMapFiles_all_keys rangeList rangeList_perm
           samples.allKeys samples.cm).
  reflexivity.
Defined.

End Witnesses.

Section MoreWitnesses.
Import strings api v1 server specdeploy.

(** The second scenario: the remapped key is projected, the missing key is
    skipped. *)
Example getConfigMapFiles_scenario :
  getConfigMapFiles rangeList (samples.selected true) samples.cm
  = Ok {[ "x/y" := {| data := bytes "A"; mode := octal 6 4 4 |} ]}.
Proof. reflexivity. Qed.

Lemma C2_missing_key_witness :
  (cmv_Items (samples.selected true) = ([samples.remap] ++ samples.missing :: [])%list
   /\ cm_Data samples.cm !! Key samples.missing = None
   /\ cm_BinaryData samples.cm !! Key samples.missing = None)
  /\ (exists files,
        getConfigMapFiles rangeList (samples.selected true) samples.cm
        = Ok files
        /\ configMapItems (samples.selected true) samples.cm
             (modeOrDefault (cmv_DefaultMode (samples.selected true))) true
             ([samples.remap] ++ []) ∅ = Ok files
        /\ forall it, In it ([samples.remap] ++ []) ->
                      configMapValue samples.cm (Key it) <> None ->
                      is_Some (files !! archivePath it)).
Proof.
  split; [repeat split; reflexivity|].
  apply (proj1 (C2_missing_key rangeList) (samples.selected true) samples.cm
           [samples.remap] [] samples.missing); reflexivity.
Defined.

Lemma C3_makeDeployPackage_witness :
  let contents : gmap string packageFile :=
    {[ "a" := {| data := bytes "A"; mode := octal 6 4 4 |} ]} in
  (exists archive : list tar.entry,
     makeDeployPackage rangeList contents = Ok (gzip.Compressed archive)
     /\ archive ≡ₚ map packEntry (map_to_list contents)
     /\ List.length archive = size contents
     /\ (forall hdr body,
           In (hdr, body) archive <->
           exists path file,
             contents !! path = Some file
             /\ hdr = {| tar.Name := filepath.Join ["."; "ROOTFS"; path];
                         tar.Mode := mode file;
                         tar.Size := Z.of_nat (List.length (data file));
                         tar.Typeflag := tar.TypeReg;
                         tar.Uid := 0;
                         tar.Gid := 0 |}
             /\ body = data file))
  /\ (exists e,
        makeDeployPackage rangeList
          {[ samples.nulPath := {| data := bytes "A"; mode := octal 6 4 4 |} ]}
        = Err e).
Proof.
  intros contents. split.
  - apply (proj1 (C3_makeDeployPackage rangeList rangeList_perm contents)).
    intros path file Hlook.
    apply lookup_singleton_Some in Hlook as [<- <-]. reflexivity.
  - apply (proj1 (proj2 (C3_makeDeployPackage rangeList rangeList_perm
                           {[ samples.nulPath :=
                                {| data := bytes "A"; mode := octal 6 4 4 |} ]}))
             samples.nulPath {| data := bytes "A"; mode := octal 6 4 4 |}).
    + reflexivity.
    + vm_compute. discriminate.
Defined.

Lemma C5_createResolvconf_witness :
  let text := bytes (resolvconfText samples.dnsconf) in
  let payload : Buffer :=
    gzip.Compressed
      [({| tar.Name := "ROOTFS/etc/resolv.conf";
           tar.Mode := octal 6 4 4;
           tar.Size := Z.of_nat (List.length text);
           tar.Typeflag := tar.TypeReg;
           tar.Uid := 0; tar.Gid := 0 |}, text)] in
  makeDeployPackage rangeList
    {[ "/etc/resolv.conf" := {| data := text; mode := octal 6 4 4 |} ]}
  = Ok payload
  /\ (deployResolvconf rangeList (fun pod => Ok pod) (samples.pod true)
        (Some (fun _ => Ok samples.dnsconf)) samples.agent).2
     = [{| dc_pod := pod_Name (samples.pod true);
           dc_volume := "resolvconf"; dc_payload := payload |}].
Proof.
  apply (proj2 (proj2 (C5_createResolvconf rangeList rangeList_perm Pod
                         (fun pod => Ok pod)))
           (samples.pod true) (fun _ => Ok samples.dnsconf) samples.agent
           (samples.pod true) samples.dnsconf); reflexivity.
Defined.

Lemma C7_Contents_witness :
  exists mergedContent,
    examples.sampleMarshal
      (cloudinitfile.mergedConfig rangeList examples.sampleFile)
    = Ok mergedContent
    /\ 14 + Z.of_nat (List.length mergedContent) <= 16000
    /\ cloudinitfile.Contents examples.sampleMarshal rangeList
         examples.sampleFile
       = Ok (bytes ("#cloud-config" +:+ nl) ++ mergedContent)%list.
Proof.
  eexists. split; [reflexivity|].
  assert (Hfit : 14 + Z.of_nat (List.length
                   (bytes (fold_right
                      (fun wf rest =>
                         "- " +:+ cloudinitfile.Path wf +:+ ": "
                         +:+ cloudinitfile.Content wf +:+ nl +:+ rest) ""
                      (cloudinitfile.WriteFiles
                         (cloudinitfile.mergedConfig rangeList
                            examples.sampleFile))))) <= 16000)
    by (vm_compute; discriminate).
  split; [exact Hfit|].
  apply (proj1 (proj2 (C7_Contents examples.sampleMarshal rangeList
                         rangeList_perm examples.sampleFile _ eq_refl))).
  exact Hfit.
Defined.

Lemma C8_deployPodVolumes_witness :
  (pod_Volumes (samples.pod true) = ([] ++ samples.volume true :: [])%list
   /\ deployVolumes rangeList (samples.pod true) samples.emptyManager
        samples.agent [] [] = (None, []))
  /\ getConfigMapFiles rangeList (samples.selected true)
       {| cm_Namespace := "default"; cm_Name := "cm";
          cm_Data := ∅; cm_BinaryData := ∅ |} = Ok ∅
  /\ deployPodVolumes rangeList (samples.pod true) samples.emptyManager
       samples.agent
     = (None, [{| dc_pod := "p"; dc_volume := "config";
                  dc_payload := gzip.Compressed [] |}]).
Proof.
  split; [split; reflexivity|].
  apply (proj1 (C8_deployPodVolumes rangeList rangeList_perm
                  (samples.pod true) samples.emptyManager samples.agent
                  [] [] (samples.volume true) [] eq_refl eq_refl)
           (samples.selected true) samples.notFound eq_refl eq_refl).
Defined.

Lemma C10_data_before_binary_witness :
  let cmVol := {| cmv_Name := "both";
                  cmv_Items := [{| Key := "a"; Path := ""; Mode := None |}];
                  cmv_DefaultMode := None; cmv_Optional := None |} in
  (cm_Data samples.cmBoth !! "a" = Some "A"
   /\ cm_BinaryData samples.cmBoth !! "a" = Some [x01; x02]
   /\ getConfigMapFiles rangeList cmVol samples.cmBoth
      = Ok {[ "a" := {| data := bytes "A"; mode := octal 6 4 4 |} ]})
  /\ ({[ "a" := {| data := bytes "A"; mode := octal 6 4 4 |} ]}
        : gmap string packageFile) !! "a"
     = Some {| data := bytes "A"; mode := octal 6 4 4 |}.
Proof.
  intros cmVol. split; [repeat split; reflexivity|].
  apply (proj1 (C10_data_before_binary rangeList rangeList_perm cmVol
                  samples.cmBoth)
           [] [] {| Key := "a"; Path := ""; Mode := None |} "A" [x01; x02]
           {[ "a" := {| data := bytes "A"; mode := octal 6 4 4 |} ]});
    try reflexivity.
  intros it [].
Defined.

End MoreWitnesses.

Section Scenarios.
Import strings api v1 server specdeploy.

(** The first scenario: the three keys of the configmap become three
    regular files of mode 0644 under [ROOTFS]. *)
Example makeDeployPackage_scenario :
  exists files archive,
    getConfigMapFiles rangeList samples.allKeys samples.cm = Ok files
    /\ makeDeployPackage rangeList files = Ok (gzip.Compressed archive)
    /\ map (fun e : tar.entry => (tar.Name e.1, tar.Mode e.1, e.2)) archive
       = [("ROOTFS/c", octal 6 4 4, [x01; x02]);
          ("ROOTFS/a", octal 6 4 4, bytes "A");
          ("ROOTFS/b", octal 6 4 4, bytes "B")].
Proof. eexists _, _. repeat split; reflexivity. Qed.

(** A secret item without a key is skipped when the source is optional,
    and is an error otherwise. *)
Example getSecretFiles_scenario :
  getSecretFiles rangeList (samples.selectedSecret true) samples.sec
  = Ok {[ "token" := {| data := [x74; x6f; x6b]; mode := octal 6 4 4 |} ]}
  /\ getSecretFiles rangeList (samples.selectedSecret false) samples.sec
     = Err (missingKeyError "sec" "default" "sec" "missing").
Proof. split; reflexivity. Qed.

(** A secret that is not found aborts the deployment when the source is
    not optional: the fetch error comes back wrapped and no call is made. *)
Example deployPodVolumes_scenario :
  deployPodVolumes rangeList (samples.secretPod false) samples.emptyManager
    samples.agent
  = (Some (WrapError samples.notFound "Couldn't get secret default/sec"), [])
  /\ deployPodVolumes rangeList (samples.secretPod true) samples.emptyManager
       samples.agent
     = (None, [{| dc_pod := "p"; dc_volume := "secret";
                  dc_payload := gzip.Compressed [] |}]).
Proof. split; reflexivity. Qed.

(** The tar writer on sample headers: a short plain name fits every
    format; a negative mode leaves the GNU format only; a name with a byte
    above 0x7f needs a PAX record for the path; a name with a NUL byte fits
    no format. *)
Example allowedFormats_scenario :
  let file := {| data := bytes "A"; mode := octal 6 4 4 |} in
  let all := {| tar.FormatUSTAR := true; tar.FormatPAX := true;
                tar.FormatGNU := true |} in
  tar.allowedFormats (fileHeader "a" file) = Ok (all, [])
  /\ tar.allowedFormats (fileHeader "a" {| data := bytes "A"; mode := -1 |})
     = Ok ({| tar.FormatUSTAR := false; tar.FormatPAX := false;
              tar.FormatGNU := true |}, [])
  /\ tar.allowedFormats (fileHeader (String (ascii_of_nat 200) "") file)
     = Ok ({| tar.FormatUSTAR := false; tar.FormatPAX := true;
              tar.FormatGNU := true |},
           [("path", "ROOTFS/" +:+ String (ascii_of_nat 200) "")])
  /\ tar.allowedFormats (fileHeader samples.nulPath file)
     = Err (tar.headerError "").
Proof. repeat split; reflexivity. Qed.

(** A path with a NUL byte makes the package fail, whatever else the map
    holds, and the deployment of the volume then stops before any call. *)
Example makeDeployPackage_NUL_scenario :
  let file := {| data := bytes "A"; mode := octal 6 4 4 |} in
  makeDeployPackage rangeList {[ "a" := file; samples.nulPath := file ]}
  = Err (tar.headerError "")
  /\ deployFiles rangeList samples.agent (samples.pod true) "v"
       {[ samples.nulPath := file ]} []
     = (Some (WrapError (tar.headerError "")
                "error creating tar.gz package v for p"), []).
Proof. split; reflexivity. Qed.

End Scenarios.

(** * Further properties of the code *)

(** ** Projection of listed items *)

Section ProjectMore.
Import strings api v1 server specdeploy.

Context (lookup : string -> option (list byte)) (defaultMode : Z).

(** The paths that hold a file after the items: those that held one and
    those at which an item with a value stores. *)
Lemma project_is_Some (items : list KeyToPath) (path : string) :
  forall acc : gmap string packageFile,
    is_Some (project lookup defaultMode items acc !! path)
    <-> is_Some (acc !! path)
        \/ exists it, In it items /\ lookup (Key it) <> None
                      /\ archivePath it = path.
Proof.
  induction items as [|it items IH]; intros acc.
  - simpl. split; [auto | intros [H|(it & [] & _)]; exact H].
  - rewrite project_cons, IH. split.
    + intros [Hacc|(w & Hin & Hv & Hp)].
      * destruct (lookup (Key it)) as [d|] eqn:E; [|left; exact Hacc].
        unfold putItem in Hacc. apply lookup_insert_is_Some in Hacc.
        destruct Hacc as [Hp|[_ Hacc]]; [|left; exact Hacc].
        right. exists it. split; [left; reflexivity|]. split; [|exact Hp].
        rewrite E. discriminate.
      * right. exists w. split; [right; exact Hin | auto].
    + intros [Hacc|(w & [<-|Hin] & Hv & Hp)].
      * left. destruct (lookup (Key it)) as [d|]; [|exact Hacc].
        unfold putItem. apply lookup_insert_is_Some.
        destruct (decide (archivePath it = path)); auto.
      * left. destruct (lookup (Key it)) as [d|]; [|congruence].
        unfold putItem. rewrite Hp, lookup_insert_eq. eauto.
      * right. exists w. auto.
Qed.

(** A file after the items was there before or is the value of an item,
    with the mode of that item. *)
Lemma project_Some (items : list KeyToPath) (path : string)
    (f : packageFile) :
  forall acc : gmap string packageFile,
    project lookup defaultMode items acc !! path = Some f ->
    acc !! path = Some f
    \/ exists it d, In it items /\ lookup (Key it) = Some d
                    /\ archivePath it = path
                    /\ f = {| data := d; mode := itemMode defaultMode it |}.
Proof.
  induction items as [|it items IH]; intros acc Hf; [left; exact Hf|].
  rewrite project_cons in Hf. apply IH in Hf.
  destruct Hf as [Hacc|(w & d & Hin & Hv & Hp & ->)].
  - destruct (lookup (Key it)) as [d|] eqn:E; [|auto].
    unfold putItem in Hacc.
    destruct (decide (archivePath it = path)) as [Hp|Hp].
    + rewrite Hp, lookup_insert_eq in Hacc. injection Hacc as <-.
      right. exists it, d. auto using in_eq.
    + rewrite lookup_insert_ne in Hacc by exact Hp. auto.
  - right. exists w, d. auto using in_cons.
Qed.

End ProjectMore.

Section ProjectionExtras.
Import strings api v1 server specdeploy.

Context (range : forall V : Type, gmap string V -> list (string * V)).
Context (range_perm :
  forall (V : Type) (m : gmap string V), range V m ≡ₚ map_to_list m).

Lemma firstMissing_inv (lookup : string -> option (list byte))
    (items : list KeyToPath) :
  match firstMissing lookup items with
  | Some it => In it items /\ lookup (Key it) = None
  | None => forall it, In it items -> lookup (Key it) <> None
  end.
Proof.
  induction items as [|it items IH]; [intros it []|].
  rewrite firstMissing_cons. destruct (lookup (Key it)) as [d|] eqn:E.
  - destruct (firstMissing lookup items) as [w|].
    + destruct IH as [Hin Hn]. split; [right; exact Hin | exact Hn].
    + intros w [<-|Hin]; [congruence | apply IH, Hin].
  - split; [left; reflexivity | exact E].
Qed.

Lemma firstMissing_first (lookup : string -> option (list byte))
    (pre post : list KeyToPath) (item : KeyToPath) :
  (forall it, In it pre -> lookup (Key it) <> None) ->
  lookup (Key item) = None ->
  firstMissing lookup (pre ++ item :: post) = Some item.
Proof.
  intros Hpre Hnone. induction pre as [|it pre IH]; simpl app.
  - rewrite firstMissing_cons, Hnone. reflexivity.
  - rewrite firstMissing_cons.
    destruct (lookup (Key it)) eqn:E.
    + apply IH. intros w Hw. apply Hpre. right. exact Hw.
    + exfalso. apply (Hpre it); [left; reflexivity | exact E].
Qed.

Lemma getConfigMapFiles_listed (cmVol : ConfigMapVolumeSource)
    (cm : ConfigMap) :
  cmv_Items cmVol <> [] ->
  getConfigMapFiles range cmVol cm
  = configMapItems cmVol cm (modeOrDefault (cmv_DefaultMode cmVol))
      (isOptional (cmv_Optional cmVol)) (cmv_Items cmVol) ∅.
Proof.
  intros Hne. destruct (cmv_Items cmVol) as [|item post] eqn:E; [congruence|].
  exact (getConfigMapFiles_items range cmVol cm item [] post E).
Qed.

Lemma getSecretFiles_listed (secVol : SecretVolumeSource) (sec : Secret) :
  sv_Items secVol <> [] ->
  getSecretFiles range secVol sec
  = secretItems secVol sec (modeOrDefault (sv_DefaultMode secVol))
      (isOptional (sv_Optional secVol)) (sv_Items secVol) ∅.
Proof.
  intros Hne. destruct (sv_Items secVol) as [|item post] eqn:E; [congruence|].
  exact (getSecretFiles_items range secVol sec item [] post E).
Qed.

(** With no items listed, the files of a secret are its entries. *)
Lemma getSecretFiles_all (secVol : SecretVolumeSource) (sec : Secret) :
  sv_Items secVol = [] ->
  getSecretFiles range secVol sec
  = Ok ((fun d => {| data := d;
                     mode := modeOrDefault (sv_DefaultMode secVol) |})
          <$> sec_Data sec).
Proof.
  intros HItems. unfold getSecretFiles. rewrite HItems.
  cbn [List.length Nat.eqb].
  change (match sv_DefaultMode secVol with
          | Some m => m
          | None => defaultVolumeFileMode
          end) with (modeOrDefault (sv_DefaultMode secVol)).
  set (items := map (fun kv => keyItem kv.1) (range _ (sec_Data sec))).
  assert (Hitems : forall it, In it items <->
            exists k, it = keyItem k /\ is_Some (sec_Data sec !! k))
    by (intros it; apply (keyItems_In range range_perm)).
  rewrite secretItems_project, firstMissing_none.
  2:{ intros it Hin. apply Hitems in Hin as (k & -> & Hk).
      apply not_eq_None_Some. exact Hk. }
  replace (project (secretValue sec) (modeOrDefault (sv_DefaultMode secVol))
             items ∅)
    with ((fun d => {| data := d;
                       mode := modeOrDefault (sv_DefaultMode secVol) |})
            <$> sec_Data sec).
  { destruct (match sv_Optional secVol with Some b => b | None => false end);
      reflexivity. }
  apply map_eq. intros k. rewrite lookup_fmap. symmetry.
  destruct (sec_Data sec !! k) as [d|] eqn:Ev; simpl.
  - apply project_agree.
    + intros it d' Hin Hd' Hp. apply Hitems in Hin as (k' & -> & _).
      cbn in Hp, Hd'. subst k'. unfold secretValue in Hd'.
      rewrite Ev in Hd'. injection Hd' as <-. reflexivity.
    + right. exists (keyItem k). split; [|split; [|reflexivity]].
      * apply Hitems. exists k. split; [reflexivity | rewrite Ev; eauto].
      * cbn. unfold secretValue. rewrite Ev. discriminate.
  - rewrite project_other; [apply lookup_empty|].
    intros it Hin Hv Hp. apply Hitems in Hin as (k' & -> & _).
    cbn in Hp, Hv. subst k'. unfold secretValue in Hv. contradiction.
Qed.

(** X1: for every secret volume source with an empty [Items] list,
    [getSecretFiles] returns exactly one file per key of the secret's
    [Data], stored at the key, holding the raw bytes of the key, with mode
    [DefaultMode] when that is not nil and 0644 otherwise. *)
Theorem X1_getSecretFiles_all_keys
    (secVol : SecretVolumeSource) (sec : Secret) :
  sv_Items secVol = [] ->
  exists files,
    getSecretFiles range secVol sec = Ok files
    /\ dom files = dom (sec_Data sec)
    /\ forall k d,
         sec_Data sec !! k = Some d ->
         files !! k
         = Some {| data := d; mode := modeOrDefault (sv_DefaultMode secVol) |}.
Proof.
  intros HItems. eexists. split; [apply getSecretFiles_all, HItems|].
  split; [apply dom_fmap_L|].
  intros k d Hd. rewrite lookup_fmap, Hd. reflexivity.
Qed.

(** X2: when items are listed, [getConfigMapFiles] projects the listed
    keys only: a path holds a file exactly when a listed item with a
    value stores there (at [item.Path], or at [item.Key] when the path is
    empty), and every file is the value of such an item with the mode of
    the item, or the default mode when the item has none. *)
Theorem X2_getConfigMapFiles_listed_only
    (cmVol : ConfigMapVolumeSource) (cm : ConfigMap)
    (files : gmap string packageFile) :
  cmv_Items cmVol <> [] ->
  getConfigMapFiles range cmVol cm = Ok files ->
  (forall path,
      is_Some (files !! path)
      <-> exists it, In it (cmv_Items cmVol)
                     /\ configMapValue cm (Key it) <> None
                     /\ archivePath it = path)
  /\ (forall path f,
        files !! path = Some f ->
        exists it d,
          In it (cmv_Items cmVol)
          /\ configMapValue cm (Key it) = Some d
          /\ archivePath it = path
          /\ f = {| data := d;
                    mode := itemMode (modeOrDefault (cmv_DefaultMode cmVol))
                              it |}).
Proof.
  intros Hne Hget. rewrite (getConfigMapFiles_listed _ _ Hne) in Hget.
  rewrite configMapItems_project in Hget.
  destruct (if isOptional (cmv_Optional cmVol) then None
            else firstMissing (configMapValue cm) (cmv_Items cmVol));
    [discriminate|].
  injection Hget as <-. split.
  - intros path. rewrite project_is_Some, lookup_empty.
    split; [intros [[x [=]]|H]; exact H | auto].
  - intros path f Hf. apply project_Some in Hf.
    rewrite lookup_empty in Hf. destruct Hf as [[=]|H]. exact H.
Qed.

(** X3: the same for [getSecretFiles]: with items listed, only the listed
    keys of the secret are projected, each at its archive path with its
    mode. *)
Theorem X3_getSecretFiles_listed_only
    (secVol : SecretVolumeSource) (sec : Secret)
    (files : gmap string packageFile) :
  sv_Items secVol <> [] ->
  getSecretFiles range secVol sec = Ok files ->
  (forall path,
      is_Some (files !! path)
      <-> exists it, In it (sv_Items secVol)
                     /\ sec_Data sec !! Key it <> None
                     /\ archivePath it = path)
  /\ (forall path f,
        files !! path = Some f ->
        exists it d,
          In it (sv_Items secVol)
          /\ sec_Data sec !! Key it = Some d
          /\ archivePath it = path
          /\ f = {| data := d;
                    mode := itemMode (modeOrDefault (sv_DefaultMode secVol))
                              it |}).
Proof.
  intros Hne Hget. rewrite (getSecretFiles_listed _ _ Hne) in Hget.
  rewrite secretItems_project in Hget.
  destruct (if isOptional (sv_Optional secVol) then None
            else firstMissing (secretValue sec) (sv_Items secVol));
    [discriminate|].
  injection Hget as <-. split.
  - intros path. rewrite project_is_Some, lookup_empty.
    split; [intros [[x [=]]|H]; exact H | auto].
  - intros path f Hf. apply project_Some in Hf.
    rewrite lookup_empty in Hf. destruct Hf as [[=]|H]. exact H.
Qed.

End ProjectionExtras.

Section ProjectionErrors.
Import strings api v1 server specdeploy.

Context (range : forall V : Type, gmap string V -> list (string * V)).
Context (range_perm :
  forall (V : Type) (m : gmap string V), range V m ≡ₚ map_to_list m).

(** X4: [getConfigMapFiles] fails exactly when the source is not marked
    optional and some listed item has its key in neither [Data] nor
    [BinaryData]; in particular an optional source, and a source that
    lists no items, never fail. *)
Theorem X4_getConfigMapFiles_fails_iff
    (cmVol : ConfigMapVolumeSource) (cm : ConfigMap) :
  (exists err, getConfigMapFiles range cmVol cm = Err err)
  <-> isOptional (cmv_Optional cmVol) = false
      /\ exists it, In it (cmv_Items cmVol)
                    /\ cm_Data cm !! Key it = None
                    /\ cm_BinaryData cm !! Key it = None.
Proof.
  assert (Hval : forall k, configMapValue cm k = None
                           <-> cm_Data cm !! k = None
                               /\ cm_BinaryData cm !! k = None).
  { intros k. unfold configMapValue.
    destruct (cm_Data cm !! k); split; try tauto; try discriminate.
    intros [[=] _]. }
  destruct (cmv_Items cmVol) as [|item post] eqn:E.
  - destruct (getConfigMapFiles_all range range_perm cmVol cm E)
      as (files & -> & _).
    split; [intros [err [=]] | intros [_ (it & [] & _)]].
  - rewrite <- E.
    rewrite getConfigMapFiles_listed by (rewrite E; discriminate).
    rewrite configMapItems_project.
    pose proof (firstMissing_inv (configMapValue cm) (cmv_Items cmVol)) as Hf.
    destruct (isOptional (cmv_Optional cmVol)).
    + split; [intros [err [=]] | intros [[=] _]].
    + destruct (firstMissing (configMapValue cm) (cmv_Items cmVol)) as [w|].
      * destruct Hf as [Hin Hn]. apply Hval in Hn. split; [|eauto].
        intros _. split; [reflexivity|]. exists w. tauto.
      * split; [intros [err [=]]|].
        intros [_ (it & Hin & Hn)]. apply Hval in Hn.
        elim (Hf it Hin Hn).
Qed.

(** X5: [getSecretFiles] fails exactly when the source is not marked
    optional and some listed item has a key the secret's [Data] lacks. *)
Theorem X5_getSecretFiles_fails_iff
    (secVol : SecretVolumeSource) (sec : Secret) :
  (exists err, getSecretFiles range secVol sec = Err err)
  <-> isOptional (sv_Optional secVol) = false
      /\ exists it, In it (sv_Items secVol) /\ sec_Data sec !! Key it = None.
Proof.
  destruct (sv_Items secVol) as [|item post] eqn:E.
  - rewrite (getSecretFiles_all range range_perm secVol sec E).
    split; [intros [err [=]] | intros [_ (it & [] & _)]].
  - rewrite <- E.
    rewrite getSecretFiles_listed by (rewrite E; discriminate).
    rewrite secretItems_project.
    pose proof (firstMissing_inv (secretValue sec) (sv_Items secVol)) as Hf.
    destruct (isOptional (sv_Optional secVol)).
    + split; [intros [err [=]] | intros [[=] _]].
    + destruct (firstMissing (secretValue sec) (sv_Items secVol)) as [w|].
      * destruct Hf as [Hin Hn]. split; [|eauto].
        intros _. split; [reflexivity|]. exists w. auto.
      * split; [intros [err [=]]|].
        intros [_ (it & Hin & Hn)]. elim (Hf it Hin Hn).
Qed.

(** X6: the error of a projection that is not optional names the first
    listed item, in the order of the list, whose key is missing: the items
    before it have values and nothing after it is looked at.  After the
    word [volume] the message carries the name held by the volume source,
    [cmVol.Name] or [secVol.SecretName] (the name of the configmap or
    secret referred to, not the name of the pod's volume), then the
    namespace and the name of the object, then the key. *)
Theorem X6_missing_key_is_first :
  (forall (cmVol : ConfigMapVolumeSource) (cm : ConfigMap)
          (pre post : list KeyToPath) (item : KeyToPath),
      isOptional (cmv_Optional cmVol) = false ->
      cmv_Items cmVol = (pre ++ item :: post)%list ->
      (forall it, In it pre -> configMapValue cm (Key it) <> None) ->
      configMapValue cm (Key item) = None ->
      getConfigMapFiles range cmVol cm
      = Err (missingKeyError (cmv_Name cmVol) (cm_Namespace cm) (cm_Name cm)
               (Key item)))
  /\ (forall (secVol : SecretVolumeSource) (sec : Secret)
             (pre post : list KeyToPath) (item : KeyToPath),
        isOptional (sv_Optional secVol) = false ->
        sv_Items secVol = (pre ++ item :: post)%list ->
        (forall it, In it pre -> sec_Data sec !! Key it <> None) ->
        sec_Data sec !! Key item = None ->
        getSecretFiles range secVol sec
        = Err (missingKeyError (sv_SecretName secVol) (sec_Namespace sec)
                 (sec_Name sec) (Key item))).
Proof.
  split.
  - intros cmVol cm pre post item Hopt HItems Hpre Hnone.
    rewrite (getConfigMapFiles_items _ _ _ _ _ _ HItems).
    rewrite configMapItems_project, Hopt.
    rewrite (firstMissing_first _ pre post item Hpre Hnone). reflexivity.
  - intros secVol sec pre post item Hopt HItems Hpre Hnone.
    rewrite (getSecretFiles_items _ _ _ _ _ _ HItems).
    rewrite secretItems_project, Hopt.
    rewrite (firstMissing_first (secretValue sec) pre post item Hpre Hnone).
    reflexivity.
Qed.

(** X7: when several listed items store at the same archive path, the last
    one with a value decides the file: its bytes (the [BinaryData] entry
    when [Data] has none for a configmap) and its mode. *)
Theorem X7_last_item_wins :
  (forall (cmVol : ConfigMapVolumeSource) (cm : ConfigMap)
          (pre post : list KeyToPath) (item : KeyToPath) (d : list byte)
          (files : gmap string packageFile),
      cmv_Items cmVol = (pre ++ item :: post)%list ->
      configMapValue cm (Key item) = Some d ->
      (forall it, In it post -> configMapValue cm (Key it) <> None ->
                  archivePath it <> archivePath item) ->
      getConfigMapFiles range cmVol cm = Ok files ->
      files !! archivePath item
      = Some {| data := d;
                mode := itemMode (modeOrDefault (cmv_DefaultMode cmVol))
                          item |})
  /\ (forall (secVol : SecretVolumeSource) (sec : Secret)
             (pre post : list KeyToPath) (item : KeyToPath) (d : list byte)
             (files : gmap string packageFile),
        sv_Items secVol = (pre ++ item :: post)%list ->
        sec_Data sec !! Key item = Some d ->
        (forall it, In it post -> sec_Data sec !! Key it <> None ->
                    archivePath it <> archivePath item) ->
        getSecretFiles range secVol sec = Ok files ->
        files !! archivePath item
        = Some {| data := d;
                  mode := itemMode (modeOrDefault (sv_DefaultMode secVol))
                            item |}).
Proof.
  split.
  - intros cmVol cm pre post item d files HItems Hd Hpost Hget.
    rewrite (getConfigMapFiles_items _ _ _ _ _ _ HItems) in Hget.
    rewrite configMapItems_project in Hget.
    destruct (if isOptional (cmv_Optional cmVol) then None
              else firstMissing (configMapValue cm) (pre ++ item :: post));
      [discriminate|].
    injection Hget as <-. apply project_last; assumption.
  - intros secVol sec pre post item d files HItems Hd Hpost Hget.
    rewrite (getSecretFiles_items _ _ _ _ _ _ HItems) in Hget.
    rewrite secretItems_project in Hget.
    destruct (if isOptional (sv_Optional secVol) then None
              else firstMissing (secretValue sec) (pre ++ item :: post));
      [discriminate|].
    injection Hget as <-. apply project_last; assumption.
Qed.

End ProjectionErrors.

(** ** Names of the tar entries *)

Section EntryNames.
Import strings api v1 server specdeploy specextra.

(** X8: for a package path without a [..] element, the tar entry stays
    under [ROOTFS]: its name is [ROOTFS] followed by the elements of the
    path that are neither empty nor [.], so an absolute path, a doubled
    slash or a trailing slash are absorbed. *)
Theorem X8_entry_under_ROOTFS (path : string) (file : packageFile) :
  Forall (fun e => e <> "..") (Split path "/"%char) ->
  tar.Name (fileHeader path file)
  = Join ("ROOTFS" :: List.filter keptElem (Split path "/"%char)) "/"
  /\ (tar.Name (fileHeader path file) = "ROOTFS"
      \/ hasPrefix (tar.Name (fileHeader path file)) "ROOTFS/" = true).
Proof.
  intros Hdd. cbn [fileHeader tar.Name].
  rewrite Join_ROOTFS_unfold, (cleanElems_kept false _ Hdd).
  rewrite rev_app_distr, rev_involutive. cbn [rev app].
  destruct (List.filter keptElem (Split path "/")) as [|e es].
  - split; [reflexivity | left; reflexivity].
  - split; [reflexivity | right; reflexivity].
Qed.

Lemma Join_clean_prefix (elems : list string) :
  Forall (fun e => cleanElem e = true) elems ->
  hasPrefix (Join elems "/") "/" = false
  /\ hasPrefix (Join elems "/") "./" = false.
Proof.
  intros Hall. destruct elems as [|e rest]; [split; reflexivity|].
  inversion Hall as [|? ? He _]; subst.
  apply cleanElem_inv in He as (c & e' & -> & Hc & Hdot).
  assert (Hhead : exists tail, Join (String c e' :: rest) "/"
                               = String c (e' +:+ tail)).
  { destruct rest as [|e2 rest].
    - exists "". simpl. rewrite append_empty_r. reflexivity.
    - exists ("/" +:+ Join (e2 :: rest) "/"). reflexivity. }
  destruct Hhead as (tail & ->). cbn [hasPrefix].
  apply Ascii.eqb_neq in Hc. rewrite Hc. split; [reflexivity|].
  destruct (Ascii.eqb_spec c ".") as [->|_]; [|reflexivity].
  destruct (Hdot eq_refl) as (c2 & e2 & -> & Hc2).
  rewrite append_cons. cbn [hasPrefix andb].
  apply Ascii.eqb_neq in Hc2. rewrite Hc2. reflexivity.
Qed.

(** X9: whatever the package path, the name of its tar entry is not empty,
    is not absolute and does not start with [./]. *)
Theorem X9_entry_name_relative (path : string) (file : packageFile) :
  tar.Name (fileHeader path file) <> ""
  /\ hasPrefix (tar.Name (fileHeader path file)) "/" = false
  /\ hasPrefix (tar.Name (fileHeader path file)) "./" = false.
Proof.
  cbn [fileHeader tar.Name]. rewrite Join_ROOTFS_unfold. cbv zeta.
  assert (Hclean : Forall (fun e => cleanElem e = true)
                     (rev (filepath.cleanElems false (Split path "/"%char)
                             ["ROOTFS"]))).
  { apply Forall_rev, cleanElems_clean.
    - apply (Split_fields "/"%char).
    - repeat constructor. }
  destruct (Join_clean_prefix _ Hclean) as [Hslash Hdot].
  destruct (String.eqb_spec
              (Join (rev (filepath.cleanElems false (Split path "/"%char)
                            ["ROOTFS"])) "/") "") as [Heq|Hne].
  - repeat split; discriminate.
  - auto.
Qed.

End EntryNames.

(** ** The calls made to the cell agent *)

Section DeployCalls.
Import strings api v1 server specdeploy specextra.

Context (range : forall V : Type, gmap string V -> list (string * V)).
Context (range_perm :
  forall (V : Type) (m : gmap string V), range V m ≡ₚ map_to_list m).

(** Deploying the files of a volume makes exactly one call, whatever the
    cell agent answers, unless the package cannot be built: it then fails
    without a call. *)
Lemma deployFiles_call (client : ItzoClient) (pod : Pod) (volName : string)
    (packageFiles : gmap string packageFile) (calls : list deployCall) :
  (exists err,
      deployFiles range client pod volName packageFiles calls
      = (Some err, calls))
  \/ exists r payload,
       deployFiles range client pod volName packageFiles calls
       = (r, (calls ++ [{| dc_pod := pod_Name pod; dc_volume := volName;
                           dc_payload := payload |}])%list).
Proof.
  unfold deployFiles.
  destruct (makeDeployPackage range packageFiles) as [payload|err];
    [right | left; eauto].
  destruct (Deploy client _ _ _); eauto.
Qed.

(** One volume: a volume without source makes no call and no error; a
    volume with a source makes at most one call, for itself, and exactly
    one when it succeeds. *)
Lemma deployVolume_calls (pod : Pod) (rm : ResourceManager)
    (client : ItzoClient) (vol : Volume) (calls : list deployCall) :
  exists r done,
    deployVolume range pod rm client vol calls = (r, (calls ++ done)%list)
    /\ (done = []
        \/ hasSource vol = true
           /\ map callTarget done = [(pod_Name pod, vol_Name vol)])
    /\ (r = None ->
        map callTarget done
        = if hasSource vol then [(pod_Name pod, vol_Name vol)] else []).
Proof.
  assert (Hstop : forall err : error,
            hasSource vol = true ->
            exists r done,
              (Some err, calls) = (r, (calls ++ done)%list)
              /\ (done = []
                  \/ hasSource vol = true
                     /\ map callTarget done = [(pod_Name pod, vol_Name vol)])
              /\ (r = None ->
                  map callTarget done
                  = if hasSource vol then [(pod_Name pod, vol_Name vol)]
                    else [])).
  { intros err Hsrc. exists (Some err), [].
    rewrite app_nil_r. split; [reflexivity|]. split; [left; reflexivity|].
    discriminate. }
  assert (Hfiles : forall files,
            hasSource vol = true ->
            exists r done,
              deployFiles range client pod (vol_Name vol) files calls
              = (r, (calls ++ done)%list)
              /\ (done = []
                  \/ hasSource vol = true
                     /\ map callTarget done = [(pod_Name pod, vol_Name vol)])
              /\ (r = None ->
                  map callTarget done
                  = if hasSource vol then [(pod_Name pod, vol_Name vol)]
                    else [])).
  { intros files Hsrc.
    destruct (deployFiles_call client pod (vol_Name vol) files calls)
      as [(err & ->)|(r & payload & ->)]; [apply Hstop, Hsrc|].
    eexists r, _. split; [reflexivity|]. rewrite Hsrc.
    split; [right; split; reflexivity | reflexivity]. }
  unfold deployVolume.
  destruct (vol_ConfigMap vol) as [cmVol|] eqn:Ecm.
  - assert (Hsrc : hasSource vol = true) by (unfold hasSource; rewrite Ecm; reflexivity).
    destruct (GetConfigMap rm _ _) as [cm|err].
    + destruct (getConfigMapFiles range cmVol cm); auto.
    + destruct (negb _); [auto|].
      destruct (getConfigMapFiles range cmVol _); auto.
  - destruct (vol_Secret vol) as [secVol|] eqn:Esec.
    + assert (Hsrc : hasSource vol = true)
        by (unfold hasSource; rewrite Ecm, Esec; reflexivity).
      destruct (GetSecret rm _ _) as [sec|err].
      * destruct (getSecretFiles range secVol sec); auto.
      * destruct (negb _); [auto|].
        destruct (getSecretFiles range secVol _); auto.
    + exists None, []. rewrite app_nil_r. split; [reflexivity|].
      split; [left; reflexivity|]. intros _.
      unfold hasSource. rewrite Ecm, Esec. reflexivity.
Qed.

Lemma deployVolumes_calls (pod : Pod) (rm : ResourceManager)
    (client : ItzoClient) (vols : list Volume) :
  forall calls,
  exists r done,
    deployVolumes range pod rm client vols calls = (r, (calls ++ done)%list)
    /\ map callTarget done
       `prefix_of` map (fun v => (pod_Name pod, vol_Name v))
                       (List.filter hasSource vols)
    /\ (r = None ->
        map callTarget done
        = map (fun v => (pod_Name pod, vol_Name v))
              (List.filter hasSource vols)).
Proof.
  induction vols as [|vol vols IH]; intros calls.
  - exists None, []. rewrite app_nil_r. split; [reflexivity|].
    split; [apply prefix_nil | reflexivity].
  - cbn [deployVolumes List.filter].
    destruct (deployVolume_calls pod rm client vol calls)
      as (r1 & done1 & -> & Hdone1 & Hok1).
    destruct r1 as [err|].
    + exists (Some err), done1. split; [reflexivity|].
      split; [|discriminate].
      destruct Hdone1 as [->|[Hsrc ->]]; [apply prefix_nil|].
      rewrite Hsrc. cbn [map]. apply prefix_cons, prefix_nil.
    + specialize (Hok1 eq_refl).
      destruct (IH (calls ++ done1)%list) as (r & done & -> & Hpre & Hok).
      exists r, (done1 ++ done)%list. rewrite app_assoc.
      split; [reflexivity|]. rewrite map_app, Hok1.
      destruct (hasSource vol); cbn [map app].
      * split; [apply prefix_cons, Hpre | intros Hr; f_equal; auto].
      * split; [exact Hpre | exact Hok].
Qed.

(** X10: when [deployPodVolumes] succeeds, it has made exactly one [Deploy]
    call per volume that has a configmap or a secret source, in the order
    of the volumes, each for the pod and under the name of its volume; the
    other volumes are passed over. *)
Theorem X10_deployPodVolumes_success_calls (pod : Pod) (rm : ResourceManager)
    (client : ItzoClient) (calls : list deployCall) :
  deployPodVolumes range pod rm client = (None, calls) ->
  map callTarget calls
  = map (fun v => (pod_Name pod, vol_Name v))
        (List.filter hasSource (pod_Volumes pod)).
Proof.
  unfold deployPodVolumes. intros Hrun.
  destruct (deployVolumes_calls pod rm client (pod_Volumes pod) [])
    as (r & done & Heq & _ & Hok).
  rewrite Hrun in Heq. injection Heq as <- ->. apply Hok. reflexivity.
Qed.

(** X11: when [deployPodVolumes] fails, the calls it has made are those of
    the first volumes with a source, in order: no volume is deployed twice,
    out of order or after the failure. *)
Theorem X11_deployPodVolumes_failure_calls (pod : Pod) (rm : ResourceManager)
    (client : ItzoClient) (err : error) (calls : list deployCall) :
  deployPodVolumes range pod rm client = (Some err, calls) ->
  map callTarget calls
  `prefix_of` map (fun v => (pod_Name pod, vol_Name v))
                  (List.filter hasSource (pod_Volumes pod)).
Proof.
  unfold deployPodVolumes. intros Hrun.
  destruct (deployVolumes_calls pod rm client (pod_Volumes pod) [])
    as (r & done & Heq & Hpre & _).
  rewrite Hrun in Heq. injection Heq as <- ->. exact Hpre.
Qed.

End DeployCalls.

Section DeployErrors.
Import strings api v1 server specdeploy specextra.

Context (range : forall V : Type, gmap string V -> list (string * V)).
Context (range_perm :
  forall (V : Type) (m : gmap string V), range V m ≡ₚ map_to_list m).

(** X12: when the object of a volume is fetched and the source, not marked
    optional, lists a key the object lacks, [deployPodVolumes] returns the
    missing-key error of the first such key, wrapped as a payload error,
    and makes no call for this volume nor for the next ones. *)
Theorem X12_deployPodVolumes_missing_key (pod : Pod) (rm : ResourceManager)
    (client : ItzoClient) (pre post : list Volume) (vol : Volume)
    (calls : list deployCall) :
  pod_Volumes pod = (pre ++ vol :: post)%list ->
  deployVolumes range pod rm client pre [] = (None, calls) ->
  (forall cmVol cm ipre ipost item,
      vol_ConfigMap vol = Some cmVol ->
      GetConfigMap rm (cmv_Name cmVol) (pod_Namespace pod) = Ok cm ->
      isOptional (cmv_Optional cmVol) = false ->
      cmv_Items cmVol = (ipre ++ item :: ipost)%list ->
      (forall it, In it ipre -> configMapValue cm (Key it) <> None) ->
      configMapValue cm (Key item) = None ->
      deployPodVolumes range pod rm client
      = (Some (WrapError
                 (missingKeyError (cmv_Name cmVol) (cm_Namespace cm)
                    (cm_Name cm) (Key item))
                 ("couldn't get configMap payload " +:+ pod_Namespace pod
                  +:+ "/" +:+ cmv_Name cmVol)),
         calls))
  /\ (forall secVol sec ipre ipost item,
        vol_ConfigMap vol = None ->
        vol_Secret vol = Some secVol ->
        GetSecret rm (sv_SecretName secVol) (pod_Namespace pod) = Ok sec ->
        isOptional (sv_Optional secVol) = false ->
        sv_Items secVol = (ipre ++ item :: ipost)%list ->
        (forall it, In it ipre -> sec_Data sec !! Key it <> None) ->
        sec_Data sec !! Key item = None ->
        deployPodVolumes range pod rm client
        = (Some (WrapError
                   (missingKeyError (sv_SecretName secVol) (sec_Namespace sec)
                      (sec_Name sec) (Key item))
                   ("couldn't get secret payload " +:+ pod_Namespace pod
                    +:+ "/" +:+ sv_SecretName secVol)),
           calls)).
Proof.
  intros Hvols Hpre.
  assert (Hrun : deployPodVolumes range pod rm client
                 = match deployVolume range pod rm client vol calls with
                   | (Some e, calls') => (Some e, calls')
                   | (None, calls') =>
                       deployVolumes range pod rm client post calls'
                   end).
  { unfold deployPodVolumes. rewrite Hvols, deployVolumes_app, Hpre.
    reflexivity. }
  rewrite Hrun. split.
  - intros cmVol cm ipre ipost item Hcm Hfetch Hopt HItems Hipre Hnone.
    unfold deployVolume. rewrite Hcm, Hfetch.
    rewrite (getConfigMapFiles_items _ _ _ _ _ _ HItems).
    rewrite configMapItems_project, Hopt.
    rewrite (firstMissing_first _ ipre ipost item Hipre Hnone). reflexivity.
  - intros secVol sec ipre ipost item Hcm Hsec Hfetch Hopt HItems Hipre
      Hnone.
    unfold deployVolume. rewrite Hcm, Hsec, Hfetch.
    rewrite (getSecretFiles_items _ _ _ _ _ _ HItems).
    rewrite secretItems_project, Hopt.
    rewrite (firstMissing_first (secretValue sec) ipre ipost item Hipre
               Hnone).
    reflexivity.
Qed.

(** X13: [deployNetworkAgentToken] does nothing, and reports no error,
    when no kubeconfig is configured.  With one, it makes a single call,
    under the volume name [kubeconfig], whose package holds the serialized
    configuration as the one regular file [ROOTFS/kubeconfig/kubeconfig] of
    mode 0600; when the serialization fails the error is wrapped and no
    call is made. *)
Theorem X13_deployNetworkAgentToken (Config : Type)
    (clientcmd_Write : Config -> result (list byte))
    (pod : Pod) (client : ItzoClient) :
  deployNetworkAgentToken range clientcmd_Write None pod client = (None, [])
  /\ (forall cfg d,
        clientcmd_Write cfg = Ok d ->
        (deployNetworkAgentToken range clientcmd_Write (Some cfg) pod
           client).2
        = [{| dc_pod := pod_Name pod; dc_volume := "kubeconfig";
              dc_payload :=
                gzip.Compressed
                  [({| tar.Name := "ROOTFS/kubeconfig/kubeconfig";
                       tar.Mode := octal 6 0 0;
                       tar.Size := Z.of_nat (List.length d);
                       tar.Typeflag := tar.TypeReg;
                       tar.Uid := 0; tar.Gid := 0 |}, d)] |}])
  /\ (forall cfg err,
        clientcmd_Write cfg = Err err ->
        deployNetworkAgentToken range clientcmd_Write (Some cfg) pod client
        = (Some (WrapError err
                   ("error serializing network agent kubeconfig for "
                    +:+ pod_Name pod)), [])).
Proof.
  split; [reflexivity|]. split.
  - intros cfg d Hd. unfold deployNetworkAgentToken.
    rewrite Hd, (makeDeployPackage_singleton range range_perm)
      by apply kubeconfig_encodable.
    destruct (Deploy client _ _ _); reflexivity.
  - intros cfg err Herr. unfold deployNetworkAgentToken. rewrite Herr.
    reflexivity.
Qed.

(** X14: [deployResolvconf] fails without any call when there is no DNS
    configurer, when the pod cannot be converted and when the DNS
    configuration cannot be computed.  Otherwise it makes one call whose
    package holds the resolv.conf text as the one regular file
    [ROOTFS/etc/resolv.conf] of mode 0644: the absolute path is re-rooted
    under [ROOTFS]; and it returns the error of the cell agent, wrapped,
    or none. *)
Theorem X14_deployResolvconf (K8sPod : Type)
    (milpaToK8sPod : Pod -> result K8sPod) (pod : Pod)
    (client : ItzoClient) :
  deployResolvconf range milpaToK8sPod pod None client
  = (Some (Errorf "no DNS configurer"), [])
  /\ (forall GetPodDNS err,
        milpaToK8sPod pod = Err err ->
        deployResolvconf range milpaToK8sPod pod (Some GetPodDNS) client
        = (Some (WrapError err "converting pod to generate DNS config"), []))
  /\ (forall GetPodDNS k8spod err,
        milpaToK8sPod pod = Ok k8spod ->
        GetPodDNS k8spod = Err err ->
        deployResolvconf range milpaToK8sPod pod (Some GetPodDNS) client
        = (Some (WrapError err "creating pod DNS config"), []))
  /\ (forall GetPodDNS k8spod dnsconf,
        milpaToK8sPod pod = Ok k8spod ->
        GetPodDNS k8spod = Ok dnsconf ->
        let text := bytes (resolvconfText dnsconf) in
        let payload :=
          gzip.Compressed
            [({| tar.Name := "ROOTFS/etc/resolv.conf";
                 tar.Mode := octal 6 4 4;
                 tar.Size := Z.of_nat (List.length text);
                 tar.Typeflag := tar.TypeReg;
                 tar.Uid := 0; tar.Gid := 0 |}, text)] in
        deployResolvconf range milpaToK8sPod pod (Some GetPodDNS) client
        = (match Deploy client (pod_Name pod) "resolvconf" payload with
           | Some err =>
               Some (WrapError err
                       ("error deploying resolv.conf package to "
                        +:+ pod_Name pod))
           | None => None
           end,
           [{| dc_pod := pod_Name pod; dc_volume := "resolvconf";
               dc_payload := payload |}])).
Proof.
  split; [reflexivity|]. split; [|split].
  - intros GetPodDNS err Herr. unfold deployResolvconf. rewrite Herr.
    reflexivity.
  - intros GetPodDNS k8spod err Hpod Herr. unfold deployResolvconf.
    rewrite Hpod, Herr. reflexivity.
  - intros GetPodDNS k8spod dnsconf Hpod Hdns text payload.
    unfold deployResolvconf.
    rewrite Hpod, Hdns, createResolvconf_text.
    rewrite (makeDeployPackage_singleton range range_perm)
      by apply resolvconf_encodable.
    change (gzip.Compressed _) with payload.
    unfold resolvconfVolumeName.
    destruct (Deploy client _ _ _); reflexivity.
Qed.

End DeployErrors.

(** ** Boot image tags, further *)

Section TagsExtras.
Import strings cloud speccloud.

(** X15: for every string made of exactly five fields separated by
    hyphens, [String] after [Set] gives the string back, whatever the
    receiver held. *)
Theorem X15_String_Set_roundtrip (bit0 : BootImageTags) (s : string) :
  List.length (Split s "-"%char) = 5%nat ->
  String_ (Set_ bit0 s) = s.
Proof.
  intros Hlen. pose proof (Join_Split "-"%char s) as HJ.
  destruct (Split s "-"%char) as [|c [|p [|v [|d [|t [|x rest]]]]]] eqn:E;
    try discriminate Hlen.
  rewrite (Set_five bit0 s c p v d t E). exact HJ.
Qed.

(** X16: [Set] overwrites the leading fields of the receiver with the
    fields of the string, in order, keeps the other fields of the receiver
    when the string has fewer than five fields, and ignores the fields of
    the string beyond the fifth. *)
Theorem X16_Set_fields (bit : BootImageTags) (s : string) :
  fields (Set_ bit s)
  = firstn 5 (Split s "-"%char
              ++ skipn (List.length (Split s "-"%char)) (fields bit))%list.
Proof.
  unfold Set_.
  destruct (Split s "-"%char) as [|c [|p [|v [|d [|t rest]]]]];
    destruct bit; reflexivity.
Qed.

(** X17: a request with no field set matches every image, so
    [FilterImages] keeps the whole list; and every tuple matches itself. *)
Theorem X17_empty_request (images : list Image) (bit : BootImageTags) :
  Matches bit noTags = true
  /\ Matches bit bit = true
  /\ FilterImages images noTags = images.
Proof.
  split; [reflexivity|]. split.
  - apply Matches_fieldsMatch. unfold fieldsMatch. tauto.
  - induction images as [|img images IH]; [reflexivity|].
    cbn [FilterImages].
    change (Matches (Set_ noTags (Name img)) noTags) with true.
    cbv iota. rewrite IH. reflexivity.
Qed.

(** X18: [FilterImages] keeps the images in their order, works on a list
    piece by piece, and changes nothing when applied a second time. *)
Theorem X18_FilterImages_stable (l1 l2 : list Image) (tags : BootImageTags) :
  FilterImages l1 tags `sublist_of` l1
  /\ FilterImages (l1 ++ l2) tags
     = (FilterImages l1 tags ++ FilterImages l2 tags)%list
  /\ FilterImages (FilterImages l1 tags) tags = FilterImages l1 tags.
Proof.
  split; [|split].
  - induction l1 as [|img l1 IH]; [constructor|].
    cbn [FilterImages].
    destruct (Matches _ tags); [apply sublist_skip | apply sublist_cons];
      exact IH.
  - induction l1 as [|img l1 IH]; [reflexivity|].
    cbn [FilterImages app].
    destruct (Matches _ tags); [cbn [app]; f_equal|]; exact IH.
  - induction l1 as [|img l1 IH]; [reflexivity|].
    cbn [FilterImages].
    destruct (Matches _ tags) eqn:E; [|exact IH].
    cbn [FilterImages]. rewrite E, IH. reflexivity.
Qed.

(** X19: whatever the timestamps parse to, the comparison that
    [SortImages] hands to [sort.Slice] is a strict weak order, as
    [sort.Slice] requires: no image is less than itself, the comparison is
    transitive, and so is being not less. *)
Theorem X19_imageLess_strict_weak_order
    (time_Parse : string -> string -> result time.Time) :
  strictWeakOrder (cloud.imageLess time_Parse).
Proof. apply imageLess_strictWeakOrder. Qed.

End TagsExtras.

Section BestImage.
Import strings cloud speccloud.

Context (time_Parse : string -> string -> result time.Time).
Context (sort_Slice : forall A : Type, (A -> A -> bool) -> list A -> list A).

Hypothesis sort_Slice_perm :
  forall (A : Type) (less : A -> A -> bool) (l : list A),
    sort_Slice A less l ≡ₚ l.
Hypothesis sort_Slice_sorted :
  forall (A : Type) (less : A -> A -> bool) (l : list A),
    strictWeakOrder less -> sortedBy less (sort_Slice A less l).

Local Abbreviation sortKey := (cloud.sortKey time_Parse).
Local Abbreviation GetBestImage := (cloud.GetBestImage time_Parse sort_Slice).

(** The image returned is a kept image that no kept image exceeds. *)
Lemma GetBestImage_greatest (images : list Image) (tags : BootImageTags)
    (img0 : Image) :
  In img0 (FilterImages images tags) ->
  exists best,
    GetBestImage images tags = Ok (Id best)
    /\ In best (FilterImages images tags)
    /\ forall img, In img (FilterImages images tags) ->
                   keyLe (sortKey img) (sortKey best).
Proof.
  intros Hin0.
  set (matching := FilterImages images tags) in *.
  set (sorted := SortImages time_Parse sort_Slice matching).
  assert (Hperm : sorted ≡ₚ matching) by apply sort_Slice_perm.
  assert (Hsorted : sortedBy (cloud.imageLess time_Parse) sorted)
    by apply sort_Slice_sorted, imageLess_strictWeakOrder.
  destruct (exists_last (l := sorted)) as (init & best & Hlast).
  { intros Hnil. rewrite Hnil in Hperm.
    apply Permutation_nil in Hperm. rewrite Hperm in Hin0. exact Hin0. }
  exists best. split; [|split].
  - unfold cloud.GetBestImage. fold matching. fold sorted. rewrite Hlast.
    rewrite nth_last_app. destruct init; reflexivity.
  - eapply Permutation_in; [exact Hperm|]. rewrite Hlast. apply in_elt.
  - intros img Hin. apply imageLess_false. rewrite Hlast in Hsorted.
    apply (sortedBy_last _ init best (imageLess_strictWeakOrder time_Parse)
             Hsorted).
    rewrite <- Hlast. eapply Permutation_in; [symmetry; exact Hperm|].
    exact Hin.
Qed.

(** X20: when one matching image is strictly newer than every other
    matching image (greater version, or equal version and later
    timestamp), [GetBestImage] returns its id, whatever the order of the
    candidates and whatever images that do not match are among them: two
    lists with the same matching images give the same answer, although
    [sort.Slice] is not stable. *)
Theorem X20_GetBestImage_unique_newest
    (images images' : list Image) (tags : BootImageTags) (best : Image) :
  (forall img, In img (FilterImages images tags)
               <-> In img (FilterImages images' tags)) ->
  In best (FilterImages images tags) ->
  (forall img, In img (FilterImages images tags) ->
               img = best \/ ~ keyLe (sortKey best) (sortKey img)) ->
  GetBestImage images tags = Ok (Id best)
  /\ GetBestImage images' tags = Ok (Id best).
Proof.
  intros Hsame Hbest Hnewest.
  assert (Hone : forall l,
            (forall img, In img (FilterImages images tags)
                         <-> In img (FilterImages l tags)) ->
            GetBestImage l tags = Ok (Id best)).
  { intros l Hl.
    destruct (GetBestImage_greatest l tags best) as (b & -> & Hin & Hmax);
      [apply Hl, Hbest|].
    destruct (Hnewest b) as [->|Hlt]; [apply Hl, Hin | reflexivity|].
    elim Hlt. apply Hmax, Hl, Hbest. }
  split; [apply Hone; tauto | apply Hone, Hsame].
Qed.

End BestImage.

(** ** The cloud-init file, further *)

Section CloudInitExtras.
Import strings cloudinitfile specdeploy speccloudinit.

Context {OtherFields : Type}.
Context (yaml_Marshal : @CloudConfig OtherFields -> result (list byte)).
Context (semverRegex_MatchString : string -> bool).
Context (yaml_MarshalMap : gmap string string -> result (list byte)).
Context (range : forall V : Type, gmap string V -> list (string * V)).
Context (range_perm :
  forall (V : Type) (m : gmap string V), range V m ≡ₚ map_to_list m).

Local Abbreviation File := (@File OtherFields).
Local Abbreviation AddItzoVersion :=
  (cloudinitfile.AddItzoVersion semverRegex_MatchString).
Local Abbreviation itzoVersion :=
  (cloudinitfile.itzoVersion semverRegex_MatchString).
Local Abbreviation AddCellConfig :=
  (cloudinitfile.AddCellConfig yaml_MarshalMap).

Lemma AddKipFile_replace (f : File)
    (content content' path permissions permissions' : string) :
  AddKipFile (AddKipFile f content' path permissions') content path
    permissions
  = AddKipFile f content path permissions.
Proof.
  unfold AddKipFile. cbn [kipFiles userData]. rewrite insert_insert_eq.
  reflexivity.
Qed.

(** X21: [AddKipFile] stores the file under its path, owned by root, with
    the given content and permissions; it replaces the kip file that was
    at this path, and leaves the other kip files and the user's data as
    they were. *)
Theorem X21_AddKipFile (f : File) (content path permissions : string) :
  kipFiles (AddKipFile f content path permissions) !! path
  = Some {| Content := content; Path := path; Owner := "root";
            RawFilePermissions := permissions |}
  /\ (forall path', path' <> path ->
        kipFiles (AddKipFile f content path permissions) !! path'
        = kipFiles f !! path')
  /\ userData (AddKipFile f content path permissions) = userData f
  /\ (forall content' permissions',
        AddKipFile (AddKipFile f content' path permissions') content path
          permissions
        = AddKipFile f content path permissions).
Proof.
  unfold AddKipFile. cbn [kipFiles userData].
  split; [apply lookup_insert_eq|].
  split; [intros path' Hne; apply lookup_insert_ne; congruence|].
  split; [reflexivity|].
  intros content' permissions'. apply AddKipFile_replace.
Qed.

(** X22: after [ResetInstanceData] no kip file is left: the configuration
    that [Contents] marshals is the user's configuration as it was
    loaded, whatever files had been added. *)
Theorem X22_ResetInstanceData (f : File) :
  kipFiles (ResetInstanceData f) = ∅
  /\ mergedConfig range (ResetInstanceData f) = userData f
  /\ Contents yaml_Marshal range (ResetInstanceData f)
     = Contents yaml_Marshal range {| userData := userData f; kipFiles := ∅ |}.
Proof.
  split; [reflexivity|]. split; [|reflexivity].
  unfold mergedConfig, ResetInstanceData. cbn [kipFiles userData].
  rewrite (range_empty range range_perm). cbn [map]. rewrite app_nil_r.
  destruct (userData f). reflexivity.
Qed.

Lemma itzoVersion_not_empty (version : string) :
  version <> "" -> itzoVersion version <> "".
Proof.
  intros Hne. unfold cloudinitfile.itzoVersion.
  destruct (_ && _); [discriminate | exact Hne].
Qed.

(** X23: [AddItzoVersion] leaves the file as it is for the empty version;
    it stores [latest] and a version that starts with [v] unchanged; and
    the version it stores is stable: storing it again, in place of the
    version given, changes nothing, so that no second [v] is ever
    prepended. *)
Theorem X23_AddItzoVersion (f : File) :
  AddItzoVersion f "" = f
  /\ (forall version,
        version = "latest" \/ noLeadingV version = false ->
        itzoVersion version = version)
  /\ (forall version, itzoVersion (itzoVersion version) = itzoVersion version)
  /\ (forall version,
        version <> "" ->
        AddItzoVersion (AddItzoVersion f version) (itzoVersion version)
        = AddItzoVersion f version).
Proof.
  assert (Hidem : forall version,
            itzoVersion (itzoVersion version) = itzoVersion version).
  { intros version.
    assert (Hcases : itzoVersion version = version
                     \/ itzoVersion version = "v" +:+ version).
    { unfold cloudinitfile.itzoVersion. destruct (_ && _); auto. }
    destruct Hcases as [H|H]; rewrite !H; [reflexivity|].
    unfold cloudinitfile.itzoVersion.
    change (noLeadingV ("v" +:+ version)) with false.
    rewrite andb_false_r. reflexivity. }
  split; [reflexivity|]. split; [|split; [exact Hidem|]].
  - intros version [->|Hv]; [reflexivity|].
    unfold cloudinitfile.itzoVersion. rewrite Hv, andb_false_r. reflexivity.
  - intros version Hne. unfold cloudinitfile.AddItzoVersion.
    apply String.eqb_neq in Hne as Hne'. rewrite Hne'.
    pose proof (itzoVersion_not_empty version Hne) as Hne2.
    apply String.eqb_neq in Hne2. rewrite Hne2, Hidem.
    apply AddKipFile_replace.
Qed.

End CloudInitExtras.

Section CloudInitComposition.
Import strings cloudinitfile specdeploy speccloudinit.

Context {OtherFields : Type}.
Context (yaml_Marshal : @CloudConfig OtherFields -> result (list byte)).
Context (semverRegex_MatchString : string -> bool).
Context (yaml_MarshalMap : gmap string string -> result (list byte)).
Context (range : forall V : Type, gmap string V -> list (string * V)).

Local Abbreviation File := (@File OtherFields).
Local Abbreviation AddItzoVersion :=
  (cloudinitfile.AddItzoVersion semverRegex_MatchString).
Local Abbreviation AddCellConfig :=
  (cloudinitfile.AddCellConfig yaml_MarshalMap).

Lemma AddKipFile_commute (f : File)
    (content1 path1 permissions1 content2 path2 permissions2 : string) :
  path1 <> path2 ->
  AddKipFile (AddKipFile f content1 path1 permissions1) content2 path2
    permissions2
  = AddKipFile (AddKipFile f content2 path2 permissions2) content1 path1
      permissions1.
Proof.
  intros Hne. unfold AddKipFile. cbn [kipFiles userData]. f_equal.
  apply insert_insert_ne. congruence.
Qed.

(** X24: the itzo version, the itzo URL and the cell configuration are
    kept in three different files, so the order in which they are added
    does not matter. *)
Theorem X24_adders_commute (f : File) (version url : string)
    (cfg : gmap string string) :
  AddItzoURL (AddItzoVersion f version) url
  = AddItzoVersion (AddItzoURL f url) version
  /\ AddCellConfig (AddItzoVersion f version) cfg
     = AddItzoVersion (AddCellConfig f cfg) version
  /\ AddCellConfig (AddItzoURL f url) cfg
     = AddItzoURL (AddCellConfig f cfg) url.
Proof.
  unfold cloudinitfile.AddItzoVersion, AddItzoURL,
    cloudinitfile.AddCellConfig.
  destruct (String.eqb version ""), (String.eqb url ""),
    (Nat.eqb (size cfg) 0), (yaml_MarshalMap cfg);
    repeat split; try reflexivity;
    apply AddKipFile_commute; discriminate.
Qed.

(** X25: whenever [Contents] returns bytes, they are the header
    [#cloud-config] and a line feed followed by the YAML of the merged
    configuration, and they are at most 16000 bytes long; an error of the
    YAML marshaller is returned as it is. *)
Theorem X25_Contents_result (f : File) :
  (forall b,
      Contents yaml_Marshal range f = Ok b ->
      exists y,
        yaml_Marshal (mergedConfig range f) = Ok y
        /\ b = (bytes ("#cloud-config" +:+ nl) ++ y)%list
        /\ Z.of_nat (List.length b) <= 16000)
  /\ (forall err,
        yaml_Marshal (mergedConfig range f) = Err err ->
        Contents yaml_Marshal range f = Err err).
Proof.
  unfold Contents. split.
  - intros b Hb. destruct (yaml_Marshal (mergedConfig range f)) as [y|err];
      [|discriminate].
    destruct (Z.ltb_spec maxCloudInitSize
                (Z.of_nat (List.length (cloudInitHeader ++ y))))
      as [Hover|Hfit]; [discriminate|].
    injection Hb as <-. exists y. split; [reflexivity|].
    split; [reflexivity | exact Hfit].
  - intros err ->. reflexivity.
Qed.

(** X26: the kip files of a cloud-init file are always filed under their
    own path and owned by root: this holds after [ResetInstanceData] and
    is kept by [AddKipFile], [AddItzoVersion], [AddItzoURL] and
    [AddCellConfig]. *)
Theorem X26_kip_files_well_formed (f : File) :
  kipWellFormed (ResetInstanceData f)
  /\ (kipWellFormed f ->
      (forall content path permissions,
          kipWellFormed (AddKipFile f content path permissions))
      /\ (forall version, kipWellFormed (AddItzoVersion f version))
      /\ (forall url, kipWellFormed (AddItzoURL f url))
      /\ (forall cfg, kipWellFormed (AddCellConfig f cfg))).
Proof.
  split.
  - intros path wf Hwf. cbn in Hwf. rewrite lookup_empty in Hwf.
    discriminate.
  - intros Hf.
    assert (Hadd : forall content path permissions,
              kipWellFormed (AddKipFile f content path permissions)).
    { intros content path permissions path' wf. unfold AddKipFile.
      cbn [kipFiles]. destruct (decide (path = path')) as [->|Hne].
      - rewrite lookup_insert_eq. intros [= <-]. split; reflexivity.
      - rewrite lookup_insert_ne by exact Hne. apply Hf. }
    split; [exact Hadd|]. split; [|split].
    + intros version. unfold cloudinitfile.AddItzoVersion.
      destruct (String.eqb version ""); [exact Hf | apply Hadd].
    + intros url. unfold AddItzoURL.
      destruct (String.eqb url ""); [exact Hf | apply Hadd].
    + intros cfg. unfold cloudinitfile.AddCellConfig.
      destruct (Nat.eqb (size cfg) 0); [exact Hf|].
      destruct (yaml_MarshalMap cfg); [apply Hadd | exact Hf].
Qed.

End CloudInitComposition.

(** ** The further properties at sample inputs *)

Section ExtraWitnesses.
Import strings api v1 server specdeploy specextra.

Lemma X1_getSecretFiles_all_keys_witness :
  let secVol := {| sv_SecretName := "sec"; sv_Items := [];
                   sv_DefaultMode := Some (octal 4 0 0);
                   sv_Optional := None |} in
  sv_Items secVol = []
  /\ exists files,
       getSecretFiles rangeList secVol samples.sec = Ok files
       /\ dom files = dom (sec_Data samples.sec)
       /\ forall k d,
            sec_Data samples.sec !! k = Some d ->
            files !! k
            = Some {| data := d;
                      mode := modeOrDefault (sv_DefaultMode secVol) |}.
Proof.
  intros secVol. split; [reflexivity|].
  apply (X1_getSecretFiles_all_keys rangeList rangeList_perm secVol
           samples.sec).
  reflexivity.
Defined.

Lemma X2_getConfigMapFiles_listed_only_witness :
  let files : gmap string packageFile :=
    {[ "x/y" := {| data := bytes "A"; mode := octal 6 4 4 |} ]} in
  (cmv_Items (samples.selected true) <> []
   /\ getConfigMapFiles rangeList (samples.selected true) samples.cm
      = Ok files)
  /\ forall path,
       is_Some (files !! path)
       <-> exists it, In it (cmv_Items (samples.selected true))
                      /\ configMapValue samples.cm (Key it) <> None
                      /\ archivePath it = path.
Proof.
  intros files. split; [split; [discriminate | reflexivity]|].
  apply (X2_getConfigMapFiles_listed_only rangeList (samples.selected true)
           samples.cm files); [discriminate | reflexivity].
Defined.

Lemma X3_getSecretFiles_listed_only_witness :
  let files : gmap string packageFile :=
    {[ "token" := {| data := [x74; x6f; x6b]; mode := octal 6 4 4 |} ]} in
  (sv_Items (samples.selectedSecret true) <> []
   /\ getSecretFiles rangeList (samples.selectedSecret true) samples.sec
      = Ok files)
  /\ forall path,
       is_Some (files !! path)
       <-> exists it, In it (sv_Items (samples.selectedSecret true))
                      /\ sec_Data samples.sec !! Key it <> None
                      /\ archivePath it = path.
Proof.
  intros files. split; [split; [discriminate | reflexivity]|].
  apply (X3_getSecretFiles_listed_only rangeList
           (samples.selectedSecret true) samples.sec files);
    [discriminate | reflexivity].
Defined.

Lemma X4_getConfigMapFiles_fails_iff_witness :
  (exists err,
      getConfigMapFiles rangeList (samples.selected false) samples.cm
      = Err err)
  <-> isOptional (cmv_Optional (samples.selected false)) = false
      /\ exists it, In it (cmv_Items (samples.selected false))
                    /\ cm_Data samples.cm !! Key it = None
                    /\ cm_BinaryData samples.cm !! Key it = None.
Proof.
  apply (X4_getConfigMapFiles_fails_iff rangeList rangeList_perm
           (samples.selected false) samples.cm).
Defined.

Lemma X5_getSecretFiles_fails_iff_witness :
  (exists err,
      getSecretFiles rangeList (samples.selectedSecret false) samples.sec
      = Err err)
  <-> isOptional (sv_Optional (samples.selectedSecret false)) = false
      /\ exists it, In it (sv_Items (samples.selectedSecret false))
                    /\ sec_Data samples.sec !! Key it = None.
Proof.
  apply (X5_getSecretFiles_fails_iff rangeList rangeList_perm
           (samples.selectedSecret false) samples.sec).
Defined.

Lemma X6_missing_key_is_first_witness :
  (isOptional (cmv_Optional (samples.selected false)) = false
   /\ cmv_Items (samples.selected false)
      = ([samples.remap] ++ samples.missing :: [])%list
   /\ configMapValue samples.cm (Key samples.missing) = None)
  /\ getConfigMapFiles rangeList (samples.selected false) samples.cm
     = Err (missingKeyError "cm" "default" "cm" "missing").
Proof.
  split; [repeat split; reflexivity|].
  apply (proj1 (X6_missing_key_is_first rangeList) (samples.selected false)
           samples.cm [samples.remap] [] samples.missing);
    try reflexivity.
  intros it [<-|[]]. discriminate.
Defined.

Lemma X7_last_item_wins_witness :
  let early := {| Key := "a"; Path := "f"; Mode := None |} in
  let late := {| Key := "c"; Path := "f"; Mode := Some (octal 4 0 0) |} in
  let cmVol := {| cmv_Name := "cm"; cmv_Items := [early; late];
                  cmv_DefaultMode := None; cmv_Optional := None |} in
  let files : gmap string packageFile :=
    {[ "f" := {| data := [x01; x02]; mode := octal 4 0 0 |} ]} in
  (cmv_Items cmVol = ([early] ++ late :: [])%list
   /\ configMapValue samples.cm (Key late) = Some [x01; x02]
   /\ getConfigMapFiles rangeList cmVol samples.cm = Ok files)
  /\ files !! "f" = Some {| data := [x01; x02]; mode := octal 4 0 0 |}.
Proof.
  intros early late cmVol files. split; [repeat split; reflexivity|].
  apply (proj1 (X7_last_item_wins rangeList) cmVol samples.cm [early] []
           late [x01; x02] files); try reflexivity.
  intros it [].
Defined.

Lemma X8_entry_under_ROOTFS_witness :
  let file := {| data := bytes "A"; mode := octal 6 4 4 |} in
  Forall (fun e => e <> "..") (Split "/etc//resolv.conf" "/"%char)
  /\ tar.Name (fileHeader "/etc//resolv.conf" file)
     = "ROOTFS/etc/resolv.conf".
Proof.
  intros file.
  assert (H : Forall (fun e => e <> "..") (Split "/etc//resolv.conf" "/"%char))
    by (repeat constructor; discriminate).
  split; [exact H|].
  apply (proj1 (X8_entry_under_ROOTFS "/etc//resolv.conf" file H)).
Defined.

End ExtraWitnesses.

Section MoreExtraWitnesses.
Import strings api v1 server specdeploy specextra.

Lemma X10_deployPodVolumes_success_calls_witness :
  let calls :=
    [{| dc_pod := "p"; dc_volume := "config";
        dc_payload := gzip.Compressed [] |};
     {| dc_pod := "p"; dc_volume := "secret";
        dc_payload := gzip.Compressed [] |}] in
  deployPodVolumes rangeList (moresamples.mixedPod true)
    samples.emptyManager samples.agent = (None, calls)
  /\ map callTarget calls
     = map (fun v => (pod_Name (moresamples.mixedPod true), vol_Name v))
           (List.filter hasSource (pod_Volumes (moresamples.mixedPod true))).
Proof.
  intros calls. split; [reflexivity|].
  apply (X10_deployPodVolumes_success_calls rangeList
           (moresamples.mixedPod true) samples.emptyManager samples.agent
           calls).
  reflexivity.
Defined.

Lemma X11_deployPodVolumes_failure_calls_witness :
  let calls :=
    [{| dc_pod := "p"; dc_volume := "config";
        dc_payload := gzip.Compressed [] |}] in
  let err := WrapError samples.notFound "Couldn't get secret default/sec" in
  deployPodVolumes rangeList (moresamples.mixedPod false)
    samples.emptyManager samples.agent = (Some err, calls)
  /\ map callTarget calls
     `prefix_of`
     map (fun v => (pod_Name (moresamples.mixedPod false), vol_Name v))
         (List.filter hasSource (pod_Volumes (moresamples.mixedPod false))).
Proof.
  intros calls err. split; [reflexivity|].
  apply (X11_deployPodVolumes_failure_calls rangeList
           (moresamples.mixedPod false) samples.emptyManager samples.agent
           err calls).
  reflexivity.
Defined.

Lemma X12_deployPodVolumes_missing_key_witness :
  (pod_Volumes (samples.pod false) = ([] ++ samples.volume false :: [])%list
   /\ deployVolumes rangeList (samples.pod false) moresamples.fullManager
        samples.agent [] [] = (None, []))
  /\ deployPodVolumes rangeList (samples.pod false) moresamples.fullManager
       samples.agent
     = (Some (WrapError (missingKeyError "cm" "default" "cm" "missing")
                "couldn't get configMap payload default/cm"), []).
Proof.
  split; [split; reflexivity|].
  apply (proj1 (X12_deployPodVolumes_missing_key rangeList (samples.pod false)
                  moresamples.fullManager samples.agent [] []
                  (samples.volume false) [] eq_refl eq_refl)
           (samples.selected false) samples.cm [samples.remap] []
           samples.missing); try reflexivity.
  intros it [<-|[]]. discriminate.
Defined.

Lemma X13_deployNetworkAgentToken_witness :
  (deployNetworkAgentToken rangeList (fun cfg : string => Ok (bytes cfg))
     (Some "token") (samples.pod true) samples.agent).2
  = [{| dc_pod := "p"; dc_volume := "kubeconfig";
        dc_payload :=
          gzip.Compressed
            [({| tar.Name := "ROOTFS/kubeconfig/kubeconfig";
                 tar.Mode := octal 6 0 0;
                 tar.Size := 5;
                 tar.Typeflag := tar.TypeReg;
                 tar.Uid := 0; tar.Gid := 0 |}, bytes "token")] |}].
Proof.
  apply (proj1 (proj2 (X13_deployNetworkAgentToken rangeList rangeList_perm
                         string (fun cfg => Ok (bytes cfg)) (samples.pod true)
                         samples.agent)) "token" (bytes "token")).
  reflexivity.
Defined.

Lemma X14_deployResolvconf_witness :
  deployResolvconf rangeList (fun pod => Ok pod) (samples.pod true)
    (Some (fun _ => Ok samples.dnsconf)) samples.agent
  = (None,
     [{| dc_pod := "p"; dc_volume := "resolvconf";
         dc_payload :=
           gzip.Compressed
             [({| tar.Name := "ROOTFS/etc/resolv.conf";
                  tar.Mode := octal 6 4 4;
                  tar.Size :=
                    Z.of_nat (List.length
                                (bytes (resolvconfText samples.dnsconf)));
                  tar.Typeflag := tar.TypeReg;
                  tar.Uid := 0; tar.Gid := 0 |},
               bytes (resolvconfText samples.dnsconf))] |}]).
Proof.
  apply (proj2 (proj2 (proj2
           (X14_deployResolvconf rangeList rangeList_perm Pod
              (fun pod => Ok pod) (samples.pod true) samples.agent)))
           (fun _ => Ok samples.dnsconf) (samples.pod true) samples.dnsconf);
    reflexivity.
Defined.

End MoreExtraWitnesses.

Section CloudExtraWitnesses.
Import strings cloud speccloud.

Lemma X15_String_Set_roundtrip_witness :
  List.length (Split "kip-itzo-2-20240601-010000" "-"%char) = 5%nat
  /\ String_ (Set_ noTags "kip-itzo-2-20240601-010000")
     = "kip-itzo-2-20240601-010000".
Proof.
  split; [reflexivity|].
  apply (X15_String_Set_roundtrip noTags "kip-itzo-2-20240601-010000").
  reflexivity.
Defined.

Lemma X20_GetBestImage_unique_newest_witness :
  let images := [moresamples.first; moresamples.second; moresamples.third] in
  let images' := [moresamples.other; moresamples.third; moresamples.first;
                  moresamples.second] in
  GetBestImage parseTimestamp insertionSort images moresamples.itzo
  = Ok "third"
  /\ GetBestImage parseTimestamp insertionSort images' moresamples.itzo
     = Ok "third".
Proof.
  intros images images'.
  apply (X20_GetBestImage_unique_newest parseTimestamp insertionSort
           (fun A less l => insertionSort_perm less l)
           (fun A less l => insertionSort_sorted less l)
           images images' moresamples.itzo moresamples.third).
  - intros img. vm_compute. tauto.
  - vm_compute. tauto.
  - intros img Hin. vm_compute in Hin.
    destruct Hin as [<-|[<-|[<-|[]]]];
      [right | right | left; reflexivity];
      unfold keyLe; intros Hle;
      repeat match type of Hle with
             | context [cloud.sortKey ?p ?i] =>
                 let k := eval vm_compute in (cloud.sortKey p i) in
                 change (cloud.sortKey p i) with k in Hle
             end;
      cbn [fst snd] in Hle; lia.
Defined.

End CloudExtraWitnesses.

Section CloudInitExtraWitnesses.
Import strings cloudinitfile specdeploy speccloudinit.

Lemma X21_AddKipFile_witness :
  "/tmp/itzo/itzo_url" <> "/tmp/itzo/itzo_version"
  /\ kipFiles (AddKipFile examples.sampleFile "v2" "/tmp/itzo/itzo_version"
                 "0444") !! "/tmp/itzo/itzo_url"
     = kipFiles examples.sampleFile !! "/tmp/itzo/itzo_url".
Proof.
  split; [discriminate|].
  apply (proj1 (proj2 (X21_AddKipFile examples.sampleFile "v2"
                         "/tmp/itzo/itzo_version" "0444"))).
  discriminate.
Defined.

Lemma X22_ResetInstanceData_witness :
  mergedConfig rangeList (ResetInstanceData examples.sampleFile)
  = userData examples.sampleFile.
Proof.
  apply (proj1 (proj2 (X22_ResetInstanceData examples.sampleMarshal rangeList
                         rangeList_perm examples.sampleFile))).
Defined.

Lemma X23_AddItzoVersion_witness :
  "1.2.3" <> ""
  /\ itzoVersion moreexamples.sampleSemver "1.2.3" = "v1.2.3"
  /\ AddItzoVersion moreexamples.sampleSemver
       (AddItzoVersion moreexamples.sampleSemver examples.sampleFile "1.2.3")
       (itzoVersion moreexamples.sampleSemver "1.2.3")
     = AddItzoVersion moreexamples.sampleSemver examples.sampleFile "1.2.3".
Proof.
  split; [discriminate|]. split; [reflexivity|].
  apply (proj2 (proj2 (proj2 (X23_AddItzoVersion moreexamples.sampleSemver
                                examples.sampleFile))) "1.2.3").
  discriminate.
Defined.

Lemma X25_Contents_result_witness :
  exists b y,
    Contents examples.sampleMarshal rangeList examples.sampleFile = Ok b
    /\ examples.sampleMarshal (mergedConfig rangeList examples.sampleFile)
       = Ok y
    /\ b = (bytes ("#cloud-config" +:+ nl) ++ y)%list
    /\ Z.of_nat (List.length b) <= 16000.
Proof.
  assert (Hb : exists b,
             Contents examples.sampleMarshal rangeList examples.sampleFile
             = Ok b) by (eexists; vm_compute; reflexivity).
  destruct Hb as (b & Hb). exists b.
  destruct (proj1 (X25_Contents_result examples.sampleMarshal rangeList
                     examples.sampleFile) b Hb) as (y & Hy & Heq & Hlen).
  exists y. auto.
Defined.

Lemma X26_kip_files_well_formed_witness :
  kipWellFormed (ResetInstanceData examples.sampleFile)
  /\ kipWellFormed
       (AddItzoURL (ResetInstanceData examples.sampleFile)
          "https://example.com/itzo").
Proof.
  pose proof (X26_kip_files_well_formed moreexamples.sampleSemver
                moreexamples.sampleMarshalMap
                (ResetInstanceData examples.sampleFile)) as [Hreset Hkeep].
  split; [exact Hreset|].
  apply (proj1 (proj2 (proj2 (Hkeep Hreset)))).
Defined.

End CloudInitExtraWitnesses.
